(** * Feedhold sequencing of g2core: operation runner and dual-context hold

    A shallow embedding of [g2core/cycle_feedhold.cpp].  The file has two
    layers, as the source has:

    - the operation runner [cmOperation] (a fixed array of [cmAction]s,
      chained by [nx] pointers, with an [add] and a [run] cursor);
    - the feedhold functions, which act on the two canonical machines
      [cm1]/[cm2], their planners and runtimes, and on the three global
      handles [cm], [mp], [mr].

    Pointers into the action array are [option nat] ([None] is NULL,
    [Some i] is [&action[i]]); a dereference of NULL is undefined behaviour in
    the source and is the outcome [Fault] here. *)

From stdpp Require Import base option list.
From Stdlib Require Import Floats.SpecFloat.

Set Default Proof Using "Type".

(** ** Status codes

    [stat_t] values are used by name only; their numeric values live in a
    header outside this file.  Every code other than the five named in
    [cycle_feedhold.cpp] is [STAT_other n]. *)
Inductive stat_t : Type :=
| STAT_OK
| STAT_EAGAIN
| STAT_NOOP
| STAT_COMMAND_NOT_ACCEPTED
| STAT_INPUT_EXCEEDS_MAX_LENGTH
| STAT_other (code : nat).

#[global] Instance stat_t_eq_dec : EqDecision stat_t.
Proof. solve_decision. Defined.

(** ** Outcome of a call that may dereference a pointer or loop *)
Inductive result (T : Type) : Type :=
| Done (x : T)      (* the call returned *)
| Fault             (* a null or stray pointer was dereferenced *)
| OutOfFuel.        (* the loop fuel of the model ran out *)
Arguments Done {T} x.
Arguments Fault {T}.
Arguments OutOfFuel {T}.

Definition rbind {T U : Type} (r : result T) (k : T -> result U) : result U :=
  match r with
  | Done x => k x
  | Fault => Fault
  | OutOfFuel => OutOfFuel
  end.

Notation "x <<- r ;; k" := (rbind r (fun x => k))
  (at level 100, r at next level, right associativity).

(** [float] : the data of an IEEE value.  This file only stores, copies and
    zeroes floats; the two macros that compute on them are parameters below. *)
Definition float : Type := spec_float.
Definition fzero : float := S754_zero false.

#[global] Instance float_eq_dec : EqDecision float.
Proof. solve_decision. Defined.

Definition PARAM_MAX : nat := 4.
Definition ACTION_MAX : nat := 12.

(** ** The operation runner *)
Section OperationRunner.
(** [W] is everything an action can touch (no action of this file touches
    the runner itself); [A] names the action functions; [call f p w] is
    [f(p)] run in [w]. *)
Context {W A : Type}.
Variable call : A -> list float -> W -> stat_t * W.

Record cmAction : Type := mk_cmAction {
  number : nat;
  nx : option nat;
  func : option A;
  param : list float
}.

Record cmOperation : Type := mk_cmOperation {
  action : list cmAction;
  add : option nat;
  run : option nat;
  in_operation : bool
}.

(** [cmAction::reset]: clears the function pointer, nothing else. *)
Definition cmAction_reset (a : cmAction) : cmAction :=
  mk_cmAction (number a) (nx a) None (param a).

(** Body of the [for] loop of [cmOperation::reset] at index [i]. *)
Definition reset_slot (i : nat) (a : cmAction) : cmAction :=
  let a1 := cmAction_reset a in
  mk_cmAction i (Some (S i)) (func a1) (param a1).

Definition set_nx (p : option nat) (a : cmAction) : cmAction :=
  mk_cmAction (number a) p (func a) (param a).

Definition reset_loop (l : list cmAction) : list cmAction :=
  foldl (fun acc i => alter (reset_slot i) i acc) l (seq 0 ACTION_MAX).

(** [cmOperation::reset] *)
Definition reset (o : cmOperation) : cmOperation :=
  mk_cmOperation
    (alter (set_nx None) (ACTION_MAX - 1) (reset_loop (action o)))
    (Some 0) (Some 0) false.

(** [*p] for a pointer into the action array. *)
Definition deref (o : cmOperation) (p : option nat) : result cmAction :=
  match p with
  | None => Fault
  | Some i => match action o !! i with
              | Some a => Done a
              | None => Fault
              end
  end.

(** The copy loop [for i < PARAM_MAX: dst[i] = src[i]]. *)
Definition copy_param (dst src : list float) : list float :=
  foldl (fun acc i => match src !! i with
                      | Some x => <[i := x]> acc
                      | None => acc
                      end) dst (seq 0 PARAM_MAX).

(** [cmOperation::add_action].  [prm = None] is a NULL [param]. *)
Definition add_action (action_exec : A) (prm : option (list float))
    (o : cmOperation) : result (stat_t * cmOperation) :=
  if in_operation o then Done (STAT_COMMAND_NOT_ACCEPTED, o)
  else match add o with
       | None => Done (STAT_INPUT_EXCEEDS_MAX_LENGTH, o)
       | Some i =>
         a <<- deref o (Some i) ;;
         let p' := match prm with
                   | Some src => copy_param (param a) src
                   | None => param a
                   end in
         let a' := mk_cmAction (number a) (nx a) (Some action_exec) p' in
         Done (STAT_OK,
               mk_cmOperation (<[i := a']> (action o)) (nx a)
                              (run o) (in_operation o))
       end.

Definition set_run (p : option nat) (o : cmOperation) : cmOperation :=
  mk_cmOperation (action o) (add o) p (in_operation o).

Definition set_in_operation (b : bool) (o : cmOperation) : cmOperation :=
  mk_cmOperation (action o) (add o) (run o) b.

(** The [while] loop of [run_operation] together with the statements after
    it.  One unit of fuel is one evaluation of the loop condition, that is
    one call of [run->func(run->param)]. *)
Fixpoint run_loop (fuel : nat) (o : cmOperation) (w : W)
    : result (stat_t * cmOperation * W) :=
  match fuel with
  | 0 => OutOfFuel
  | S fuel' =>
    a <<- deref o (run o) ;;
    match func a with
    | None => Fault
    | Some f =>
      let '(status, w') := call f (param a) w in
      match status with
      | STAT_OK =>
        let o' := set_run (nx a) o in           (* run = run->nx *)
        a' <<- deref o' (run o') ;;             (* run->func *)
        match func a' with
        | None => Done (STAT_OK, reset o', w')  (* operation has completed *)
        | Some _ => run_loop fuel' o' w'
        end
      | STAT_EAGAIN => Done (STAT_EAGAIN, o, w')
      | _ => Done (status, reset o, w')
      end
    end
  end.

(** [cmOperation::run_operation], with the fuel of its loop explicit. *)
Definition run_operation_fuel (fuel : nat) (o : cmOperation) (w : W)
    : result (stat_t * cmOperation * W) :=
  a <<- deref o (run o) ;;
  match func a with
  | None => Done (STAT_NOOP, o, w)
  | Some _ => run_loop fuel (set_in_operation true o) w
  end.

(** The [nx] chain set up by [reset] has [ACTION_MAX] links, so the loop
    makes at most [ACTION_MAX] calls before it returns or runs off the
    chain (see [run_loop_fuel] below). *)
Definition run_operation : cmOperation -> W -> result (stat_t * cmOperation * W) :=
  run_operation_fuel ACTION_MAX.

(** *** The queue as the spec sees it

    [queue_of o j] lists the function and parameters of slot [j] and of
    the slots after it, up to the first empty slot. *)
Fixpoint queue_from (l : list cmAction) : list (A * list float) :=
  match l with
  | [] => []
  | a :: l' => match func a with
               | Some f => (f, param a) :: queue_from l'
               | None => []
               end
  end.

Definition queue_of (o : cmOperation) (j : nat) : list (A * list float) :=
  queue_from (drop j (action o)).

(** Run a list of actions in order, each once, stopping at the first that
    does not return [STAT_OK].  The result is the number of actions that
    completed, the last status and the world. *)
Fixpoint run_queue (q : list (A * list float)) (w : W) : nat * stat_t * W :=
  match q with
  | [] => (0, STAT_OK, w)
  | (f, p) :: q' =>
    let '(status, w') := call f p w in
    match status with
    | STAT_OK => let '(n, status', w'') := run_queue q' w' in (S n, status', w'')
    | _ => (0, status, w')
    end
  end.

(** What the spec says [run_operation] leaves behind, for a run that
    started at slot [j]: on Continue the run cursor rests on the action that
    asked to be called again, otherwise the runner is reset. *)
Definition after_run (o : cmOperation) (j : nat) (r : nat * stat_t * W)
    : stat_t * cmOperation * W :=
  let '(n, status, w') := r in
  (status,
   match status with
   | STAT_EAGAIN => set_run (Some (j + n)) o
   | _ => reset o
   end,
   w').


(** The link [reset] gives slot [i]. *)
Definition link_of (i : nat) : option nat :=
  if decide (S i < ACTION_MAX) then Some (S i) else None.

(** Well-formed runner: twelve slots of four parameters each, chained as
    [reset] chains them, cursors inside the array. *)
Record op_wf (o : cmOperation) : Prop := mk_op_wf {
  wf_length : length (action o) = ACTION_MAX;
  wf_links : forall i a, action o !! i = Some a -> nx a = link_of i;
  wf_params : forall i a, action o !! i = Some a -> length (param a) = PARAM_MAX;
  wf_add : forall i, add o = Some i -> i < ACTION_MAX;
  wf_run : forall i, run o = Some i -> i < ACTION_MAX
}.

(** [filled o k]: [k] actions were added since the last reset, and the
    operation has not started. *)
Record filled (o : cmOperation) (k : nat) : Prop := mk_filled {
  filled_wf : op_wf o;
  filled_le : k <= ACTION_MAX;
  filled_add : add o = if decide (k < ACTION_MAX) then Some k else None;
  filled_run : run o = Some 0;
  filled_idle : in_operation o = false;
  filled_func : forall i a, action o !! i = Some a -> (is_Some (func a) <-> i < k)
}.

End OperationRunner.

Arguments cmAction A : clear implicits.
Arguments cmOperation A : clear implicits.

(** ** Enumerations

    Modelled from the spec: the enumerations are declared in
    [canonical_machine.h], [gcode.h], [spindle.h], [coolant.h] and [report.h],
    which are not part of this file; each carries the members that the spec
    lists and that [cycle_feedhold.cpp] names. *)
Inductive cmFeedholdState : Type :=
| FEEDHOLD_OFF
| FEEDHOLD_REQUESTED
| FEEDHOLD_SYNC
| FEEDHOLD_HOLD_ACTION_START
| FEEDHOLD_HOLD_PENDING
| FEEDHOLD_HOLD_DONE
| FEEDHOLD_HOLD
| FEEDHOLD_HOLD_EXIT_PENDING
| FEEDHOLD_HOLD_EXIT_DONE.

Inductive cmFeedholdType : Type :=
| FEEDHOLD_TYPE_ACTIONS
| FEEDHOLD_TYPE_NO_ACTIONS
| FEEDHOLD_TYPE_SYNC.

Inductive cmFeedholdFinal : Type :=
| FEEDHOLD_FINAL_CYCLE
| FEEDHOLD_FINAL_STOP
| FEEDHOLD_FINAL_END
| FEEDHOLD_FINAL_ALARM
| FEEDHOLD_FINAL_SHUTDOWN
| FEEDHOLD_FINAL_INTERLOCK.

Inductive cmFlushState : Type := FLUSH_OFF | FLUSH_REQUESTED | FLUSH_WAS_RUN.
Inductive cmCycleState : Type := CYCLE_OFF | CYCLE_START_REQUESTED.
Inductive cmMotionState : Type := MOTION_STOP | MOTION_RUN.
Inductive cmMotionMode : Type :=
| MOTION_MODE_STRAIGHT_TRAVERSE
| MOTION_MODE_STRAIGHT_FEED
| MOTION_MODE_CANCEL_MOTION_MODE.
Inductive cmAbsoluteOverride : Type := ABSOLUTE_OVERRIDE_OFF | ABSOLUTE_OVERRIDE_ON.
Inductive cmDistanceMode : Type := ABSOLUTE_DISTANCE_MODE | INCREMENTAL_DISTANCE_MODE.
Inductive spControl : Type := SPINDLE_PAUSE | SPINDLE_RESUME.
Inductive coControl : Type := COOLANT_PAUSE | COOLANT_RESUME.
Inductive coSelect : Type := COOLANT_BOTH.
Inductive cmMotionProfile : Type := PROFILE_NORMAL.
Inductive srStatusReportRequest : Type := SR_REQUEST_IMMEDIATE.

#[global] Instance cmFeedholdState_eq_dec : EqDecision cmFeedholdState.
Proof. solve_decision. Defined.
#[global] Instance cmFlushState_eq_dec : EqDecision cmFlushState.
Proof. solve_decision. Defined.
#[global] Instance cmCycleState_eq_dec : EqDecision cmCycleState.
Proof. solve_decision. Defined.
#[global] Instance cmMotionState_eq_dec : EqDecision cmMotionState.
Proof. solve_decision. Defined.

(** Index of the Z axis in an axis vector: the Z-lift literals
    [{0,0,1,0,0,0}] of [_feedhold_with_actions] set entry 2. *)
Definition AXIS_Z : nat := 2.

(** ** Addresses of the global objects

    [cm], [mp], [mr] and the [mp] member of a canonical machine are pointers
    to one of two objects each. *)
Inductive cm_ptr : Type := addr_cm1 | addr_cm2.
Inductive mp_ptr : Type := addr_mp1 | addr_mp2.
Inductive mr_ptr : Type := addr_mr1 | addr_mr2.

#[global] Instance cm_ptr_eq_dec : EqDecision cm_ptr.
Proof. solve_decision. Defined.

(** ** Structures.  Each carries the members this file reads or writes. *)
Module GCodeState.
Record t : Type := mk {
  motion_mode : cmMotionMode;
  absolute_override : cmAbsoluteOverride;
  distance_mode : cmDistanceMode;
  feed_rate : float;
  target : list float;
  target_comp : list float
}.
Definition set_motion_mode v g :=
  mk v (absolute_override g) (distance_mode g) (feed_rate g) (target g) (target_comp g).
Definition set_absolute_override v g :=
  mk (motion_mode g) v (distance_mode g) (feed_rate g) (target g) (target_comp g).
Definition set_distance_mode v g :=
  mk (motion_mode g) (absolute_override g) v (feed_rate g) (target g) (target_comp g).
Definition set_feed_rate v g :=
  mk (motion_mode g) (absolute_override g) (distance_mode g) v (target g) (target_comp g).
Definition set_target v g :=
  mk (motion_mode g) (absolute_override g) (distance_mode g) (feed_rate g) v (target_comp g).
Definition set_target_comp v g :=
  mk (motion_mode g) (absolute_override g) (distance_mode g) (feed_rate g) (target g) v.
End GCodeState.

Module GCodeStateX.
Record t : Type := mk {
  position : list float;
  g30_position : list float
}.
Definition set_position v g := mk v (g30_position g).
End GCodeStateX.

Module cmMachine.
Record t : Type := mk {
  hold_state : cmFeedholdState;
  hold_type : cmFeedholdType;
  hold_final : cmFeedholdFinal;
  flush_state : cmFlushState;
  cycle_state : cmCycleState;
  motion_state : cmMotionState;
  feedhold_z_lift : float;
  return_flags : list bool;
  gm : GCodeState.t;
  gmx : GCodeStateX.t;
  mp : mp_ptr
}.
Definition set_hold_state v c :=
  mk v (hold_type c) (hold_final c) (flush_state c) (cycle_state c) (motion_state c)
     (feedhold_z_lift c) (return_flags c) (gm c) (gmx c) (mp c).
Definition set_hold_type v c :=
  mk (hold_state c) v (hold_final c) (flush_state c) (cycle_state c) (motion_state c)
     (feedhold_z_lift c) (return_flags c) (gm c) (gmx c) (mp c).
Definition set_hold_final v c :=
  mk (hold_state c) (hold_type c) v (flush_state c) (cycle_state c) (motion_state c)
     (feedhold_z_lift c) (return_flags c) (gm c) (gmx c) (mp c).
Definition set_flush_state v c :=
  mk (hold_state c) (hold_type c) (hold_final c) v (cycle_state c) (motion_state c)
     (feedhold_z_lift c) (return_flags c) (gm c) (gmx c) (mp c).
Definition set_cycle_state v c :=
  mk (hold_state c) (hold_type c) (hold_final c) (flush_state c) v (motion_state c)
     (feedhold_z_lift c) (return_flags c) (gm c) (gmx c) (mp c).
Definition set_return_flags v c :=
  mk (hold_state c) (hold_type c) (hold_final c) (flush_state c) (cycle_state c)
     (motion_state c) (feedhold_z_lift c) v (gm c) (gmx c) (mp c).
Definition set_gm v c :=
  mk (hold_state c) (hold_type c) (hold_final c) (flush_state c) (cycle_state c)
     (motion_state c) (feedhold_z_lift c) (return_flags c) v (gmx c) (mp c).
Definition set_gmx v c :=
  mk (hold_state c) (hold_type c) (hold_final c) (flush_state c) (cycle_state c)
     (motion_state c) (feedhold_z_lift c) (return_flags c) (gm c) v (mp c).
Definition set_mp v c :=
  mk (hold_state c) (hold_type c) (hold_final c) (flush_state c) (cycle_state c)
     (motion_state c) (feedhold_z_lift c) (return_flags c) (gm c) (gmx c) v.
End cmMachine.

(** Modelled from the spec: the planner's buffer queue is declared in
    [planner.h]; this file sees it only through [planner_reset] (reset the
    planner to empty) and [mp_has_runnable_buffer], so it is kept as the
    number of runnable buffers. *)
Module mpPlanner.
Record t : Type := mk {
  position : list float;
  mr : mr_ptr;
  runnable_buffers : nat
}.
Definition set_position v p := mk v (mr p) (runnable_buffers p).
Definition set_runnable_buffers v p := mk (position p) (mr p) v.
End mpPlanner.

Module mpPlannerRuntime.
Record t : Type := mk { position : list float }.
End mpPlannerRuntime.

(** Callbacks handed to [mp_queue_command]. *)
Inductive planner_callback : Type :=
| fn_feedhold_sync_to_planner
| fn_feedhold_exit_sync_to_planner.

(** ** Calls into the collaborators

    Every call this file makes into another translation unit is recorded, in
    order and with its arguments, in the [trace] of the world. *)
Inductive Event : Type :=
| call_planner_reset (p : mp_ptr)
| call_cm_set_g30_position
| call_cm_set_distance_mode (m : cmDistanceMode)
| call_cm_straight_traverse (target : list float) (flags : list bool) (profile : cmMotionProfile)
| call_spindle_control_sync (c : spControl)
| call_coolant_control_sync (c : coControl) (which : coSelect)
| call_mp_queue_command (cb : planner_callback)
| call_sr_request_status_report (r : srStatusReportRequest)
| call_cm_goto_g30_position (pos : list float) (flags : list bool)
| call_cm_reset_position_to_absolute_position (c : cm_ptr)
| call_cm_abort_arc (c : cm_ptr)
| call_cm_cycle_start
| call_cm_cycle_end
| call_st_request_exec_move.

(** ** The global objects other than the runner [op] *)
Record World : Type := mk_World {
  cm1 : cmMachine.t;
  cm2 : cmMachine.t;
  mp1 : mpPlanner.t;
  mp2 : mpPlanner.t;
  mr1 : mpPlannerRuntime.t;
  mr2 : mpPlannerRuntime.t;
  cm : cm_ptr;
  mp : mp_ptr;
  mr : mr_ptr;
  trace : list Event
}.

Definition set_cm1 v w :=
  mk_World v (cm2 w) (mp1 w) (mp2 w) (mr1 w) (mr2 w) (cm w) (mp w) (mr w) (trace w).
Definition set_cm2 v w :=
  mk_World (cm1 w) v (mp1 w) (mp2 w) (mr1 w) (mr2 w) (cm w) (mp w) (mr w) (trace w).
Definition set_mp1 v w :=
  mk_World (cm1 w) (cm2 w) v (mp2 w) (mr1 w) (mr2 w) (cm w) (mp w) (mr w) (trace w).
Definition set_mp2 v w :=
  mk_World (cm1 w) (cm2 w) (mp1 w) v (mr1 w) (mr2 w) (cm w) (mp w) (mr w) (trace w).
Definition set_mr1 v w :=
  mk_World (cm1 w) (cm2 w) (mp1 w) (mp2 w) v (mr2 w) (cm w) (mp w) (mr w) (trace w).
Definition set_mr2 v w :=
  mk_World (cm1 w) (cm2 w) (mp1 w) (mp2 w) (mr1 w) v (cm w) (mp w) (mr w) (trace w).
Definition set_cm v w :=
  mk_World (cm1 w) (cm2 w) (mp1 w) (mp2 w) (mr1 w) (mr2 w) v (mp w) (mr w) (trace w).
Definition set_mp v w :=
  mk_World (cm1 w) (cm2 w) (mp1 w) (mp2 w) (mr1 w) (mr2 w) (cm w) v (mr w) (trace w).
Definition set_mr v w :=
  mk_World (cm1 w) (cm2 w) (mp1 w) (mp2 w) (mr1 w) (mr2 w) (cm w) (mp w) v (trace w).

(** A collaborator call appends to the trace. *)
Definition emit (e : Event) (w : World) : World :=
  mk_World (cm1 w) (cm2 w) (mp1 w) (mp2 w) (mr1 w) (mr2 w) (cm w) (mp w) (mr w)
           (trace w ++ [e]).

(** [*p] and [*p = v] for the three kinds of pointer. *)
Definition get_cm (p : cm_ptr) (w : World) : cmMachine.t :=
  match p with addr_cm1 => cm1 w | addr_cm2 => cm2 w end.
Definition put_cm (p : cm_ptr) (v : cmMachine.t) (w : World) : World :=
  match p with addr_cm1 => set_cm1 v w | addr_cm2 => set_cm2 v w end.
Definition get_mp (p : mp_ptr) (w : World) : mpPlanner.t :=
  match p with addr_mp1 => mp1 w | addr_mp2 => mp2 w end.
Definition put_mp (p : mp_ptr) (v : mpPlanner.t) (w : World) : World :=
  match p with addr_mp1 => set_mp1 v w | addr_mp2 => set_mp2 v w end.
Definition get_mr (p : mr_ptr) (w : World) : mpPlannerRuntime.t :=
  match p with addr_mr1 => mr1 w | addr_mr2 => mr2 w end.

Definition upd_cm1 (f : cmMachine.t -> cmMachine.t) (w : World) : World :=
  set_cm1 (f (cm1 w)) w.
Definition upd_cm2 (f : cmMachine.t -> cmMachine.t) (w : World) : World :=
  set_cm2 (f (cm2 w)) w.
(** [cm->member = v] *)
Definition upd_cm (f : cmMachine.t -> cmMachine.t) (w : World) : World :=
  put_cm (cm w) (f (get_cm (cm w) w)) w.
Definition upd_gm (f : GCodeState.t -> GCodeState.t) (c : cmMachine.t) : cmMachine.t :=
  cmMachine.set_gm (f (cmMachine.gm c)) c.
Definition upd_gmx (f : GCodeStateX.t -> GCodeStateX.t) (c : cmMachine.t) : cmMachine.t :=
  cmMachine.set_gmx (f (cmMachine.gmx c)) c.

(** [memset(&v, 0, sizeof(v))] on an array of floats or of bools. *)
Definition memset0_float (v : list float) : list float := (fun _ => fzero) <$> v.
Definition memset0_bool (v : list bool) : list bool := (fun _ => false) <$> v.

(** ** Collaborators

    Modelled from the spec: the functions below are defined in
    [planner.cpp], [canonical_machine.cpp], [spindle.cpp], [coolant.cpp],
    [stepper.cpp] and [report.cpp].  Each call is recorded in the trace.  A
    collaborator changes the modelled data only where the spec says what it
    does: [planner_reset] resets the planner to empty,
    [cm_set_distance_mode] sets the distance mode of the active machine, and
    [cm_reset_position_to_absolute_position] reconciles the planner's
    recorded position with the position of the runtime under it. *)
Definition planner_reset (p : mp_ptr) (w : World) : World :=
  emit (call_planner_reset p)
       (put_mp p (mpPlanner.set_runnable_buffers 0 (get_mp p w)) w).

Definition mp_has_runnable_buffer (p : mp_ptr) (w : World) : bool :=
  bool_decide (0 < mpPlanner.runnable_buffers (get_mp p w)).

Definition cm_set_distance_mode (m : cmDistanceMode) (w : World) : World :=
  emit (call_cm_set_distance_mode m)
       (upd_cm (upd_gm (GCodeState.set_distance_mode m)) w).

Definition cm_reset_position_to_absolute_position (c : cm_ptr) (w : World) : World :=
  let p := cmMachine.mp (get_cm c w) in
  let r := mpPlanner.mr (get_mp p w) in
  emit (call_cm_reset_position_to_absolute_position c)
       (put_mp p (mpPlanner.set_position (mpPlannerRuntime.position (get_mr r w))
                                         (get_mp p w)) w).

Definition cm_set_g30_position : World -> World := emit call_cm_set_g30_position.
Definition cm_straight_traverse (target : list float) (flags : list bool)
    (profile : cmMotionProfile) : World -> World :=
  emit (call_cm_straight_traverse target flags profile).
Definition spindle_control_sync (c : spControl) : World -> World :=
  emit (call_spindle_control_sync c).
Definition coolant_control_sync (c : coControl) (which : coSelect) : World -> World :=
  emit (call_coolant_control_sync c which).
Definition mp_queue_command (cb : planner_callback) : World -> World :=
  emit (call_mp_queue_command cb).
Definition sr_request_status_report (r : srStatusReportRequest) : World -> World :=
  emit (call_sr_request_status_report r).
Definition cm_goto_g30_position (pos : list float) (flags : list bool) : World -> World :=
  emit (call_cm_goto_g30_position pos flags).
Definition cm_abort_arc (c : cm_ptr) : World -> World := emit (call_cm_abort_arc c).
Definition cm_cycle_start : World -> World := emit call_cm_cycle_start.
Definition cm_cycle_end : World -> World := emit call_cm_cycle_end.
Definition st_request_exec_move : World -> World := emit call_st_request_exec_move.

(** ** The action functions and the planner callbacks *)
Inductive action_exec_t : Type :=
| fn_feedhold_with_actions
| fn_feedhold_with_no_actions
| fn_feedhold_with_sync
| fn_feedhold_exit_with_actions
| fn_feedhold_exit_with_no_actions
| fn_cycle_exit
| fn_program_stop
| fn_program_end
| fn_alarm
| fn_shutdown
| fn_interlock.

#[global] Instance action_exec_t_eq_dec : EqDecision action_exec_t.
Proof. solve_decision. Defined.

(** The runner [op] next to the other globals. *)
Record System : Type := mk_System {
  world : World;
  op : cmOperation action_exec_t
}.

Section Feedhold.
(** The macros [fp_NOT_ZERO] (util.h) and [_to_inches]
    (canonical_machine.h, evaluated in the active machine) are not defined
    in this file. *)
Variable fp_NOT_ZERO : float -> bool.
Variable _to_inches : cmMachine.t -> float -> float.

(** [cm_has_hold] *)
Definition cm_has_hold (w : World) : bool * World :=
  (bool_decide (cmMachine.hold_state (cm1 w) <> FEEDHOLD_OFF), w).

(** [cm_feedhold_command_blocker] *)
Definition cm_feedhold_command_blocker (w : World) : stat_t * World :=
  if bool_decide (cmMachine.hold_state (cm1 w) <> FEEDHOLD_OFF)
  then (STAT_EAGAIN, w)
  else (STAT_OK, w).

(** [cm_request_cycle_start] *)
Definition cm_request_cycle_start (w : World) : World :=
  upd_cm (cmMachine.set_cycle_state CYCLE_START_REQUESTED) w.

(** [_feedhold_sync_to_planner] *)
Definition _feedhold_sync_to_planner (w : World) : World :=
  let w := upd_cm1 (cmMachine.set_hold_state FEEDHOLD_HOLD_DONE) w in
  sr_request_status_report SR_REQUEST_IMMEDIATE w.

(** [_feedhold_exit_sync_to_planner] *)
Definition _feedhold_exit_sync_to_planner (w : World) : World :=
  let w := upd_cm1 (cmMachine.set_hold_state FEEDHOLD_HOLD_EXIT_DONE) w in
  sr_request_status_report SR_REQUEST_IMMEDIATE w.

Definition run_callback (cb : planner_callback) : World -> World :=
  match cb with
  | fn_feedhold_sync_to_planner => _feedhold_sync_to_planner
  | fn_feedhold_exit_sync_to_planner => _feedhold_exit_sync_to_planner
  end.

Definition _feedhold_with_no_actions (prm : list float) (w : World) : stat_t * World :=
  (STAT_OK, w).
Definition _feedhold_with_sync (prm : list float) (w : World) : stat_t * World :=
  (STAT_OK, w).
Definition _program_stop (prm : list float) (w : World) : stat_t * World :=
  (STAT_OK, w).
Definition _program_end (prm : list float) (w : World) : stat_t * World :=
  (STAT_OK, w).
Definition _alarm (prm : list float) (w : World) : stat_t * World :=
  (STAT_OK, w).
Definition _shutdown (prm : list float) (w : World) : stat_t * World :=
  (STAT_OK, w).
Definition _interlock (prm : list float) (w : World) : stat_t * World :=
  (STAT_OK, w).
Definition _feedhold_exit_with_no_actions (prm : list float) (w : World) : stat_t * World :=
  (STAT_OK, w).

(** Lines 401-425 of [_feedhold_with_actions]: copy the primary machine to
    the secondary, fix it up, and reassign the globals. *)
Definition switch_to_secondary (w : World) : World :=
  let w := set_cm2 (cm1 w) w in                                (* memcpy(&cm2, &cm1) *)
  let w := upd_cm2 (cmMachine.set_mp addr_mp2) w in            (* cm2.mp = &mp2 *)
  let w := planner_reset (cmMachine.mp (cm2 w)) w in
  let w := upd_cm2 (cmMachine.set_hold_state FEEDHOLD_OFF) w in
  let w := upd_cm2 (upd_gm (GCodeState.set_motion_mode MOTION_MODE_CANCEL_MOTION_MODE)) w in
  let w := upd_cm2 (upd_gm (GCodeState.set_absolute_override ABSOLUTE_OVERRIDE_OFF)) w in
  let w := upd_cm2 (cmMachine.set_flush_state FLUSH_OFF) w in
  let w := upd_cm2 (upd_gm (GCodeState.set_feed_rate fzero)) w in
  let w := upd_cm2 (upd_gm (fun g =>
             GCodeState.set_target (memset0_float (GCodeState.target g)) g)) w in
  let w := upd_cm2 (fun c =>
             cmMachine.set_return_flags (memset0_bool (cmMachine.return_flags c)) c) w in
  let w := upd_cm2 (upd_gm (GCodeState.set_target_comp
             (GCodeState.target_comp (cmMachine.gm (cm1 w))))) w in
  let w := upd_cm2 (upd_gmx (GCodeStateX.set_position
             (mpPlannerRuntime.position (mr1 w)))) w in
  let w := set_mp2 (mpPlanner.set_position (mpPlannerRuntime.position (mr1 w)) (mp2 w)) w in
  let w := set_mr2 (mpPlannerRuntime.mk (mpPlannerRuntime.position (mr1 w))) w in
  let w := set_cm addr_cm2 w in                                (* cm = &cm2 *)
  let w := set_mp (cmMachine.mp (get_cm (cm w) w)) w in        (* mp = cm->mp *)
  set_mr (mpPlanner.mr (get_mp (mp w) w)) w.                   (* mr = mp->mr *)

(** The optional Z lift of [_feedhold_with_actions]. *)
Definition z_lift (w : World) : World :=
  let lift := cmMachine.feedhold_z_lift (get_cm (cm w) w) in
  if fp_NOT_ZERO lift then
    let w := cm_set_distance_mode INCREMENTAL_DISTANCE_MODE w in
    let flags := [false; false; true; false; false; false] in
    let target := [fzero; fzero; _to_inches (get_cm (cm w) w) lift; fzero; fzero; fzero] in
    let w := cm_straight_traverse target flags PROFILE_NORMAL w in
    cm_set_distance_mode (GCodeState.distance_mode (cmMachine.gm (cm1 w))) w
  else w.

(** [_feedhold_with_actions] *)
Definition _feedhold_with_actions (prm : list float) (w : World) : stat_t * World :=
  if bool_decide (cmMachine.hold_state (cm1 w) = FEEDHOLD_HOLD_ACTION_START) then
    let w := upd_cm (cmMachine.set_hold_state FEEDHOLD_HOLD_PENDING) w in
    let w := switch_to_secondary w in
    let w := cm_set_g30_position w in
    let w := z_lift w in
    let w := spindle_control_sync SPINDLE_PAUSE w in
    let w := coolant_control_sync COOLANT_PAUSE COOLANT_BOTH w in
    let w := mp_queue_command fn_feedhold_sync_to_planner w in
    (STAT_EAGAIN, w)
  else if bool_decide (cmMachine.hold_state (cm1 w) = FEEDHOLD_HOLD_PENDING) then
    (STAT_EAGAIN, w)
  else if bool_decide (cmMachine.hold_state (cm1 w) = FEEDHOLD_HOLD_DONE) then
    (STAT_OK, upd_cm1 (cmMachine.set_hold_state FEEDHOLD_HOLD) w)
  else (STAT_EAGAIN, w).

(** Lines 498-500 of [_feedhold_exit_with_actions]: return to the primary
    planner. *)
Definition switch_to_primary (w : World) : World :=
  let w := set_cm addr_cm1 w in                                (* cm = &cm1 *)
  let w := set_mp (cmMachine.mp (get_cm (cm w) w)) w in        (* mp = cm->mp *)
  set_mr (mpPlanner.mr (get_mp (mp w) w)) w.                   (* mr = mp->mr *)

(** [_feedhold_exit_with_actions] *)
Definition _feedhold_exit_with_actions (prm : list float) (w : World) : stat_t * World :=
  if bool_decide (cmMachine.hold_state (cm1 w) = FEEDHOLD_HOLD) then
    let w := coolant_control_sync COOLANT_RESUME COOLANT_BOTH w in
    let w := spindle_control_sync SPINDLE_RESUME w in
    let w := upd_cm2 (fun c =>
               cmMachine.set_return_flags (<[AXIS_Z := false]> (cmMachine.return_flags c)) c) w in
    let w := cm_goto_g30_position (GCodeStateX.g30_position (cmMachine.gmx (cm2 w)))
                                  (cmMachine.return_flags (cm2 w)) w in
    let w := mp_queue_command fn_feedhold_exit_sync_to_planner w in
    let w := upd_cm1 (cmMachine.set_hold_state FEEDHOLD_HOLD_EXIT_PENDING) w in
    (STAT_EAGAIN, w)
  else if bool_decide (cmMachine.hold_state (cm1 w) = FEEDHOLD_HOLD_EXIT_PENDING) then
    (STAT_EAGAIN, w)
  else if bool_decide (cmMachine.hold_state (cm1 w) = FEEDHOLD_HOLD_EXIT_DONE) then
    let w := switch_to_primary w in
    let w := if bool_decide (cmMachine.flush_state (cm1 w) = FLUSH_WAS_RUN) then
               let w := cm_reset_position_to_absolute_position (cm w) w in
               upd_cm1 (cmMachine.set_flush_state FLUSH_OFF) w
             else w in
    (STAT_OK, w)
  else (STAT_EAGAIN, w).

(** [_cycle_exit] *)
Definition _cycle_exit (prm : list float) (w : World) : stat_t * World :=
  let w := if mp_has_runnable_buffer addr_mp1 w then
             let w := cm_cycle_start w in
             st_request_exec_move w
           else cm_cycle_end w in
  (STAT_OK, upd_cm1 (cmMachine.set_hold_state FEEDHOLD_OFF) w).

(** A call through an [action_exec_t] pointer. *)
Definition exec_action (f : action_exec_t) : list float -> World -> stat_t * World :=
  match f with
  | fn_feedhold_with_actions => _feedhold_with_actions
  | fn_feedhold_with_no_actions => _feedhold_with_no_actions
  | fn_feedhold_with_sync => _feedhold_with_sync
  | fn_feedhold_exit_with_actions => _feedhold_exit_with_actions
  | fn_feedhold_exit_with_no_actions => _feedhold_exit_with_no_actions
  | fn_cycle_exit => _cycle_exit
  | fn_program_stop => _program_stop
  | fn_program_end => _program_end
  | fn_alarm => _alarm
  | fn_shutdown => _shutdown
  | fn_interlock => _interlock
  end.

Definition upd_world (f : World -> World) (s : System) : System :=
  mk_System (f (world s)) (op s).

(** [op.add_action(f, nullptr);] with the status dropped, as every caller
    in this file does. *)
Definition op_add_action (f : action_exec_t) (s : System) : result System :=
  r <<- add_action f None (op s) ;;
  Done (mk_System (world s) (snd r)).

(** [op.run_operation()] *)
Definition op_run_operation (s : System) : result (stat_t * System) :=
  r <<- run_operation exec_action (op s) (world s) ;;
  Done (fst (fst r), mk_System (snd r) (snd (fst r))).

(** [cm_operation_init] *)
Definition cm_operation_init (s : System) : System :=
  mk_System (world s) (reset (op s)).

(** [_initiate_feedhold] *)
Definition _initiate_feedhold (s : System) : result System :=
  let w := world s in
  if bool_decide (cmMachine.hold_state (cm1 w) = FEEDHOLD_REQUESTED)
     && bool_decide (cmMachine.motion_state (cm1 w) = MOTION_RUN) then
    s <<- match cmMachine.hold_type (cm1 w) with
          | FEEDHOLD_TYPE_ACTIONS => op_add_action fn_feedhold_with_actions s
          | FEEDHOLD_TYPE_NO_ACTIONS => op_add_action fn_feedhold_with_no_actions s
          | FEEDHOLD_TYPE_SYNC => op_add_action fn_feedhold_with_sync s
          end ;;
    s <<- match cmMachine.hold_final (cm1 (world s)) with
          | FEEDHOLD_FINAL_STOP => op_add_action fn_program_stop s
          | FEEDHOLD_FINAL_END => op_add_action fn_program_end s
          | FEEDHOLD_FINAL_ALARM => op_add_action fn_alarm s
          | FEEDHOLD_FINAL_SHUTDOWN => op_add_action fn_shutdown s
          | FEEDHOLD_FINAL_INTERLOCK => op_add_action fn_interlock s
          | FEEDHOLD_FINAL_CYCLE => Done s
          end ;;
    Done (upd_world (upd_cm1 (cmMachine.set_hold_state FEEDHOLD_SYNC)) s)
  else if bool_decide (cmMachine.hold_state (cm2 w) = FEEDHOLD_REQUESTED)
          && bool_decide (cmMachine.motion_state (cm2 w) = MOTION_RUN) then
    s <<- op_add_action fn_feedhold_with_sync s ;;
    Done (upd_world (upd_cm2 (cmMachine.set_hold_state FEEDHOLD_SYNC)) s)
  else Done s.

(** [cm_request_feedhold] *)
Definition cm_request_feedhold (type : cmFeedholdType) (final : cmFeedholdFinal)
    (s : System) : result System :=
  let s := upd_world (upd_cm (cmMachine.set_hold_type type)) s in
  let s := upd_world (upd_cm (cmMachine.set_hold_final final)) s in
  let s := upd_world (upd_cm (cmMachine.set_hold_state FEEDHOLD_REQUESTED)) s in
  _initiate_feedhold s.

(** [_initiate_cycle_start] *)
Definition _initiate_cycle_start (s : System) : result System :=
  if bool_decide (cmMachine.hold_state (cm1 (world s)) = FEEDHOLD_OFF) then
    let s := upd_world cm_cycle_start s in
    Done (upd_world st_request_exec_move s)
  else
    s <<- (if bool_decide (cmMachine.hold_state (cm1 (world s)) = FEEDHOLD_HOLD) then
             s <<- match cmMachine.hold_type (cm1 (world s)) with
                   | FEEDHOLD_TYPE_ACTIONS => op_add_action fn_feedhold_exit_with_actions s
                   | FEEDHOLD_TYPE_NO_ACTIONS => op_add_action fn_feedhold_exit_with_no_actions s
                   | FEEDHOLD_TYPE_SYNC => Done s
                   end ;;
             match cmMachine.hold_final (cm1 (world s)) with
             | FEEDHOLD_FINAL_CYCLE => op_add_action fn_cycle_exit s
             | FEEDHOLD_FINAL_STOP => op_add_action fn_program_stop s
             | FEEDHOLD_FINAL_END => op_add_action fn_program_end s
             | FEEDHOLD_FINAL_ALARM => op_add_action fn_alarm s
             | FEEDHOLD_FINAL_SHUTDOWN => op_add_action fn_shutdown s
             | FEEDHOLD_FINAL_INTERLOCK => op_add_action fn_interlock s
             end
           else Done s) ;;
    r <<- op_run_operation s ;;
    Done (snd r).

(** [cm_request_queue_flush] *)
Definition cm_request_queue_flush (w : World) : World :=
  upd_cm (cmMachine.set_flush_state FLUSH_REQUESTED) w.

(** [cm_queue_flush] *)
Definition cm_queue_flush (_cm : cm_ptr) (w : World) : World :=
  let w := cm_abort_arc _cm w in
  let w := planner_reset (cmMachine.mp (get_cm _cm w)) w in
  put_cm _cm (cmMachine.set_flush_state FLUSH_WAS_RUN (get_cm _cm w)) w.

(** [_initiate_queue_flush] *)
Definition _initiate_queue_flush (w : World) : World :=
  cm_queue_flush (cm w) w.

(** [cm_operation_sequencing_callback] *)
Definition cm_operation_sequencing_callback (s : System) : result (stat_t * System) :=
  s <<- (if bool_decide (cmMachine.hold_state (cm1 (world s)) = FEEDHOLD_REQUESTED)
         then _initiate_feedhold s else Done s) ;;
  s <<- Done (if bool_decide (cmMachine.flush_state (cm1 (world s)) = FLUSH_REQUESTED)
              then upd_world _initiate_queue_flush s else s) ;;
  s <<- (if bool_decide (cmMachine.cycle_state (cm1 (world s)) = CYCLE_START_REQUESTED)
         then _initiate_cycle_start s else Done s) ;;
  op_run_operation s.

(** [n] main-loop ticks, each one call of the sequencing callback. *)
Fixpoint ticks (n : nat) (s : System) : result System :=
  match n with
  | 0 => Done s
  | S n' => r <<- cm_operation_sequencing_callback s ;; ticks n' (snd r)
  end.

End Feedhold.



(** ** The engine's side of the hold, and worked states

    Modelled from the spec: the motion-execution engine ([plan_exec.cpp])
    moves a hold from [FEEDHOLD_SYNC] to [FEEDHOLD_HOLD_ACTION_START] when
    deceleration completes, and fires a queued planner callback when motion
    reaches it. *)
Definition engine_hold_point (w : World) : World :=
  if bool_decide (cmMachine.hold_state (cm1 w) = FEEDHOLD_SYNC)
  then upd_cm1 (cmMachine.set_hold_state FEEDHOLD_HOLD_ACTION_START) w
  else w.


(** The macros at one configuration, for the worked states: exact test
    against zero, millimetre mode. *)
Definition fp_NOT_ZERO_exact (x : float) : bool :=
  match x with S754_zero _ => false | _ => true end.
Definition _to_inches_mm (c : cmMachine.t) (x : float) : float := x.

Definition fnum (m : positive) : float := S754_finite false m 0.

(** [op] as static storage leaves it before [cm_operation_init]. *)
Definition op_zero : cmOperation action_exec_t :=
  mk_cmOperation
    (replicate ACTION_MAX (mk_cmAction 0 None None (replicate PARAM_MAX fzero)))
    None None false.

Definition gm_boot : GCodeState.t :=
  GCodeState.mk MOTION_MODE_STRAIGHT_FEED ABSOLUTE_OVERRIDE_ON ABSOLUTE_DISTANCE_MODE
    (fnum 100)
    [fnum 10; fnum 20; fnum 5; fzero; fzero; fzero]
    [fnum 1; fzero; fzero; fzero; fzero; fzero].

Definition gmx_boot : GCodeStateX.t :=
  GCodeStateX.mk [fnum 10; fnum 20; fnum 5; fzero; fzero; fzero]
                 [fzero; fzero; fzero; fzero; fzero; fzero].

Definition cm_boot (lift : float) (p : mp_ptr) : cmMachine.t :=
  cmMachine.mk FEEDHOLD_OFF FEEDHOLD_TYPE_ACTIONS FEEDHOLD_FINAL_CYCLE FLUSH_OFF
    CYCLE_OFF MOTION_STOP lift [true; true; true; false; false; false]
    gm_boot gmx_boot p.

Definition pos_run : list float := [fnum 7; fnum 8; fnum 5; fzero; fzero; fzero].

(** A machine at rest in the primary context, with three buffers planned. *)
Definition w_boot : World :=
  mk_World (cm_boot (fnum 3) addr_mp1) (cm_boot (fnum 3) addr_mp2)
    (mpPlanner.mk [fnum 10; fnum 20; fnum 5; fzero; fzero; fzero] addr_mr1 3)
    (mpPlanner.mk [fzero; fzero; fzero; fzero; fzero; fzero] addr_mr2 0)
    (mpPlannerRuntime.mk pos_run)
    (mpPlannerRuntime.mk [fzero; fzero; fzero; fzero; fzero; fzero])
    addr_cm1 addr_mp1 addr_mr1 [].

Definition s_boot : System := cm_operation_init (mk_System w_boot op_zero).

Definition set_motion_state (v : cmMotionState) (c : cmMachine.t) : cmMachine.t :=
  cmMachine.mk (cmMachine.hold_state c) (cmMachine.hold_type c) (cmMachine.hold_final c)
    (cmMachine.flush_state c) (cmMachine.cycle_state c) v (cmMachine.feedhold_z_lift c)
    (cmMachine.return_flags c) (cmMachine.gm c) (cmMachine.gmx c) (cmMachine.mp c).

(** The same machine with the primary context in motion. *)
Definition s_running : System :=
  upd_world (upd_cm1 (set_motion_state MOTION_RUN)) s_boot.

(** The main loop of the worked states. *)
Definition tick : System -> result (stat_t * System) :=
  cm_operation_sequencing_callback fp_NOT_ZERO_exact _to_inches_mm.

(** [n] feedhold requests in a row, with no main-loop tick in between. *)
Fixpoint repeat_request (n : nat) (type : cmFeedholdType) (final : cmFeedholdFinal)
    (s : System) : result System :=
  match n with
  | 0 => Done s
  | S n' => s' <<- cm_request_feedhold type final s ;; repeat_request n' type final s'
  end.

(** Six sync-type holds with a stop finalization requested while the
    primary context is moving: twelve queued actions. *)
Definition s_twelve : result System :=
  repeat_request 6 FEEDHOLD_TYPE_SYNC FEEDHOLD_FINAL_STOP s_running.

(** One action queued with a parameter buffer, the operation run to
    completion, then an action queued with no parameters. *)
Definition params_1234 : list float := [fnum 1; fnum 2; fnum 3; fnum 4].

Definition op_reused : result (cmOperation action_exec_t) :=
  r1 <<- add_action fn_program_stop (Some params_1234) (op s_boot) ;;
  r2 <<- run_operation (exec_action fp_NOT_ZERO_exact _to_inches_mm) r1.2 w_boot ;;
  r3 <<- add_action fn_program_end None r2.1.2 ;;
  Done r3.2.

(** A hold with actions requested in motion and not yet at the hold point
    (primary hold state Sync), then a queue flush requested. *)
Definition s_flush_in_sync : result System :=
  s <<- cm_request_feedhold FEEDHOLD_TYPE_ACTIONS FEEDHOLD_FINAL_CYCLE s_running ;;
  Done (upd_world cm_request_queue_flush s).

(** A queue flush requested with no hold at all. *)
Definition s_flush_no_hold : System := upd_world cm_request_queue_flush s_boot.

(** A hold with actions taken all the way to Hold: request in motion, the
    engine reaches the hold point, a tick runs the entry action, the planner
    callback fires, a tick completes the entry action. *)
Definition s_in_hold : result System :=
  s <<- cm_request_feedhold FEEDHOLD_TYPE_ACTIONS FEEDHOLD_FINAL_CYCLE s_running ;;
  r <<- tick (upd_world engine_hold_point s) ;;
  r <<- tick (upd_world (run_callback fn_feedhold_sync_to_planner) r.2) ;;
  Done r.2.

Definition result_value {T : Type} (d : T) (r : result T) : T :=
  match r with Done x => x | _ => d end.

Definition s_in_hold_val : System := Eval vm_compute in result_value s_boot s_in_hold.

(** The primary context at the hold point, before the entry action runs. *)
Definition w_hold_point : World :=
  Eval vm_compute in
    world (upd_world engine_hold_point
             (result_value s_boot
                (cm_request_feedhold FEEDHOLD_TYPE_ACTIONS FEEDHOLD_FINAL_CYCLE s_running))).

(** ** A feedhold request that waits

    [primary_waiting]: the primary machine has a hold requested and is not
    in motion.  [secondary_waiting]: the same for the secondary machine,
    while the primary is not at the hold point (where the entry action would
    overwrite the secondary machine with a copy of the primary). *)
Definition primary_waiting (w : World) : Prop :=
  cmMachine.hold_state (cm1 w) = FEEDHOLD_REQUESTED
  /\ cmMachine.motion_state (cm1 w) <> MOTION_RUN.

Definition secondary_waiting (w : World) : Prop :=
  cmMachine.hold_state (cm2 w) = FEEDHOLD_REQUESTED
  /\ cmMachine.motion_state (cm2 w) <> MOTION_RUN
  /\ cmMachine.hold_state (cm1 w) <> FEEDHOLD_HOLD_ACTION_START.

(** No slot of the runner holds [_cycle_exit]. *)
Definition no_cycle_exit (o : cmOperation action_exec_t) : Prop :=
  forall i a g, action o !! i = Some a -> func a = Some g -> g <> fn_cycle_exit.

(** ** Sequences of calls on the runner *)
Section OperationRunnerUse.
Context {A : Type}.

(** The calls [add_action(f, p)] for the requests of a list, in order, with
    the status of each. *)
Fixpoint add_all (reqs : list (A * option (list float))) (o : cmOperation A)
    : result (list stat_t * cmOperation A) :=
  match reqs with
  | [] => Done ([], o)
  | (f, p) :: reqs' =>
    x <<- add_action f p o ;;
    y <<- add_all reqs' x.2 ;;
    Done (x.1 :: y.1, y.2)
  end.

(** A request and the queue entry it becomes: the same function, and the
    caller's parameters when a buffer was supplied. *)
Definition queued_as (q : A * list float) (r : A * option (list float)) : Prop :=
  q.1 = r.1 /\ forall src, r.2 = Some src -> q.2 = src.

(** [runner_ok o k]: a well-formed runner holding [k] actions in its first
    [k] slots, either idle with the run cursor on slot 0 or in an operation
    with the run cursor on one of the [k] actions. *)
Record runner_ok (o : cmOperation A) (k : nat) : Prop := mk_runner_ok {
  ok_wf : op_wf o;
  ok_le : k <= ACTION_MAX;
  ok_add : add o = if decide (k < ACTION_MAX) then Some k else None;
  ok_func : forall i a, action o !! i = Some a -> (is_Some (func a) <-> i < k);
  ok_run : exists j, run o = Some j /\ if in_operation o then j < k else j = 0
}.

End OperationRunnerUse.

(** ** What the feedhold functions queue

    The action each [switch] of [_initiate_feedhold] and of
    [_initiate_cycle_start] selects. *)
Definition entry_action (type : cmFeedholdType) : action_exec_t :=
  match type with
  | FEEDHOLD_TYPE_ACTIONS => fn_feedhold_with_actions
  | FEEDHOLD_TYPE_NO_ACTIONS => fn_feedhold_with_no_actions
  | FEEDHOLD_TYPE_SYNC => fn_feedhold_with_sync
  end.

Definition final_at_initiation (final : cmFeedholdFinal) : list action_exec_t :=
  match final with
  | FEEDHOLD_FINAL_CYCLE => []
  | FEEDHOLD_FINAL_STOP => [fn_program_stop]
  | FEEDHOLD_FINAL_END => [fn_program_end]
  | FEEDHOLD_FINAL_ALARM => [fn_alarm]
  | FEEDHOLD_FINAL_SHUTDOWN => [fn_shutdown]
  | FEEDHOLD_FINAL_INTERLOCK => [fn_interlock]
  end.

Definition exit_action (type : cmFeedholdType) : list action_exec_t :=
  match type with
  | FEEDHOLD_TYPE_ACTIONS => [fn_feedhold_exit_with_actions]
  | FEEDHOLD_TYPE_NO_ACTIONS => [fn_feedhold_exit_with_no_actions]
  | FEEDHOLD_TYPE_SYNC => []
  end.

Definition final_at_exit (final : cmFeedholdFinal) : action_exec_t :=
  match final with
  | FEEDHOLD_FINAL_CYCLE => fn_cycle_exit
  | FEEDHOLD_FINAL_STOP => fn_program_stop
  | FEEDHOLD_FINAL_END => fn_program_end
  | FEEDHOLD_FINAL_ALARM => fn_alarm
  | FEEDHOLD_FINAL_SHUTDOWN => fn_shutdown
  | FEEDHOLD_FINAL_INTERLOCK => fn_interlock
  end.

(** The actions whose body is [return (STAT_OK);]. *)
Definition is_stub (f : action_exec_t) : bool :=
  match f with
  | fn_feedhold_with_actions | fn_feedhold_exit_with_actions | fn_cycle_exit => false
  | _ => true
  end.

(** ** More worked states

    A hold with actions requested in motion, before the hold point. *)
Definition s_requested : System :=
  Eval vm_compute in
    result_value s_boot
      (cm_request_feedhold FEEDHOLD_TYPE_ACTIONS FEEDHOLD_FINAL_CYCLE s_running).

(** The entry action has run its first step and the planner callback queued
    by it has fired. *)
Definition s_hold_done : System :=
  Eval vm_compute in
    result_value s_boot
      (r <<- tick (upd_world engine_hold_point s_requested) ;;
       Done (upd_world (run_callback fn_feedhold_sync_to_planner) r.2)).

(** A cycle start served in the hold, and the planner callback queued by
    the exit action fired. *)
Definition s_exit_done : System :=
  Eval vm_compute in
    result_value s_boot
      (s <<- _initiate_cycle_start fp_NOT_ZERO_exact _to_inches_mm s_in_hold_val ;;
       Done (upd_world (run_callback fn_feedhold_exit_sync_to_planner) s)).

(** The machine at rest with a hold requested in motion on the primary
    machine, not yet seen by the main loop. *)
Definition s_hold_requested : System :=
  upd_world (upd_cm1 (cmMachine.set_hold_state FEEDHOLD_REQUESTED)) s_running.

(** The primary machine in a hold without actions. *)
Definition s_hold_no_actions : System :=
  upd_world (upd_cm1 (fun c => cmMachine.set_hold_type FEEDHOLD_TYPE_NO_ACTIONS
                                 (cmMachine.set_hold_state FEEDHOLD_HOLD c))) s_boot.

(** Two requests for [add_action], one with a parameter buffer. *)
Definition two_requests : list (action_exec_t * option (list float)) :=
  [(fn_feedhold_with_actions, None); (fn_program_stop, Some params_1234)].

(** A queue of three: the sync-only action, the entry action, and a stop
    with a parameter buffer. *)
Definition three_requests : list (action_exec_t * option (list float)) :=
  [(fn_feedhold_with_sync, None); (fn_feedhold_with_actions, None);
   (fn_program_stop, Some params_1234)].

Definition op_three : cmOperation action_exec_t :=
  Eval vm_compute in
    result_value (op s_boot) (r <<- add_all three_requests (op s_boot) ;; Done r.2).

(** The state [s_twelve] computes: all twelve slots taken. *)
Definition s_twelve_val : System := Eval vm_compute in result_value s_boot s_twelve.

(** * Facts about the operation runner *)
Section OperationRunnerFacts.
Context {W A : Type}.
Variable call : A -> list float -> W -> stat_t * W.

Implicit Types (o : cmOperation A) (a : cmAction A) (l : list (cmAction A)).

Lemma reset_loop_gen_lookup (n : nat) l (i : nat) :
  foldl (fun acc j => alter (reset_slot j) j acc) l (seq 0 n) !! i
  = if decide (i < n) then reset_slot i <$> l !! i else l !! i.
Proof.
  induction n as [|n IH].
  - simpl. destruct (decide (i < 0)); [lia | done].
  - rewrite seq_S, foldl_snoc. simpl.
    destruct (decide (i = n)) as [->|Hne].
    + rewrite list_lookup_alter_eq, IH.
      destruct (decide (n < n)), (decide (n < S n)); try lia. done.
    + rewrite list_lookup_alter_ne by done. rewrite IH.
      destruct (decide (i < n)), (decide (i < S n)); try lia; done.
Qed.

Lemma reset_loop_lookup l (i : nat) :
  reset_loop l !! i
  = if decide (i < ACTION_MAX) then reset_slot i <$> l !! i else l !! i.
Proof. apply reset_loop_gen_lookup. Qed.

Lemma reset_loop_length l : length (reset_loop l) = length l.
Proof.
  unfold reset_loop. generalize (seq 0 ACTION_MAX) as js.
  intros js. revert l. induction js as [|j js IH]; intros l; simpl; [done|].
  rewrite IH. apply length_alter.
Qed.

(** What [reset] leaves in slot [i]. *)
Lemma reset_lookup o (i : nat) a :
  length (action o) = ACTION_MAX ->
  action o !! i = Some a ->
  action (reset o) !! i = Some (mk_cmAction i (link_of i) None (param a)).
Proof.
  intros Hlen Hi.
  assert (i < ACTION_MAX) as Hlt.
  { rewrite <- Hlen. by eapply lookup_lt_Some. }
  unfold reset; simpl action.
  destruct (decide (i = 11)) as [->|Hne].
  - rewrite list_lookup_alter_eq, reset_loop_lookup, Hi.
    by rewrite decide_True by (unfold ACTION_MAX; lia).
  - rewrite list_lookup_alter_ne by done.
    rewrite reset_loop_lookup, Hi, decide_True by done.
    simpl. unfold reset_slot, link_of; simpl.
    rewrite decide_True; [done|]. unfold ACTION_MAX in *. lia.
Qed.

Lemma reset_length o : length (action (reset o)) = length (action o).
Proof. unfold reset; simpl. by rewrite length_alter, reset_loop_length. Qed.

Lemma reset_filled o :
  length (action o) = ACTION_MAX ->
  (forall i a, action o !! i = Some a -> length (param a) = PARAM_MAX) ->
  filled (reset o) 0.
Proof.
  intros Hlen Hpar.
  assert (forall i a', action (reset o) !! i = Some a' ->
            exists a, action o !! i = Some a
                      /\ a' = mk_cmAction i (link_of i) None (param a)) as Hslot.
  { intros i a' Hi.
    assert (i < ACTION_MAX) as Hlt.
    { rewrite <- Hlen, <- reset_length. by eapply lookup_lt_Some. }
    destruct (lookup_lt_is_Some_2 (action o) i) as [a Ha]; [lia|].
    exists a. split; [done|].
    rewrite (reset_lookup o i a Hlen Ha) in Hi. by injection Hi. }
  split; simpl; try done.
  - split; simpl.
    + by rewrite length_alter, reset_loop_length.
    + intros i a' Hi. destruct (Hslot i a' Hi) as (a & _ & ->). done.
    + intros i a' Hi. destruct (Hslot i a' Hi) as (a & Ha & ->). simpl. eauto.
    + intros i Hi. injection Hi as <-. unfold ACTION_MAX; lia.
    + intros i Hi. injection Hi as <-. unfold ACTION_MAX; lia.
  - unfold ACTION_MAX; lia.
  - intros i a' Hi. destruct (Hslot i a' Hi) as (a & _ & ->). simpl.
    split; [intros [? [=]] | lia].
Qed.

(** The copy loop overwrites the whole stored buffer with the caller's. *)
Lemma copy_param_full (dst src : list float) :
  length dst = PARAM_MAX -> length src = PARAM_MAX -> copy_param dst src = src.
Proof.
  intros Hd Hs.
  destruct dst as [|d0 [|d1 [|d2 [|d3 [|]]]]]; try discriminate Hd.
  destruct src as [|s0 [|s1 [|s2 [|s3 [|]]]]]; try discriminate Hs.
  reflexivity.
Qed.

Lemma filled_slot o k :
  filled o k -> k < ACTION_MAX -> exists a, action o !! k = Some a.
Proof.
  intros Hf Hk. apply lookup_lt_is_Some_2.
  rewrite (wf_length _ (filled_wf _ _ Hf)). done.
Qed.

(** A successful [add_action] on a queue of [k] actions: slot [k] gets the
    function and the parameters, the [add] cursor moves on. *)
Lemma add_action_filled o k a (f : A) (prm : option (list float)) :
  filled o k -> k < ACTION_MAX -> action o !! k = Some a ->
  (forall src, prm = Some src -> length src = PARAM_MAX) ->
  let a' := mk_cmAction (number a) (nx a) (Some f)
              (match prm with Some src => src | None => param a end) in
  let o' := mk_cmOperation (<[k := a']> (action o)) (link_of k) (Some 0) false in
  add_action f prm o = Done (STAT_OK, o') /\ filled o' (S k).
Proof.
  intros Hf Hk Ha Hsrc a' o'.
  destruct Hf as [Hwf Hle Hadd Hrun Hidle Hfunc].
  destruct Hwf as [Hlen Hlinks Hpar Hwa Hwr].
  assert (k < length (action o)) as Hkl by (by rewrite Hlen).
  split.
  - unfold add_action. rewrite Hidle, Hadd, decide_True by done.
    simpl. rewrite Ha. simpl. unfold o', a'.
    rewrite (Hlinks k a Ha), Hrun.
    destruct prm as [src|]; [|done].
    by rewrite copy_param_full by eauto.
  - split; simpl.
    + split; simpl.
      * by rewrite length_insert.
      * intros i b Hi. destruct (decide (k = i)) as [<-|Hne].
        -- rewrite list_lookup_insert_eq in Hi by done.
           injection Hi as <-. simpl. eauto.
        -- rewrite list_lookup_insert_ne in Hi by done. eauto.
      * intros i b Hi. destruct (decide (k = i)) as [<-|Hne].
        -- rewrite list_lookup_insert_eq in Hi by done.
           injection Hi as <-. simpl. destruct prm; eauto.
        -- rewrite list_lookup_insert_ne in Hi by done. eauto.
      * unfold link_of. intros i Hi. destruct (decide (S k < ACTION_MAX)); [|done].
        injection Hi as <-. done.
      * intros i Hi. injection Hi as <-. unfold ACTION_MAX; lia.
    + lia.
    + done.
    + done.
    + done.
    + intros i b Hi. destruct (decide (k = i)) as [<-|Hne].
      * rewrite list_lookup_insert_eq in Hi by done.
        injection Hi as <-. simpl. split; [lia | eauto].
      * rewrite list_lookup_insert_ne in Hi by done.
        rewrite (Hfunc i b Hi). lia.
Qed.

Lemma queue_of_cons o (j : nat) a (f : A) :
  action o !! j = Some a -> func a = Some f ->
  queue_of o j = (f, param a) :: queue_of o (S j).
Proof.
  intros Ha Hf. unfold queue_of.
  rewrite (drop_S _ _ _ Ha). simpl. by rewrite Hf.
Qed.

Lemma queue_of_nil o (j : nat) a :
  action o !! j = Some a -> func a = None -> queue_of o j = [].
Proof.
  intros Ha Hf. unfold queue_of.
  rewrite (drop_S _ _ _ Ha). simpl. by rewrite Hf.
Qed.

Lemma queue_of_inv o (j : nat) (f : A) p q :
  queue_of o j = (f, p) :: q ->
  exists a, action o !! j = Some a /\ func a = Some f /\ param a = p
            /\ queue_of o (S j) = q.
Proof.
  intros Hq.
  destruct (action o !! j) as [a|] eqn:Ha.
  - destruct (func a) as [g|] eqn:Hg.
    + rewrite (queue_of_cons o j a g Ha Hg) in Hq.
      injection Hq as Hg' Hp' Hq'. subst g. eauto.
    + by rewrite (queue_of_nil o j a Ha Hg) in Hq.
  - unfold queue_of in Hq.
    rewrite drop_ge in Hq by (by apply lookup_ge_None). done.
Qed.

Lemma reset_set_run o p : reset (set_run p o) = reset o.
Proof. done. Qed.

Lemma set_run_id o : set_run (run o) o = o.
Proof. by destruct o. Qed.

Lemma set_run_wf o (j : nat) : op_wf o -> j < ACTION_MAX -> op_wf (set_run (Some j) o).
Proof.
  intros [Hlen Hlinks Hpar Hwa Hwr] Hj. split; simpl; try done.
  intros i Hi. by injection Hi as <-.
Qed.

(** [run_operation] on an empty run slot. *)
Lemma run_operation_noop o (j : nat) a (w : W) :
  run o = Some j -> action o !! j = Some a -> func a = None ->
  run_operation call o w = Done (STAT_NOOP, o, w).
Proof.
  intros Hr Ha Hf. unfold run_operation, run_operation_fuel, deref.
  rewrite Hr, Ha. simpl. by rewrite Hf.
Qed.

(** The loop of [run_operation] on a queue that ends before the last slot
    of the array: the queued actions run in order, each once, up to the
    first that does not return [STAT_OK]. *)
Lemma run_loop_contract (fuel : nat) o (j : nat) (w : W) :
  op_wf o -> run o = Some j ->
  queue_of o j <> [] ->
  j + length (queue_of o j) < ACTION_MAX ->
  length (queue_of o j) <= fuel ->
  run_loop call fuel o w = Done (after_run o j (run_queue call (queue_of o j) w)).
Proof.
  remember (queue_of o j) as q eqn:Hq.
  revert fuel o j w Hq.
  induction q as [|[f p] q IH]; intros fuel o j w Hq Hwf Hr Hne Hlen Hfuel; [done|].
  symmetry in Hq. destruct (queue_of_inv o j f p q Hq) as (a & Ha & Hf & Hp & Hq').
  simpl in Hlen, Hfuel. destruct fuel as [|fuel]; [lia|].
  simpl. unfold deref at 1. rewrite Hr, Ha. simpl. rewrite Hf, Hp.
  destruct (call f p w) as [status w1].
  destruct status; simpl; try (by rewrite reset_set_run || done).
  - (* STAT_OK: advance *)
    rewrite (wf_links o Hwf j a Ha). unfold link_of.
    rewrite decide_True by lia. unfold deref. simpl.
    destruct (lookup_lt_is_Some_2 (action o) (S j)) as [a' Ha'].
    { rewrite (wf_length o Hwf). lia. }
    rewrite Ha'. simpl.
    destruct (func a') as [g|] eqn:Hg.
    + assert (q <> []) as Hqne.
      { rewrite <- Hq', (queue_of_cons o (S j) a' g Ha' Hg). done. }
      rewrite (IH fuel (set_run (Some (S j)) o) (S j) w1); try done.
      * destruct (run_queue call q w1) as [[n st] w2]. simpl.
        rewrite reset_set_run.
        replace (j + S n) with (S (j + n)) by lia.
        by destruct st.
      * apply set_run_wf; [done | lia].
      * lia.
      * lia.
    + rewrite (queue_of_nil o (S j) a' Ha' Hg) in Hq'. subst q.
      simpl. by rewrite reset_set_run.
  - (* STAT_EAGAIN: stay *)
    rewrite Nat.add_0_r, <- Hr. by rewrite set_run_id.
Qed.

(** The same loop on a queue that fills the array to its last slot, when
    every action returns [STAT_OK]: after the last action [run] is NULL and
    [run->func] dereferences it. *)
Lemma run_loop_overrun (fuel : nat) o (j : nat) (w : W) :
  op_wf o -> run o = Some j ->
  queue_of o j <> [] ->
  j + length (queue_of o j) = ACTION_MAX ->
  length (queue_of o j) <= fuel ->
  (run_queue call (queue_of o j) w).1.2 = STAT_OK ->
  run_loop call fuel o w = Fault.
Proof.
  remember (queue_of o j) as q eqn:Hq.
  revert fuel o j w Hq.
  induction q as [|[f p] q IH]; intros fuel o j w Hq Hwf Hr Hne Hlen Hfuel Hok; [done|].
  symmetry in Hq. destruct (queue_of_inv o j f p q Hq) as (a & Ha & Hf & Hp & Hq').
  simpl in Hlen, Hfuel, Hok. destruct fuel as [|fuel]; [lia|].
  simpl. unfold deref at 1. rewrite Hr, Ha. simpl. rewrite Hf, Hp.
  destruct (call f p w) as [status w1].
  destruct status; simpl in Hok |- *; try discriminate Hok.
  rewrite (wf_links o Hwf j a Ha). unfold link_of.
  destruct (decide (S j < ACTION_MAX)) as [Hlt|Hge]; [|done].
  unfold deref. simpl.
  destruct (lookup_lt_is_Some_2 (action o) (S j)) as [a' Ha'].
  { rewrite (wf_length o Hwf). lia. }
  rewrite Ha'. simpl.
  destruct (func a') as [g|] eqn:Hg.
  - assert (q <> []) as Hqne.
    { rewrite <- Hq', (queue_of_cons o (S j) a' g Ha' Hg). done. }
    apply (IH fuel (set_run (Some (S j)) o) (S j) w1); try done.
    + by apply set_run_wf.
    + lia.
    + lia.
    + by destruct (run_queue call q w1) as [[n st] w2].
  - rewrite (queue_of_nil o (S j) a' Ha' Hg) in Hq'. subst q.
    simpl in Hlen. lia.
Qed.

Lemma queue_of_length o (j k : nat) :
  (forall i a, action o !! i = Some a -> j <= i -> (is_Some (func a) <-> i < k)) ->
  j <= k -> k <= length (action o) ->
  length (queue_of o j) = k - j.
Proof.
  remember (k - j) as d eqn:Hd. revert j Hd.
  induction d as [|d IH]; intros j Hd Hfunc Hjk Hk.
  - assert (j = k) as -> by lia.
    destruct (action o !! k) as [a|] eqn:Ha.
    + destruct (func a) as [f|] eqn:Hf.
      * assert (k < k); [|lia]. apply (Hfunc k a Ha); [lia | eauto].
      * by rewrite (queue_of_nil o k a Ha Hf).
    + unfold queue_of. rewrite drop_ge by (by apply lookup_ge_None). done.
  - destruct (lookup_lt_is_Some_2 (action o) j) as [a Ha]; [lia|].
    destruct (func a) as [f|] eqn:Hf.
    + rewrite (queue_of_cons o j a f Ha Hf). simpl.
      rewrite (IH (S j)); [done | lia | | lia | done].
      intros i b Hi Hle. apply Hfunc; [done | lia].
    + assert (is_Some (func a)) as [g Hg]; [|congruence].
      apply (Hfunc j a Ha); lia.
Qed.

Lemma filled_queue_length o (k : nat) : filled o k -> length (queue_of o 0) = k.
Proof.
  intros Hf. rewrite (queue_of_length o 0 k); [lia | | lia |].
  - intros i a Hi _. by apply (filled_func o k Hf).
  - rewrite (wf_length o (filled_wf o k Hf)). apply (filled_le o k Hf).
Qed.

Lemma set_in_operation_wf o b : op_wf o -> op_wf (set_in_operation b o).
Proof. intros [Hlen Hlinks Hpar Hwa Hwr]. by split. Qed.

(** [run_operation] on a queue of [k] actions, [0 < k < ACTION_MAX]. *)
Lemma run_operation_filled o (k : nat) (w : W) :
  filled o k -> 0 < k -> k < ACTION_MAX ->
  run_operation call o w
  = Done (after_run (set_in_operation true o) 0 (run_queue call (queue_of o 0) w)).
Proof.
  intros Hf Hk0 Hk.
  pose proof (filled_queue_length o k Hf) as Hlen.
  pose proof (filled_wf o k Hf) as Hwf.
  destruct (lookup_lt_is_Some_2 (action o) 0) as [a Ha].
  { rewrite (wf_length o Hwf). unfold ACTION_MAX. lia. }
  assert (is_Some (func a)) as [f Hfa].
  { by apply (filled_func o k Hf 0 a Ha). }
  unfold run_operation, run_operation_fuel, deref.
  rewrite (filled_run o k Hf), Ha. unfold rbind. rewrite Hfa.
  change (queue_of o 0) with (queue_of (set_in_operation true o) 0).
  apply run_loop_contract.
  - by apply set_in_operation_wf.
  - apply (filled_run o k Hf).
  - change (queue_of (set_in_operation true o) 0) with (queue_of o 0).
    intros Hnil. rewrite Hnil in Hlen. simpl in Hlen. lia.
  - change (queue_of (set_in_operation true o) 0) with (queue_of o 0). lia.
  - change (queue_of (set_in_operation true o) 0) with (queue_of o 0). lia.
Qed.

(** [run_operation] on a full queue whose actions all return [STAT_OK]. *)
Lemma run_operation_full o (w : W) :
  filled o ACTION_MAX ->
  (run_queue call (queue_of o 0) w).1.2 = STAT_OK ->
  run_operation call o w = Fault.
Proof.
  intros Hf Hok.
  pose proof (filled_queue_length o _ Hf) as Hlen.
  pose proof (filled_wf o _ Hf) as Hwf.
  destruct (lookup_lt_is_Some_2 (action o) 0) as [a Ha].
  { rewrite (wf_length o Hwf). unfold ACTION_MAX. lia. }
  assert (is_Some (func a)) as [f Hfa].
  { apply (filled_func o _ Hf 0 a Ha). unfold ACTION_MAX. lia. }
  unfold run_operation, run_operation_fuel, deref.
  rewrite (filled_run o _ Hf), Ha. unfold rbind. rewrite Hfa.
  apply (run_loop_overrun ACTION_MAX (set_in_operation true o) 0 w).
  - by apply set_in_operation_wf.
  - apply (filled_run o _ Hf).
  - change (queue_of (set_in_operation true o) 0) with (queue_of o 0).
    intros Hnil. rewrite Hnil in Hlen. discriminate Hlen.
  - change (queue_of (set_in_operation true o) 0) with (queue_of o 0). lia.
  - change (queue_of (set_in_operation true o) 0) with (queue_of o 0). lia.
  - done.
Qed.

(** More fuel does not change a result that was reached. *)
Lemma run_loop_fuel_mono (fuel fuel' : nat) o (w : W) r :
  run_loop call fuel o w = r -> r <> OutOfFuel -> fuel <= fuel' ->
  run_loop call fuel' o w = r.
Proof.
  revert fuel' o w r.
  induction fuel as [|fuel IH]; intros fuel' o w r Hrun Hr Hle.
  - simpl in Hrun. congruence.
  - destruct fuel' as [|fuel']; [lia|].
    simpl in Hrun |- *.
    destruct (deref o (run o)) as [a| |]; simpl in *; try done.
    destruct (func a) as [f|]; try done.
    destruct (call f (param a) w) as [st w1].
    destruct st; try done.
    destruct (deref (set_run (nx a) o) (nx a)) as [a'| |]; simpl in *; try done.
    destruct (func a'); try done.
    apply (IH fuel'); [done | done | lia].
Qed.

(** On a well-formed runner the loop makes at most [ACTION_MAX - j] calls:
    the fuel of [run_operation] is never the reason it stops. *)
Lemma run_loop_fuel (fuel : nat) o (j : nat) (w : W) :
  op_wf o -> run o = Some j -> ACTION_MAX <= j + fuel ->
  run_loop call fuel o w <> OutOfFuel.
Proof.
  revert o j w.
  induction fuel as [|fuel IH]; intros o j w Hwf Hr Hle.
  - pose proof (wf_run o Hwf j Hr). lia.
  - simpl. unfold deref at 1. rewrite Hr.
    destruct (action o !! j) as [a|] eqn:Ha; simpl; [|done].
    destruct (func a) as [f|]; [|done].
    destruct (call f (param a) w) as [st w1].
    destruct st; try done.
    rewrite (wf_links o Hwf j a Ha). unfold link_of.
    destruct (decide (S j < ACTION_MAX)) as [Hlt|Hge]; [|done].
    unfold deref; simpl.
    destruct (action o !! S j) as [a'|]; simpl; [|done].
    destruct (func a'); [|done].
    apply (IH _ (S j)); [by apply set_run_wf | done | lia].
Qed.


(** C9, as the code has it.  [add_action] rejects while an operation is
    running; on an idle runner whose twelve slots are all taken it reports
    that capacity is exceeded; otherwise it puts the function in the next
    free slot, copies the caller's four parameters into the slot when a
    buffer is supplied and leaves the slot's stored parameters as they are
    when none is, moves the [add] cursor on, and returns [STAT_OK]. *)
Theorem add_action_contract o (f : A) (prm : option (list float)) :
  (forall src, prm = Some src -> length src = PARAM_MAX) ->
  (in_operation o = true ->
     add_action f prm o = Done (STAT_COMMAND_NOT_ACCEPTED, o))
  /\ (filled o ACTION_MAX ->
     add_action f prm o = Done (STAT_INPUT_EXCEEDS_MAX_LENGTH, o))
  /\ (forall k a, filled o k -> k < ACTION_MAX -> action o !! k = Some a ->
        let a' := mk_cmAction (number a) (nx a) (Some f)
                    (match prm with Some src => src | None => param a end) in
        let o' := mk_cmOperation (<[k := a']> (action o)) (link_of k) (Some 0) false in
        add_action f prm o = Done (STAT_OK, o') /\ filled o' (S k)).
Proof.
  intros Hsrc. split; [|split].
  - intros Hin. unfold add_action. by rewrite Hin.
  - intros Hf. unfold add_action.
    rewrite (filled_idle o _ Hf), (filled_add o _ Hf).
    rewrite decide_False by lia. done.
  - intros k a Hf Hk Ha. by apply add_action_filled.
Qed.

(** [add_action] on a well-formed runner returns, and keeps it well
    formed. *)
Lemma add_action_total o (f : A) :
  op_wf o ->
  exists st o', add_action f None o = Done (st, o') /\ op_wf o'
                /\ in_operation o' = in_operation o.
Proof.
  intros Hwf. unfold add_action.
  destruct (in_operation o) eqn:Hin; [by eauto|].
  destruct (add o) as [i|] eqn:Hadd; [|by eauto].
  pose proof (wf_add o Hwf i Hadd) as Hi.
  destruct (lookup_lt_is_Some_2 (action o) i) as [a Ha].
  { by rewrite (wf_length o Hwf). }
  simpl. rewrite Ha. simpl. eexists _, _. split; [done|]. split; [|done].
  destruct Hwf as [Hlen Hlinks Hpar Hwa Hwr].
  assert (i < length (action o)) as Hil by (by rewrite Hlen).
  split; simpl.
  - by rewrite length_insert.
  - intros j b Hj. destruct (decide (i = j)) as [<-|Hne].
    + rewrite list_lookup_insert_eq in Hj by done. injection Hj as <-. simpl. eauto.
    + rewrite list_lookup_insert_ne in Hj by done. eauto.
  - intros j b Hj. destruct (decide (i = j)) as [<-|Hne].
    + rewrite list_lookup_insert_eq in Hj by done. injection Hj as <-. simpl. eauto.
    + rewrite list_lookup_insert_ne in Hj by done. eauto.
  - intros j Hj. rewrite (Hlinks i a Ha) in Hj. unfold link_of in Hj.
    destruct (decide (S i < ACTION_MAX)); [|done]. by injection Hj as <-.
  - done.
Qed.

(** Slots that [add_action] leaves hold the new function or an old one. *)
Lemma add_action_funcs (Q : A -> Prop) o (f : A) prm st o' :
  Q f ->
  (forall i a g, action o !! i = Some a -> func a = Some g -> Q g) ->
  add_action f prm o = Done (st, o') ->
  forall i a g, action o' !! i = Some a -> func a = Some g -> Q g.
Proof.
  intros HQ Hall. unfold add_action.
  destruct (in_operation o); [intros [= <- <-]; done|].
  destruct (add o) as [k|]; [|intros [= <- <-]; done].
  simpl. destruct (action o !! k) as [b|] eqn:Hb; simpl; [|done].
  intros [= <- <-] i a g Hi Hg. simpl in Hi.
  destruct (decide (k = i)) as [<-|Hne].
  - rewrite list_lookup_insert_eq in Hi by (by eapply lookup_lt_Some).
    injection Hi as <-. simpl in Hg. by injection Hg as <-.
  - rewrite list_lookup_insert_ne in Hi by done. eauto.
Qed.

Lemma reset_funcs o (i : nat) a' (f : A) :
  action (reset o) !! i = Some a' -> func a' = Some f ->
  exists a, action o !! i = Some a /\ func a = Some f.
Proof.
  unfold reset; simpl. intros Hi Hf.
  assert (exists b, reset_loop (action o) !! i = Some b /\ func b = Some f) as (b & Hb & Hfb).
  { change (ACTION_MAX - 1) with 11 in Hi.
    destruct (decide (i = 11)) as [->|Hne].
    - rewrite list_lookup_alter_eq in Hi.
      destruct (reset_loop (action o) !! 11) as [b|]; [|done].
      injection Hi as <-. eauto.
    - rewrite list_lookup_alter_ne in Hi by done. eauto. }
  rewrite reset_loop_lookup in Hb.
  destruct (decide (i < ACTION_MAX)).
  - destruct (action o !! i) as [a|]; [|done]. injection Hb as <-. done.
  - eauto.
Qed.

Lemma reset_wf o : op_wf o -> op_wf (reset o).
Proof.
  intros Hwf. apply (filled_wf _ 0). apply reset_filled.
  - apply (wf_length o Hwf).
  - apply (wf_params o Hwf).
Qed.

(** An invariant [P] of the world that every queued action keeps is kept
    by the loop, and so is a property [Q] of the queued functions. *)
Lemma run_loop_invariant (P : W -> Prop) (Q : A -> Prop) (fuel : nat) o w st o' w' :
  (forall f p w0, Q f -> P w0 -> P (call f p w0).2) ->
  (forall i a g, action o !! i = Some a -> func a = Some g -> Q g) ->
  P w -> op_wf o ->
  run_loop call fuel o w = Done (st, o', w') ->
  P w' /\ op_wf o'
  /\ (forall i a g, action o' !! i = Some a -> func a = Some g -> Q g).
Proof.
  intros Hcall. revert o w.
  induction fuel as [|fuel IH]; intros o w Hall HP Hwf Hrun; [done|].
  simpl in Hrun. unfold deref at 1 in Hrun.
  destruct (run o) as [j|] eqn:Hr; [|done].
  destruct (action o !! j) as [a|] eqn:Ha; [|done].
  simpl in Hrun. destruct (func a) as [f|] eqn:Hf; [|done].
  pose proof (Hcall f (param a) w (Hall j a f Ha Hf) HP) as HP1.
  destruct (call f (param a) w) as [st1 w1]. simpl in HP1.
  assert (forall i b g, action (reset o) !! i = Some b -> func b = Some g -> Q g) as Hreset.
  { intros i b g Hi Hg. destruct (reset_funcs o i b g Hi Hg) as (c & Hc & Hgc). eauto. }
  destruct st1; try (injection Hrun as <- <- <-; auto using reset_wf).
  rewrite (wf_links o Hwf j a Ha) in Hrun. unfold link_of in Hrun.
  destruct (decide (S j < ACTION_MAX)) as [Hlt|]; [|done].
  unfold deref in Hrun. simpl in Hrun.
  destruct (action o !! S j) as [a'|] eqn:Ha'; [|done].
  simpl in Hrun. destruct (func a') as [g|].
  - apply (IH (set_run (Some (S j)) o) w1); try done. by apply set_run_wf.
  - injection Hrun as <- <- <-. rewrite reset_set_run. auto using reset_wf.
Qed.

Lemma run_operation_invariant (P : W -> Prop) (Q : A -> Prop) o w st o' w' :
  (forall f p w0, Q f -> P w0 -> P (call f p w0).2) ->
  (forall i a g, action o !! i = Some a -> func a = Some g -> Q g) ->
  P w -> op_wf o ->
  run_operation call o w = Done (st, o', w') ->
  P w' /\ op_wf o'
  /\ (forall i a g, action o' !! i = Some a -> func a = Some g -> Q g).
Proof.
  intros Hcall Hall HP Hwf. unfold run_operation, run_operation_fuel.
  destruct (deref o (run o)) as [a| |]; simpl; try done.
  destruct (func a).
  - intros Hrun.
    apply (run_loop_invariant P Q ACTION_MAX (set_in_operation true o) w st o' w');
      try done.
    by apply set_in_operation_wf.
  - by intros [= <- <- <-].
Qed.

Lemma queue_of_drop o (j n : nat) :
  n <= length (queue_of o j) -> queue_of o (j + n) = drop n (queue_of o j).
Proof.
  revert j. induction n as [|n IH]; intros j Hn.
  - by rewrite Nat.add_0_r, drop_0.
  - destruct (queue_of o j) as [|[f p] q] eqn:Hq; [simpl in Hn; lia|].
    destruct (queue_of_inv o j f p q Hq) as (a & _ & _ & _ & Hq').
    simpl in Hn |- *. rewrite <- Hq'.
    replace (j + S n) with (S j + n) by lia.
    apply IH. rewrite Hq'. lia.
Qed.

Lemma run_queue_count (q : list (A * list float)) (w : W) n st w' :
  run_queue call q w = (n, st, w') ->
  n <= length q /\ (st <> STAT_OK -> n < length q).
Proof.
  revert w n st w'. induction q as [|[f p] q IH]; intros w n st w'; simpl.
  - intros [= <- <- <-]. split; [lia | done].
  - destruct (call f p w) as [st1 w1].
    destruct st1; try (intros [= <- <- <-]; split; intros; lia).
    destruct (run_queue call q w1) as [[n1 st2] w2] eqn:Hq.
    intros [= <- <- <-]. destruct (IH w1 n1 st2 w2 Hq) as [H1 H2].
    split; [lia|]. intros Hst. specialize (H2 Hst). lia.
Qed.

(** An action that returns [STAT_EAGAIN] is called again by the next
    [run_operation] with the parameters it was called with: the runner is
    left with the run cursor on its slot and the slots untouched. *)
Lemma run_loop_continue (fuel : nat) o (j : nat) (w : W) n w' :
  op_wf o -> run o = Some j ->
  queue_of o j <> [] ->
  j + length (queue_of o j) < ACTION_MAX ->
  length (queue_of o j) <= fuel ->
  run_queue call (queue_of o j) w = (n, STAT_EAGAIN, w') ->
  let o' := set_run (Some (j + n)) o in
  run_loop call fuel o w = Done (STAT_EAGAIN, o', w')
  /\ action o' = action o
  /\ n < length (queue_of o j)
  /\ queue_of o' (j + n) = drop n (queue_of o j).
Proof.
  intros Hwf Hr Hne Hlen Hfuel Hq o'.
  destruct (run_queue_count _ _ _ _ _ Hq) as [Hle Hlt].
  split; [|split; [done|split; [by apply Hlt|]]].
  - rewrite (run_loop_contract fuel o j w Hwf Hr Hne Hlen Hfuel), Hq. done.
  - by apply (queue_of_drop o j n).
Qed.

End OperationRunnerFacts.

(** * Facts about the feedhold functions *)
Section FeedholdFacts.
Variable fp_NOT_ZERO : float -> bool.
Variable _to_inches : cmMachine.t -> float -> float.

Implicit Types (w : World) (s : System) (prm : list float).

(** C10.  The command blocker returns [STAT_EAGAIN] exactly when the
    primary hold state is not [FEEDHOLD_OFF] and [STAT_OK] otherwise;
    [cm_has_hold] is true under the same condition; a hold that is only
    requested already blocks and reports; neither changes the world. *)
Theorem hold_observers w :
  ((cm_feedhold_command_blocker w).1 = STAT_EAGAIN
     <-> cmMachine.hold_state (cm1 w) <> FEEDHOLD_OFF)
  /\ ((cm_feedhold_command_blocker w).1 = STAT_OK
     <-> cmMachine.hold_state (cm1 w) = FEEDHOLD_OFF)
  /\ ((cm_has_hold w).1 = true <-> cmMachine.hold_state (cm1 w) <> FEEDHOLD_OFF)
  /\ (cm_feedhold_command_blocker w).2 = w
  /\ (cm_has_hold w).2 = w
  /\ (let w' := upd_cm1 (cmMachine.set_hold_state FEEDHOLD_REQUESTED) w in
      (cm_feedhold_command_blocker w').1 = STAT_EAGAIN /\ (cm_has_hold w').1 = true).
Proof.
  unfold cm_feedhold_command_blocker, cm_has_hold. simpl.
  destruct (cmMachine.hold_state (cm1 w)) eqn:Hs; simpl;
    repeat split; intros; try done.
Qed.








(** C2.  First invocation in the primary context with the primary hold
    state HoldActionStart: the action switches to the secondary context,
    issues the Z lift as an incremental traverse when the configured lift
    is not zero and then restores the primary's distance mode, requests
    spindle and coolant pause, queues [_feedhold_sync_to_planner], leaves
    the primary hold state HoldPending and returns Continue.  The queued
    callback sets the primary hold state HoldDone and requests an immediate
    status report.  While HoldPending the action returns Continue and
    changes nothing; at HoldDone it sets Hold and returns Complete. *)
Theorem feedhold_with_actions_entry prm w :
  (cm w = addr_cm1 ->
   cmMachine.hold_state (cm1 w) = FEEDHOLD_HOLD_ACTION_START ->
   let lift := cmMachine.feedhold_z_lift (cm1 w) in
   let prior := GCodeState.distance_mode (cmMachine.gm (cm1 w)) in
   let r := _feedhold_with_actions fp_NOT_ZERO _to_inches prm w in
   r.1 = STAT_EAGAIN
   /\ cmMachine.hold_state (cm1 r.2) = FEEDHOLD_HOLD_PENDING
   /\ cm r.2 = addr_cm2 /\ mp r.2 = addr_mp2
   /\ cmMachine.hold_state (cm2 r.2) = FEEDHOLD_OFF
   /\ GCodeState.distance_mode (cmMachine.gm (cm2 r.2)) = prior
   /\ exists c,
        GCodeState.distance_mode (cmMachine.gm c) = INCREMENTAL_DISTANCE_MODE
        /\ trace r.2
           = trace w
             ++ [call_planner_reset addr_mp2; call_cm_set_g30_position]
             ++ (if fp_NOT_ZERO lift
                 then [call_cm_set_distance_mode INCREMENTAL_DISTANCE_MODE;
                       call_cm_straight_traverse
                         [fzero; fzero; _to_inches c lift; fzero; fzero; fzero]
                         [false; false; true; false; false; false]
                         PROFILE_NORMAL;
                       call_cm_set_distance_mode prior]
                 else [])
             ++ [call_spindle_control_sync SPINDLE_PAUSE;
                 call_coolant_control_sync COOLANT_PAUSE COOLANT_BOTH;
                 call_mp_queue_command fn_feedhold_sync_to_planner])
  /\ (let w' := run_callback fn_feedhold_sync_to_planner w in
      cm1 w' = cmMachine.set_hold_state FEEDHOLD_HOLD_DONE (cm1 w)
      /\ trace w' = trace w ++ [call_sr_request_status_report SR_REQUEST_IMMEDIATE]
      /\ cm2 w' = cm2 w /\ cm w' = cm w /\ mp w' = mp w /\ mr w' = mr w)
  /\ (cmMachine.hold_state (cm1 w) = FEEDHOLD_HOLD_PENDING ->
      _feedhold_with_actions fp_NOT_ZERO _to_inches prm w = (STAT_EAGAIN, w))
  /\ (cmMachine.hold_state (cm1 w) = FEEDHOLD_HOLD_DONE ->
      _feedhold_with_actions fp_NOT_ZERO _to_inches prm w
      = (STAT_OK, upd_cm1 (cmMachine.set_hold_state FEEDHOLD_HOLD) w)).
Proof.
  split; [|split; [|split]].
  - intros Hc Hs. unfold _feedhold_with_actions. rewrite Hs. simpl.
    unfold z_lift, upd_cm. rewrite Hc. simpl.
    destruct (fp_NOT_ZERO (cmMachine.feedhold_z_lift (cm1 w))) eqn:Hz; simpl.
    + repeat split.
      eexists. split; [|rewrite <- !app_assoc; simpl; reflexivity]. done.
    + repeat split.
      exists (upd_gm (GCodeState.set_distance_mode INCREMENTAL_DISTANCE_MODE) (cm1 w)).
      split; [done|]. by rewrite <- !app_assoc.
  - repeat split.
  - intros Hs. unfold _feedhold_with_actions. by rewrite Hs.
  - intros Hs. unfold _feedhold_with_actions. by rewrite Hs.
Qed.

Lemma ticks_S (n : nat) s :
  ticks fp_NOT_ZERO _to_inches (S n) s
  = (r <<- cm_operation_sequencing_callback fp_NOT_ZERO _to_inches s ;;
     ticks fp_NOT_ZERO _to_inches n r.2).
Proof. reflexivity. Qed.

(** Completion of the exit action after a flush was run: the handles go
    back to the primary objects, the primary planner's recorded position
    is reconciled with the runtime's, the flush state is cleared. *)
Lemma feedhold_exit_reconciles prm w :
  cmMachine.hold_state (cm1 w) = FEEDHOLD_HOLD_EXIT_DONE ->
  cmMachine.flush_state (cm1 w) = FLUSH_WAS_RUN ->
  cmMachine.mp (cm1 w) = addr_mp1 ->
  mpPlanner.mr (mp1 w) = addr_mr1 ->
  let r := _feedhold_exit_with_actions prm w in
  r.1 = STAT_OK
  /\ cm r.2 = addr_cm1
  /\ cmMachine.flush_state (cm1 r.2) = FLUSH_OFF
  /\ mpPlanner.position (mp1 r.2) = mpPlannerRuntime.position (mr1 w)
  /\ trace r.2 = trace w ++ [call_cm_reset_position_to_absolute_position addr_cm1].
Proof.
  intros Hs Hfl Hmp Hmr. unfold _feedhold_exit_with_actions.
  rewrite Hs. simpl. rewrite Hfl. simpl.
  unfold cm_reset_position_to_absolute_position. simpl.
  rewrite Hmp. simpl. rewrite Hmr. repeat split.
Qed.

Lemma op_add_action_filled s (k : nat) a (f : action_exec_t) :
  filled (op s) k -> k < ACTION_MAX -> action (op s) !! k = Some a ->
  let o' := mk_cmOperation
              (<[k := mk_cmAction (number a) (nx a) (Some f) (param a)]> (action (op s)))
              (link_of k) (Some 0) false in
  op_add_action f s = Done (mk_System (world s) o') /\ filled o' (S k).
Proof.
  intros Hf Hk Ha o'.
  destruct (add_action_filled (op s) k a f None Hf Hk Ha) as [Hadd Hf']; [done|].
  split; [|exact Hf'].
  unfold op_add_action. rewrite Hadd. reflexivity.
Qed.




(** *** A request made while the context is not in motion *)

Lemma actions_primary_waiting (f : action_exec_t) prm w :
  f <> fn_cycle_exit -> primary_waiting w ->
  primary_waiting (exec_action fp_NOT_ZERO _to_inches f prm w).2.
Proof.
  intros Hf [Hs Hm]. destruct f; try done; simpl.
  - unfold _feedhold_with_actions. rewrite Hs. simpl. done.
  - unfold _feedhold_exit_with_actions. rewrite Hs. simpl. done.
Qed.

Lemma actions_secondary_waiting (f : action_exec_t) prm w :
  secondary_waiting w ->
  secondary_waiting (exec_action fp_NOT_ZERO _to_inches f prm w).2.
Proof.
  intros (Hs & Hm & H1). destruct f; try done; simpl.
  - unfold _feedhold_with_actions.
    rewrite (bool_decide_false _ H1).
    repeat case_bool_decide; simpl; try done.
  - unfold _feedhold_exit_with_actions.
    repeat case_bool_decide; simpl; try done;
      unfold secondary_waiting, cm_reset_position_to_absolute_position; simpl;
      destruct (cmMachine.mp (cm1 w)); simpl; repeat split; try done; congruence.
  - unfold _cycle_exit. destruct (mp_has_runnable_buffer addr_mp1 w); done.
Qed.

Lemma op_add_action_total (Q : action_exec_t -> Prop) (f : action_exec_t) s :
  op_wf (op s) -> Q f ->
  (forall i a g, action (op s) !! i = Some a -> func a = Some g -> Q g) ->
  exists s', op_add_action f s = Done s' /\ world s' = world s /\ op_wf (op s')
             /\ (forall i a g, action (op s') !! i = Some a -> func a = Some g -> Q g).
Proof.
  intros Hwf HQ Hall.
  destruct (add_action_total (op s) f Hwf) as (st & o' & Hadd & Hwf' & _).
  exists (mk_System (world s) o'). unfold op_add_action. rewrite Hadd. simpl.
  split; [done|]. split; [done|]. split; [done|].
  by apply (add_action_funcs Q (op s) f None st o').
Qed.

Lemma op_run_operation_invariant (P : World -> Prop) (Q : action_exec_t -> Prop) s st s' :
  (forall f p w0, Q f -> P w0 -> P (exec_action fp_NOT_ZERO _to_inches f p w0).2) ->
  (forall i a g, action (op s) !! i = Some a -> func a = Some g -> Q g) ->
  P (world s) -> op_wf (op s) ->
  op_run_operation fp_NOT_ZERO _to_inches s = Done (st, s') ->
  P (world s') /\ op_wf (op s')
  /\ (forall i a g, action (op s') !! i = Some a -> func a = Some g -> Q g).
Proof.
  intros Hcall Hall HP Hwf. unfold op_run_operation.
  destruct (run_operation _ (op s) (world s)) as [[[st1 o1] w1]| |] eqn:Hrun;
    simpl; try done.
  intros [= <- <-]. simpl.
  by apply (run_operation_invariant (exec_action fp_NOT_ZERO _to_inches)
              P Q (op s) (world s) st1 o1 w1).
Qed.

Lemma queue_flush_primary_waiting w :
  primary_waiting w -> primary_waiting (_initiate_queue_flush w).
Proof.
  unfold primary_waiting, _initiate_queue_flush, cm_queue_flush.
  destruct (cm w); simpl.
  - destruct (cmMachine.mp (cm1 w)); done.
  - destruct (cmMachine.mp (cm2 w)); done.
Qed.

Lemma queue_flush_secondary_waiting w :
  secondary_waiting w -> secondary_waiting (_initiate_queue_flush w).
Proof.
  unfold secondary_waiting, _initiate_queue_flush, cm_queue_flush.
  destruct (cm w); simpl.
  - destruct (cmMachine.mp (cm1 w)); done.
  - destruct (cmMachine.mp (cm2 w)); done.
Qed.

Lemma initiate_feedhold_primary_waiting s :
  primary_waiting (world s) -> op_wf (op s) -> no_cycle_exit (op s) ->
  exists s', _initiate_feedhold s = Done s'
             /\ primary_waiting (world s') /\ op_wf (op s') /\ no_cycle_exit (op s')
             /\ trace (world s') = trace (world s)
             /\ cm (world s') = cm (world s).
Proof.
  intros [Hs Hm] Hwf Hno. unfold _initiate_feedhold.
  rewrite (bool_decide_false _ Hm), andb_false_r.
  destruct (bool_decide (cmMachine.hold_state (cm2 (world s)) = FEEDHOLD_REQUESTED)
            && bool_decide (cmMachine.motion_state (cm2 (world s)) = MOTION_RUN)).
  - destruct (op_add_action_total (fun g => g <> fn_cycle_exit) fn_feedhold_with_sync s)
      as (s' & Hadd & Hw & Hwf' & Hno'); try done.
    rewrite Hadd. simpl. eexists. split; [done|]. simpl. rewrite Hw. done.
  - exists s. unfold primary_waiting. done.
Qed.

Lemma initiate_feedhold_secondary_waiting s :
  secondary_waiting (world s) -> op_wf (op s) ->
  exists s', _initiate_feedhold s = Done s'
             /\ secondary_waiting (world s') /\ op_wf (op s')
             /\ trace (world s') = trace (world s)
             /\ cm (world s') = cm (world s).
Proof.
  intros (Hs & Hm & H1) Hwf. unfold _initiate_feedhold.
  assert (forall f s0, op_wf (op s0) ->
            exists s', op_add_action f s0 = Done s' /\ world s' = world s0 /\ op_wf (op s'))
    as Hadd.
  { intros f s0 Hwf0.
    destruct (op_add_action_total (fun _ => True) f s0) as (s' & ? & ? & ? & _); eauto. }
  destruct (bool_decide (cmMachine.hold_state (cm1 (world s)) = FEEDHOLD_REQUESTED)
            && bool_decide (cmMachine.motion_state (cm1 (world s)) = MOTION_RUN)).
  - assert (exists s1, match cmMachine.hold_type (cm1 (world s)) with
                       | FEEDHOLD_TYPE_ACTIONS => op_add_action fn_feedhold_with_actions s
                       | FEEDHOLD_TYPE_NO_ACTIONS => op_add_action fn_feedhold_with_no_actions s
                       | FEEDHOLD_TYPE_SYNC => op_add_action fn_feedhold_with_sync s
                       end = Done s1 /\ world s1 = world s /\ op_wf (op s1))
      as (s1 & -> & Hw1 & Hwf1).
    { destruct (cmMachine.hold_type (cm1 (world s))); by apply Hadd. }
    simpl.
    assert (exists s2, match cmMachine.hold_final (cm1 (world s1)) with
                       | FEEDHOLD_FINAL_STOP => op_add_action fn_program_stop s1
                       | FEEDHOLD_FINAL_END => op_add_action fn_program_end s1
                       | FEEDHOLD_FINAL_ALARM => op_add_action fn_alarm s1
                       | FEEDHOLD_FINAL_SHUTDOWN => op_add_action fn_shutdown s1
                       | FEEDHOLD_FINAL_INTERLOCK => op_add_action fn_interlock s1
                       | FEEDHOLD_FINAL_CYCLE => Done s1
                       end = Done s2 /\ world s2 = world s1 /\ op_wf (op s2))
      as (s2 & -> & Hw2 & Hwf2).
    { destruct (cmMachine.hold_final (cm1 (world s1))); try by apply Hadd. eauto. }
    simpl. eexists. split; [done|]. simpl. rewrite Hw2, Hw1.
    unfold secondary_waiting. simpl. done.
  - rewrite (bool_decide_false _ Hm), andb_false_r.
    exists s. unfold secondary_waiting. done.
Qed.

Lemma initiate_cycle_start_primary_waiting s s' :
  primary_waiting (world s) -> op_wf (op s) -> no_cycle_exit (op s) ->
  _initiate_cycle_start fp_NOT_ZERO _to_inches s = Done s' ->
  primary_waiting (world s') /\ op_wf (op s') /\ no_cycle_exit (op s').
Proof.
  intros HP Hwf Hno. pose proof HP as [Hs Hm]. unfold _initiate_cycle_start.
  rewrite Hs. simpl.
  destruct (op_run_operation fp_NOT_ZERO _to_inches s) as [[st s1]| |] eqn:Hrun;
    simpl; try done.
  intros [= <-].
  apply (op_run_operation_invariant primary_waiting (fun g => g <> fn_cycle_exit) s st s1);
    try done.
  intros f p w0 Hf Hw0. by apply actions_primary_waiting.
Qed.

Lemma initiate_cycle_start_secondary_waiting s s' :
  secondary_waiting (world s) -> op_wf (op s) ->
  _initiate_cycle_start fp_NOT_ZERO _to_inches s = Done s' ->
  secondary_waiting (world s') /\ op_wf (op s').
Proof.
  intros HP Hwf. unfold _initiate_cycle_start.
  destruct (bool_decide (cmMachine.hold_state (cm1 (world s)) = FEEDHOLD_OFF)).
  { intros [= <-]. done. }
  assert (forall f s0, op_wf (op s0) ->
            exists s', op_add_action f s0 = Done s' /\ world s' = world s0 /\ op_wf (op s'))
    as Hadd.
  { intros f s0 Hwf0.
    destruct (op_add_action_total (fun _ => True) f s0) as (s2 & ? & ? & ? & _); eauto. }
  set (inner := if bool_decide (cmMachine.hold_state (cm1 (world s)) = FEEDHOLD_HOLD)
                then _ else _).
  assert (exists s1, inner = Done s1 /\ world s1 = world s /\ op_wf (op s1))
    as (s1 & -> & Hw1 & Hwf1).
  { unfold inner.
    destruct (bool_decide (cmMachine.hold_state (cm1 (world s)) = FEEDHOLD_HOLD));
      [|by eauto].
    assert (exists s1, match cmMachine.hold_type (cm1 (world s)) with
                       | FEEDHOLD_TYPE_ACTIONS => op_add_action fn_feedhold_exit_with_actions s
                       | FEEDHOLD_TYPE_NO_ACTIONS => op_add_action fn_feedhold_exit_with_no_actions s
                       | FEEDHOLD_TYPE_SYNC => Done s
                       end = Done s1 /\ world s1 = world s /\ op_wf (op s1))
      as (s1 & -> & Hw1 & Hwf1).
    { destruct (cmMachine.hold_type (cm1 (world s))); try by apply Hadd. eauto. }
    simpl.
    assert (forall f, exists s3, op_add_action f s1 = Done s3
                                 /\ world s3 = world s /\ op_wf (op s3)) as Hadd1.
    { intros f. destruct (Hadd f s1 Hwf1) as (s3 & H3 & H4 & H5).
      exists s3. rewrite H4, Hw1. done. }
    destruct (cmMachine.hold_final (cm1 (world s1))); apply Hadd1. }
  simpl.
  destruct (op_run_operation fp_NOT_ZERO _to_inches s1) as [[st s2]| |] eqn:Hrun;
    simpl; try done.
  intros [= <-].
  destruct (op_run_operation_invariant secondary_waiting (fun _ => True) s1 st s2)
    as (H1 & H2 & _); try done.
  - intros f p w0 _ Hw0. by apply actions_secondary_waiting.
  - by rewrite Hw1.
Qed.

Lemma tick_primary_waiting s st s' :
  primary_waiting (world s) -> op_wf (op s) -> no_cycle_exit (op s) ->
  cm_operation_sequencing_callback fp_NOT_ZERO _to_inches s = Done (st, s') ->
  primary_waiting (world s') /\ op_wf (op s') /\ no_cycle_exit (op s').
Proof.
  intros HP Hwf Hno. unfold cm_operation_sequencing_callback.
  destruct (initiate_feedhold_primary_waiting s HP Hwf Hno)
    as (s1 & Hinit & HP1 & Hwf1 & Hno1 & _).
  assert ((if bool_decide (cmMachine.hold_state (cm1 (world s)) = FEEDHOLD_REQUESTED)
           then _initiate_feedhold s else Done s) = Done s1) as ->.
  { destruct HP as [-> _]. done. }
  simpl.
  set (s2 := if bool_decide (cmMachine.flush_state (cm1 (world s1)) = FLUSH_REQUESTED)
             then upd_world _initiate_queue_flush s1 else s1).
  assert (primary_waiting (world s2) /\ op_wf (op s2) /\ no_cycle_exit (op s2))
    as (HP2 & Hwf2 & Hno2).
  { unfold s2. case_bool_decide; [|done]. simpl.
    split; [by apply queue_flush_primary_waiting | done]. }
  destruct (bool_decide (cmMachine.cycle_state (cm1 (world s2)) = CYCLE_START_REQUESTED)).
  - destruct (_initiate_cycle_start fp_NOT_ZERO _to_inches s2) as [s3| |] eqn:Hcs;
      simpl; try done.
    destruct (initiate_cycle_start_primary_waiting s2 s3 HP2 Hwf2 Hno2 Hcs)
      as (HP3 & Hwf3 & Hno3).
    intros Hrun.
    apply (op_run_operation_invariant primary_waiting (fun g => g <> fn_cycle_exit) s3 st s');
      try done.
    intros f p w0 Hf Hw0. by apply actions_primary_waiting.
  - simpl. intros Hrun.
    apply (op_run_operation_invariant primary_waiting (fun g => g <> fn_cycle_exit) s2 st s');
      try done.
    intros f p w0 Hf Hw0. by apply actions_primary_waiting.
Qed.

Lemma tick_secondary_waiting s st s' :
  secondary_waiting (world s) -> op_wf (op s) ->
  cm_operation_sequencing_callback fp_NOT_ZERO _to_inches s = Done (st, s') ->
  secondary_waiting (world s') /\ op_wf (op s').
Proof.
  intros HP Hwf. unfold cm_operation_sequencing_callback.
  destruct (initiate_feedhold_secondary_waiting s HP Hwf)
    as (s1 & Hinit & HP1 & Hwf1 & _).
  assert (exists s1, (if bool_decide (cmMachine.hold_state (cm1 (world s)) = FEEDHOLD_REQUESTED)
                      then _initiate_feedhold s else Done s) = Done s1
                     /\ secondary_waiting (world s1) /\ op_wf (op s1))
    as (s1' & -> & HP1' & Hwf1').
  { case_bool_decide; eauto. }
  clear s1 Hinit HP1 Hwf1. simpl.
  set (s2 := if bool_decide (cmMachine.flush_state (cm1 (world s1')) = FLUSH_REQUESTED)
             then upd_world _initiate_queue_flush s1' else s1').
  assert (secondary_waiting (world s2) /\ op_wf (op s2)) as (HP2 & Hwf2).
  { unfold s2. case_bool_decide; [|done]. simpl.
    split; [by apply queue_flush_secondary_waiting | done]. }
  assert (forall s3, secondary_waiting (world s3) -> op_wf (op s3) ->
            op_run_operation fp_NOT_ZERO _to_inches s3 = Done (st, s') ->
            secondary_waiting (world s') /\ op_wf (op s')) as Hrun.
  { intros s3 HP3 Hwf3 Hr.
    destruct (op_run_operation_invariant secondary_waiting (fun _ => True) s3 st s')
      as (H1 & H2 & _); try done.
    intros f p w0 _ Hw0. by apply actions_secondary_waiting. }
  destruct (bool_decide (cmMachine.cycle_state (cm1 (world s2)) = CYCLE_START_REQUESTED)).
  - destruct (_initiate_cycle_start fp_NOT_ZERO _to_inches s2) as [s3| |] eqn:Hcs;
      simpl; try done.
    destruct (initiate_cycle_start_secondary_waiting s2 s3 HP2 Hwf2 Hcs) as (HP3 & Hwf3).
    by apply Hrun.
  - simpl. by apply Hrun.
Qed.

Lemma ticks_primary_waiting (n : nat) s sn :
  primary_waiting (world s) -> op_wf (op s) -> no_cycle_exit (op s) ->
  ticks fp_NOT_ZERO _to_inches n s = Done sn ->
  primary_waiting (world sn).
Proof.
  revert s. induction n as [|n IH]; intros s HP Hwf Hno.
  - simpl. by intros [= <-].
  - rewrite ticks_S.
    destruct (cm_operation_sequencing_callback fp_NOT_ZERO _to_inches s)
      as [[st s1]| |] eqn:Ht; simpl; try done.
    destruct (tick_primary_waiting s st s1 HP Hwf Hno Ht) as (HP1 & Hwf1 & Hno1).
    by apply IH.
Qed.

Lemma ticks_secondary_waiting (n : nat) s sn :
  secondary_waiting (world s) -> op_wf (op s) ->
  ticks fp_NOT_ZERO _to_inches n s = Done sn ->
  secondary_waiting (world sn).
Proof.
  revert s. induction n as [|n IH]; intros s HP Hwf.
  - simpl. by intros [= <-].
  - rewrite ticks_S.
    destruct (cm_operation_sequencing_callback fp_NOT_ZERO _to_inches s)
      as [[st s1]| |] eqn:Ht; simpl; try done.
    destruct (tick_secondary_waiting s st s1 HP Hwf Ht) as (HP1 & Hwf1).
    by apply IH.
Qed.

(** C8.  A feedhold requested while the active context is not in motion:
    the request returns, leaves the context's hold state Requested and
    makes no collaborator call; and after any number of main-loop ticks the
    hold state of that context is still Requested.  (The runner is well
    formed; if the primary context is the active one no [_cycle_exit] is
    queued, and if the secondary is, the primary is not at the hold
    point.) *)
Theorem feedhold_request_stationary type final s :
  cmMachine.motion_state (get_cm (cm (world s)) (world s)) <> MOTION_RUN ->
  op_wf (op s) ->
  (cm (world s) = addr_cm1 -> no_cycle_exit (op s)) ->
  (cm (world s) = addr_cm2 ->
     cmMachine.hold_state (cm1 (world s)) <> FEEDHOLD_HOLD_ACTION_START) ->
  exists s1,
    cm_request_feedhold type final s = Done s1
    /\ cmMachine.hold_state (get_cm (cm (world s)) (world s1)) = FEEDHOLD_REQUESTED
    /\ cmMachine.motion_state (get_cm (cm (world s)) (world s1)) <> MOTION_RUN
    /\ trace (world s1) = trace (world s)
    /\ cm (world s1) = cm (world s)
    /\ forall n sn,
         ticks fp_NOT_ZERO _to_inches n s1 = Done sn ->
         cmMachine.hold_state (get_cm (cm (world s)) (world sn)) = FEEDHOLD_REQUESTED
         /\ cmMachine.motion_state (get_cm (cm (world s)) (world sn)) <> MOTION_RUN.
Proof.
  destruct s as [w o]. destruct w as [c1 c2 p1 p2 r1 r2 c p r tr].
  simpl. intros Hm Hwf Hno H1.
  unfold cm_request_feedhold, upd_world, upd_cm. simpl.
  destruct c; simpl in *.
  - match goal with |- context [_initiate_feedhold ?s0] => set (s0' := s0) end.
    destruct (initiate_feedhold_primary_waiting s0')
      as (s1 & Hinit & HP1 & Hwf1 & Hno1 & Htr & Hcm); try done.
    { by apply Hno. }
    exists s1. split; [done|]. destruct HP1 as [HPa HPb].
    split; [done|]. split; [done|]. split; [done|]. split; [done|].
    intros n sn Hn. by apply (ticks_primary_waiting n s1 sn).
  - match goal with |- context [_initiate_feedhold ?s0] => set (s0' := s0) end.
    destruct (initiate_feedhold_secondary_waiting s0')
      as (s1 & Hinit & HP1 & Hwf1 & Htr & Hcm); try done.
    { split; [done|]. split; [done|]. by apply H1. }
    exists s1. split; [done|]. pose proof HP1 as (HPa & HPb & HPc).
    split; [done|]. split; [done|]. split; [done|]. split; [done|].
    intros n sn Hn.
    destruct (ticks_secondary_waiting n s1 sn HP1 Hwf1 Hn) as (? & ? & ?). done.
Qed.

End FeedholdFacts.



(** * The worked states *)

(** C1.  Six sync-type holds with a stop finalization, requested while the
    primary context is moving, queue twelve actions with twelve successful
    [add_action] calls on the idle runner; every one of them returns
    [STAT_OK] when run in order; and the next tick of the main loop, whose
    [run_operation] runs them, ends in a null dereference instead of
    resetting the runner and returning [STAT_OK]. *)
Theorem run_operation_full_queue :
  exists s,
    s_twelve = Done s
    /\ length (queue_of (op s) 0) = ACTION_MAX
    /\ add (op s) = None
    /\ in_operation (op s) = false
    /\ (run_queue (exec_action fp_NOT_ZERO_exact _to_inches_mm)
                  (queue_of (op s) 0) (world s)).1 = (ACTION_MAX, STAT_OK)
    /\ tick s = Fault.
Proof.
  eexists. split; [vm_compute; reflexivity|].
  repeat split; vm_compute; reflexivity.
Qed.

(** C5.  A hold is requested in motion (primary hold state Sync, hold point
    not reached), then a queue flush: the next tick aborts the arc, resets
    the primary planner and sets the flush state WasRun while the hold state
    is still Sync. *)
Theorem queue_flush_before_hold :
  exists s0 s,
    s_flush_in_sync = Done s0
    /\ cmMachine.hold_state (cm1 (world s0)) = FEEDHOLD_SYNC
    /\ cmMachine.flush_state (cm1 (world s0)) = FLUSH_REQUESTED
    /\ mpPlanner.runnable_buffers (mp1 (world s0)) = 3
    /\ tick s0 = Done (STAT_EAGAIN, s)
    /\ cmMachine.hold_state (cm1 (world s)) = FEEDHOLD_SYNC
    /\ cmMachine.flush_state (cm1 (world s)) = FLUSH_WAS_RUN
    /\ mpPlanner.runnable_buffers (mp1 (world s)) = 0
    /\ trace (world s) = [call_cm_abort_arc addr_cm1; call_planner_reset addr_mp1].
Proof.
  eexists _, _. split; [vm_compute; reflexivity|].
  do 3 (split; [vm_compute; reflexivity|]).
  split; [vm_compute; reflexivity|].
  repeat split.
Qed.

(** C6.  With the primary hold state Off, a queue-flush request sets the
    flush state Requested, and the next tick aborts the arc, resets the
    primary planner (three runnable buffers are dropped) and sets the flush
    state WasRun. *)
Theorem queue_flush_with_hold_off :
  cmMachine.hold_state (cm1 (world s_boot)) = FEEDHOLD_OFF
  /\ cmMachine.flush_state (cm1 (world s_boot)) = FLUSH_OFF
  /\ mpPlanner.runnable_buffers (mp1 (world s_boot)) = 3
  /\ cmMachine.flush_state (cm1 (world s_flush_no_hold)) = FLUSH_REQUESTED
  /\ exists s,
       tick s_flush_no_hold = Done (STAT_NOOP, s)
       /\ cmMachine.hold_state (cm1 (world s)) = FEEDHOLD_OFF
       /\ cmMachine.flush_state (cm1 (world s)) = FLUSH_WAS_RUN
       /\ mpPlanner.runnable_buffers (mp1 (world s)) = 0
       /\ trace (world s) = [call_cm_abort_arc addr_cm1; call_planner_reset addr_mp1].
Proof.
  do 4 (split; [vm_compute; reflexivity|]).
  eexists. split; [vm_compute; reflexivity|].
  repeat split.
Qed.

Lemma s_in_hold_eq : s_in_hold = Done s_in_hold_val.
Proof. vm_compute. reflexivity. Qed.

(** C9, as the claim states it, fails: an action added with no parameters
    to a slot that an earlier operation used with parameters keeps the
    earlier parameters; the slot is not zero-filled. *)
Lemma add_action_keeps_stale_parameters :
  exists o a,
    op_reused = Done o
    /\ action o !! 0 = Some a
    /\ func a = Some fn_program_end
    /\ param a = params_1234
    /\ param a <> replicate PARAM_MAX fzero.
Proof.
  eexists _, _. split; [vm_compute; reflexivity|].
  split; [reflexivity|]. split; [reflexivity|]. split; [reflexivity|].
  discriminate.
Qed.

(** ** The theorems at the worked states *)

Lemma s_boot_filled : filled (op s_boot) 0.
Proof.
  apply reset_filled; [reflexivity|].
  intros i a Hi. apply lookup_replicate in Hi as [-> _]. reflexivity.
Qed.

Lemma s_boot_no_cycle_exit : no_cycle_exit (op s_boot).
Proof.
  intros i a g Hi Hg.
  assert (i < 0); [|lia].
  apply (filled_func _ _ s_boot_filled i a Hi). eauto.
Qed.

Lemma add_action_contract_witness :
  (forall src, Some params_1234 = Some src -> length src = PARAM_MAX)
  /\ exists o',
       add_action fn_program_stop (Some params_1234) (op s_boot) = Done (STAT_OK, o')
       /\ filled o' 1.
Proof.
  assert (forall src, Some params_1234 = Some src -> length src = PARAM_MAX) as Hsrc.
  { intros src Heq. injection Heq as <-. reflexivity. }
  split; [exact Hsrc|].
  destruct (add_action_contract (op s_boot) fn_program_stop (Some params_1234) Hsrc)
    as (_ & _ & H3).
  eexists.
  apply (H3 0 (mk_cmAction 0 (Some 1) None (replicate PARAM_MAX fzero)) s_boot_filled).
  - unfold ACTION_MAX. lia.
  - reflexivity.
Defined.

Lemma feedhold_with_actions_entry_witness :
  cm w_hold_point = addr_cm1
  /\ cmMachine.hold_state (cm1 w_hold_point) = FEEDHOLD_HOLD_ACTION_START
  /\ (_feedhold_with_actions fp_NOT_ZERO_exact _to_inches_mm [] w_hold_point).1 = STAT_EAGAIN
  /\ cmMachine.hold_state
       (cm1 (_feedhold_with_actions fp_NOT_ZERO_exact _to_inches_mm [] w_hold_point).2)
     = FEEDHOLD_HOLD_PENDING.
Proof.
  split; [reflexivity|]. split; [reflexivity|].
  destruct (feedhold_with_actions_entry fp_NOT_ZERO_exact _to_inches_mm [] w_hold_point)
    as [H _].
  destruct (H eq_refl eq_refl) as (H1 & H2 & _).
  split; [exact H1 | exact H2].
Defined.



Lemma feedhold_request_stationary_witness :
  cmMachine.motion_state (get_cm (cm (world s_boot)) (world s_boot)) <> MOTION_RUN
  /\ exists s1 s3,
       cm_request_feedhold FEEDHOLD_TYPE_ACTIONS FEEDHOLD_FINAL_CYCLE s_boot = Done s1
       /\ ticks fp_NOT_ZERO_exact _to_inches_mm 3 s1 = Done s3
       /\ cmMachine.hold_state (cm1 (world s3)) = FEEDHOLD_REQUESTED.
Proof.
  assert (cmMachine.motion_state (get_cm (cm (world s_boot)) (world s_boot)) <> MOTION_RUN)
    as Hm by discriminate.
  split; [exact Hm|].
  destruct (feedhold_request_stationary fp_NOT_ZERO_exact _to_inches_mm
              FEEDHOLD_TYPE_ACTIONS FEEDHOLD_FINAL_CYCLE s_boot Hm
              (filled_wf _ _ s_boot_filled)
              (fun _ => s_boot_no_cycle_exit)
              (fun H => ltac:(discriminate H)))
    as (s1 & Hreq & _ & _ & _ & _ & Hticks).
  vm_compute in Hreq. injection Hreq as <-.
  eexists _, _. split; [vm_compute; reflexivity|].
  split; [vm_compute; reflexivity|].
  apply (Hticks 3). vm_compute. reflexivity.
Defined.

(** * More on the operation runner *)
Section OperationRunnerMore.
Context {W A : Type}.
Variable call : A -> list float -> W -> stat_t * W.

Implicit Types (o : cmOperation A) (a : cmAction A) (w : W).

Lemma filled_queue_end o (k : nat) : filled o k -> queue_of o k = [].
Proof.
  intros Hf. apply length_zero_iff_nil.
  rewrite (queue_of_length o k k); [lia | | lia |].
  - intros i a Hi _. by apply (filled_func o k Hf).
  - rewrite (wf_length o (filled_wf o k Hf)). apply (filled_le o k Hf).
Qed.

Lemma filled_runner_ok o (k : nat) : filled o k -> runner_ok o k.
Proof.
  intros [Hwf Hle Hadd Hrun Hidle Hfunc]. split; try done.
  exists 0. by rewrite Hidle.
Qed.

Lemma runner_ok_idle_filled o (k : nat) :
  runner_ok o k -> in_operation o = false -> filled o k.
Proof.
  intros [Hwf Hle Hadd Hfunc (j & Hrun & Hj)] Hidle.
  rewrite Hidle in Hj. subst j. by split.
Qed.

Lemma reset_runner_ok o : op_wf o -> runner_ok (reset o) 0.
Proof.
  intros Hwf. apply filled_runner_ok, reset_filled.
  - apply (wf_length o Hwf).
  - apply (wf_params o Hwf).
Qed.

(** X1.  [reset] on the twelve-slot array: every slot gets its own index as
    number and the link to the next slot (none for the last), its function
    pointer is cleared and its parameters are kept; both cursors are on slot
    0, no operation is running, the queue is empty; and a second [reset]
    changes nothing. *)
Theorem reset_state o :
  length (action o) = ACTION_MAX ->
  length (action (reset o)) = ACTION_MAX
  /\ (forall i a, action o !! i = Some a ->
        action (reset o) !! i = Some (mk_cmAction i (link_of i) None (param a)))
  /\ add (reset o) = Some 0 /\ run (reset o) = Some 0
  /\ in_operation (reset o) = false
  /\ queue_of (reset o) 0 = []
  /\ reset (reset o) = reset o.
Proof.
  intros Hlen.
  assert (length (action (reset o)) = ACTION_MAX) as Hlen'.
  { by rewrite reset_length. }
  split; [done|]. split; [intros i a Hi; by apply reset_lookup|].
  split; [done|]. split; [done|]. split; [done|]. split.
  - destruct (lookup_lt_is_Some_2 (action o) 0) as [a Ha].
    { rewrite Hlen. unfold ACTION_MAX. lia. }
    apply (queue_of_nil (reset o) 0 _ (reset_lookup o 0 a Hlen Ha)). done.
  - assert (action (reset (reset o)) = action (reset o)) as Heq.
    { apply list_eq. intros i.
      destruct (action o !! i) as [a|] eqn:Ha.
      - pose proof (reset_lookup o i a Hlen Ha) as H1.
        rewrite (reset_lookup (reset o) i _ Hlen' H1), H1. done.
      - apply lookup_ge_None in Ha.
        rewrite !(proj2 (lookup_ge_None _ _)); [done | lia | ].
        rewrite reset_length. lia. }
    unfold reset at 1. unfold reset at 2. f_equal.
    change (alter (set_nx None) (ACTION_MAX - 1) (reset_loop (action (reset o))))
      with (action (reset (reset o))).
    change (alter (set_nx None) (ACTION_MAX - 1) (reset_loop (action o)))
      with (action (reset o)).
    exact Heq.
Qed.

Lemma add_all_from (reqs : list (A * option (list float))) o (k : nat) :
  filled o k -> k + length reqs <= ACTION_MAX ->
  (forall f src, (f, Some src) ∈ reqs -> length src = PARAM_MAX) ->
  exists o',
    add_all reqs o = Done (replicate (length reqs) STAT_OK, o')
    /\ filled o' (k + length reqs)
    /\ Forall2 queued_as (queue_of o' k) reqs
    /\ (forall i, i < k -> action o' !! i = action o !! i).
Proof.
  revert o k. induction reqs as [|[f p] reqs IH]; intros o k Hf Hlen Hsrc.
  - exists o. simpl. rewrite Nat.add_0_r.
    split; [done|]. split; [done|]. split; [|done].
    rewrite (filled_queue_end o k Hf). constructor.
  - simpl in Hlen.
    destruct (filled_slot o k Hf) as [a Ha]; [lia|].
    destruct (add_action_filled o k a f p Hf) as [Hadd Hf1]; [lia | done | |].
    { intros src ->. apply (Hsrc f src). left. }
    set (a' := mk_cmAction (number a) (nx a) (Some f)
                 (match p with Some src => src | None => param a end)) in *.
    set (o1 := mk_cmOperation (<[k := a']> (action o)) (link_of k) (Some 0) false) in *.
    destruct (IH o1 (S k) Hf1) as (o' & Hall & Hf' & Hq & Hframe); [lia | |].
    { intros g src Hin. apply (Hsrc g src). by right. }
    exists o'. simpl. rewrite Hadd. simpl. rewrite Hall. simpl.
    replace (k + S (length reqs)) with (S k + length reqs) by lia.
    split; [done|]. split; [done|].
    assert (action o' !! k = Some a') as Hk.
    { rewrite (Hframe k) by lia. simpl.
      apply list_lookup_insert_eq. rewrite (wf_length o (filled_wf o k Hf)). lia. }
    split.
    + rewrite (queue_of_cons o' k a' f Hk eq_refl). constructor; [|done].
      split; [done|]. simpl. by intros src ->.
    + intros i Hi. rewrite (Hframe i) by lia. simpl.
      apply list_lookup_insert_ne. lia.
Qed.

(** X2.  On a runner just reset, up to twelve [add_action] calls all return
    [STAT_OK]; the queue then lists their functions in call order, each with
    the caller's parameters where a buffer was supplied; and when twelve were
    added, one more call reports that capacity is exceeded and changes
    nothing. *)
Theorem add_all_fifo (reqs : list (A * option (list float))) o :
  filled o 0 -> length reqs <= ACTION_MAX ->
  (forall f src, (f, Some src) ∈ reqs -> length src = PARAM_MAX) ->
  exists o',
    add_all reqs o = Done (replicate (length reqs) STAT_OK, o')
    /\ filled o' (length reqs)
    /\ Forall2 queued_as (queue_of o' 0) reqs
    /\ (length reqs = ACTION_MAX ->
        forall f p, add_action f p o' = Done (STAT_INPUT_EXCEEDS_MAX_LENGTH, o')).
Proof.
  intros Hf Hlen Hsrc.
  destruct (add_all_from reqs o 0 Hf) as (o' & Hall & Hf' & Hq & _); [lia | done |].
  simpl in Hf'. exists o'. split; [done|]. split; [done|]. split; [done|].
  intros Hfull f p. rewrite Hfull in Hf'.
  unfold add_action. rewrite (filled_idle o' _ Hf'), (filled_add o' _ Hf').
  rewrite decide_False by lia. done.
Qed.

(** The loop of [run_operation] on any queue that fits the array, but for
    the one case of [run_loop_overrun]. *)
Lemma run_loop_contract_gen (fuel : nat) o (j : nat) w :
  op_wf o -> run o = Some j ->
  queue_of o j <> [] ->
  j + length (queue_of o j) <= ACTION_MAX ->
  (j + length (queue_of o j) = ACTION_MAX ->
     (run_queue call (queue_of o j) w).1.2 <> STAT_OK) ->
  length (queue_of o j) <= fuel ->
  run_loop call fuel o w = Done (after_run o j (run_queue call (queue_of o j) w)).
Proof.
  remember (queue_of o j) as q eqn:Hq.
  revert fuel o j w Hq.
  induction q as [|[f p] q IH]; intros fuel o j w Hq Hwf Hr Hne Hlen Hst Hfuel; [done|].
  symmetry in Hq. destruct (queue_of_inv o j f p q Hq) as (a & Ha & Hf & Hp & Hq').
  simpl in Hlen, Hfuel, Hst. destruct fuel as [|fuel]; [lia|].
  simpl. unfold deref at 1. rewrite Hr, Ha. simpl. rewrite Hf, Hp.
  destruct (call f p w) as [status w1].
  destruct status; simpl; try (by rewrite reset_set_run || done).
  - rewrite (wf_links o Hwf j a Ha). unfold link_of.
    destruct (decide (S j < ACTION_MAX)) as [Hlt|Hge].
    + unfold deref. simpl.
      destruct (lookup_lt_is_Some_2 (action o) (S j)) as [a' Ha'].
      { rewrite (wf_length o Hwf). lia. }
      rewrite Ha'. simpl.
      destruct (func a') as [g|] eqn:Hg.
      * assert (q <> []) as Hqne.
        { rewrite <- Hq', (queue_of_cons o (S j) a' g Ha' Hg). done. }
        rewrite (IH fuel (set_run (Some (S j)) o) (S j) w1); try done.
        -- destruct (run_queue call q w1) as [[n st] w2]. simpl.
           rewrite reset_set_run.
           replace (j + S n) with (S (j + n)) by lia.
           by destruct st.
        -- by apply set_run_wf.
        -- lia.
        -- intros Heq. assert (j + S (length q) = ACTION_MAX) as Heq' by lia.
           specialize (Hst Heq').
           by destruct (run_queue call q w1) as [[n st] w2].
        -- lia.
      * rewrite (queue_of_nil o (S j) a' Ha' Hg) in Hq'. subst q.
        simpl. by rewrite reset_set_run.
    + exfalso.
      pose proof (wf_run o Hwf j Hr) as Hj.
      assert (q = []) as ->.
      { rewrite <- Hq'. unfold queue_of. rewrite drop_ge; [done|].
        rewrite (wf_length o Hwf). lia. }
      simpl in Hst. apply Hst; [lia | done].
  - rewrite Nat.add_0_r, <- Hr. by rewrite set_run_id.
Qed.

(** [run_operation] with the run cursor on any slot. *)
Lemma run_operation_at o (j : nat) w :
  op_wf o -> run o = Some j ->
  queue_of o j <> [] ->
  j + length (queue_of o j) <= ACTION_MAX ->
  (j + length (queue_of o j) = ACTION_MAX ->
     (run_queue call (queue_of o j) w).1.2 <> STAT_OK) ->
  run_operation call o w
  = Done (after_run (set_in_operation true o) j (run_queue call (queue_of o j) w)).
Proof.
  intros Hwf Hr Hne Hlen Hst.
  assert (exists a f, action o !! j = Some a /\ func a = Some f) as (a & f & Ha & Hf).
  { destruct (queue_of o j) as [|[f p] q] eqn:Hq; [done|].
    destruct (queue_of_inv o j f p q Hq) as (a & Ha & Hf & _). eauto. }
  unfold run_operation, run_operation_fuel, deref.
  rewrite Hr, Ha. unfold rbind. rewrite Hf.
  change (queue_of o j) with (queue_of (set_in_operation true o) j) in *.
  apply run_loop_contract_gen; try done.
  - by apply set_in_operation_wf.
  - pose proof (wf_run o Hwf j Hr). lia.
Qed.

(** X3.  [run_operation] on a queue of 1 to 11 actions calls them in queue
    order, each once, up to the first that does not return [STAT_OK], and
    returns that action's status ([STAT_OK] if all completed).  If all
    completed, or on an error status, the runner is left reset, idle and
    empty; on [STAT_EAGAIN] it is left in operation with the run cursor on
    the action that asked to be called again and every slot as it was. *)
Theorem run_operation_fifo o (k n : nat) w st w' :
  filled o k -> 0 < k -> k < ACTION_MAX ->
  run_queue call (queue_of o 0) w = (n, st, w') ->
  exists o',
    run_operation call o w = Done (st, o', w')
    /\ n <= k
    /\ (st = STAT_OK -> n = k)
    /\ (st <> STAT_EAGAIN -> filled o' 0)
    /\ (st = STAT_EAGAIN ->
        n < k /\ in_operation o' = true /\ run o' = Some n
        /\ action o' = action o /\ add o' = add o).
Proof.
  intros Hf Hk0 Hk Hq.
  pose proof (filled_queue_length o k Hf) as Hlen.
  pose proof (filled_wf o k Hf) as Hwf.
  destruct (run_queue_count call _ _ _ _ _ Hq) as [Hle Hlt].
  rewrite Hlen in Hle, Hlt.
  rewrite (run_operation_filled call o k w Hf Hk0 Hk), Hq. simpl.
  eexists. split; [reflexivity|]. split; [done|].
  assert (filled (reset (set_in_operation true o)) 0) as Hreset.
  { apply reset_filled; [apply (wf_length o Hwf) | apply (wf_params o Hwf)]. }
  split; [|split].
  - intros ->.
    assert (length (queue_of o 0) <= n); [|lia].
    clear -Hq. revert w n Hq.
    induction (queue_of o 0) as [|[f p] q IH]; intros w n; simpl; [lia|].
    destruct (call f p w) as [st1 w1]. destruct st1; try done.
    destruct (run_queue call q w1) as [[n1 st2] w2] eqn:Hq1.
    intros [= <- -> <-]. specialize (IH w1 n1 Hq1). lia.
  - intros Hst. by destruct st.
  - intros ->. split; [by apply Hlt|]. done.
Qed.

(** X4.  After [run_operation] has returned [STAT_EAGAIN] the runner
    refuses [add_action], and the next [run_operation] starts again with the
    action that asked to be called again, passes it the same stored
    parameters, and goes on through the rest of the queue in order. *)
Theorem run_operation_resume o (k n : nat) w w' w2 (f : A) prm :
  filled o k -> 0 < k -> k < ACTION_MAX ->
  run_queue call (queue_of o 0) w = (n, STAT_EAGAIN, w') ->
  exists o',
    run_operation call o w = Done (STAT_EAGAIN, o', w')
    /\ add_action f prm o' = Done (STAT_COMMAND_NOT_ACCEPTED, o')
    /\ queue_of o' n = drop n (queue_of o 0)
    /\ queue_of o' n <> []
    /\ run_operation call o' w2
       = Done (after_run o' n (run_queue call (drop n (queue_of o 0)) w2)).
Proof.
  intros Hf Hk0 Hk Hq.
  pose proof (filled_queue_length o k Hf) as Hlen.
  pose proof (filled_wf o k Hf) as Hwf.
  destruct (run_queue_count call _ _ _ _ _ Hq) as [Hle Hlt].
  specialize (Hlt ltac:(done)). rewrite Hlen in Hle, Hlt.
  rewrite (run_operation_filled call o k w Hf Hk0 Hk), Hq. simpl.
  set (o' := set_run (Some n) (set_in_operation true o)).
  assert (queue_of o' n = drop n (queue_of o 0)) as Hdrop.
  { change (queue_of o' n) with (queue_of o (0 + n)).
    apply queue_of_drop. lia. }
  assert (queue_of o' n <> []) as Hne.
  { rewrite Hdrop. intros Hnil.
    apply (f_equal length) in Hnil. rewrite length_drop in Hnil. simpl in Hnil. lia. }
  exists o'. split; [done|]. split; [done|]. split; [done|]. split; [done|].
  rewrite <- Hdrop.
  assert (op_wf o') as Hwf'.
  { apply set_run_wf; [by apply set_in_operation_wf | lia]. }
  rewrite (run_operation_at o' n w2 Hwf' eq_refl Hne).
  - done.
  - rewrite Hdrop, length_drop. lia.
  - rewrite Hdrop, length_drop. lia.
Qed.

(** X5.  On a well-formed runner the loop of [run_operation] stops within
    [ACTION_MAX] calls: more fuel gives the same result, and the result is
    never that the fuel ran out. *)
Theorem run_operation_fuel_enough (fuel : nat) o w :
  op_wf o -> ACTION_MAX <= fuel ->
  run_operation_fuel call fuel o w = run_operation call o w
  /\ run_operation call o w <> OutOfFuel.
Proof.
  intros Hwf Hfuel. unfold run_operation, run_operation_fuel, deref.
  destruct (run o) as [j|] eqn:Hr; [|done].
  destruct (action o !! j) as [a|]; [|done].
  unfold rbind. destruct (func a) as [f|]; [|done].
  assert (run_loop call ACTION_MAX (set_in_operation true o) w <> OutOfFuel) as Hne.
  { apply (run_loop_fuel call ACTION_MAX (set_in_operation true o) j w).
    - by apply set_in_operation_wf.
    - done.
    - lia. }
  split; [|done].
  by apply (run_loop_fuel_mono call ACTION_MAX fuel).
Qed.

(** X6.  On a queue of [k > 0] actions added to an idle runner,
    [run_operation] ends in a null dereference exactly when the queue fills
    all twelve slots and every action returns [STAT_OK]; in every other case
    it returns. *)
Theorem run_operation_fault_iff o (k : nat) w :
  filled o k -> 0 < k ->
  (run_operation call o w = Fault
     <-> k = ACTION_MAX /\ (run_queue call (queue_of o 0) w).1.2 = STAT_OK)
  /\ (run_operation call o w <> Fault ->
      run_operation call o w
      = Done (after_run (set_in_operation true o) 0 (run_queue call (queue_of o 0) w))).
Proof.
  intros Hf Hk0.
  pose proof (filled_queue_length o k Hf) as Hlen.
  pose proof (filled_wf o k Hf) as Hwf.
  pose proof (filled_le o k Hf) as Hle.
  assert (queue_of o 0 <> []) as Hne.
  { intros Hnil. rewrite Hnil in Hlen. simpl in Hlen. lia. }
  destruct (decide (k = ACTION_MAX
                    /\ (run_queue call (queue_of o 0) w).1.2 = STAT_OK)) as [[-> Hok]|Hno].
  - rewrite (run_operation_full call o w Hf Hok). split; [split; done | done].
  - assert (run_operation call o w
            = Done (after_run (set_in_operation true o) 0
                      (run_queue call (queue_of o 0) w))) as Hrun.
    { apply run_operation_at; try done.
      - apply (filled_run o k Hf).
      - lia.
      - intros Heq Hok. apply Hno. split; [lia | done]. }
    split; [|done]. rewrite Hrun. split; [done | by intros ?].
Qed.

(** [add_action] with no parameters on a runner that is idle or in an
    operation: it returns, and the runner holds the same actions or one
    more. *)
Lemma add_action_runner_ok o (k : nat) (f : A) :
  runner_ok o k -> k < ACTION_MAX ->
  exists st o' k',
    add_action f None o = Done (st, o') /\ runner_ok o' k'
    /\ k <= k' /\ k' <= S k /\ in_operation o' = in_operation o.
Proof.
  intros Hok Hk.
  destruct (in_operation o) eqn:Hin.
  - exists STAT_COMMAND_NOT_ACCEPTED, o, k. unfold add_action. rewrite Hin.
    split; [done|]. split; [done|]. split; [lia|]. split; [lia | done].
  - pose proof (runner_ok_idle_filled o k Hok Hin) as Hf.
    destruct (filled_slot o k Hf Hk) as [a Ha].
    destruct (add_action_filled o k a f None Hf Hk Ha) as [Hadd Hf1]; [done|].
    eexists _, _, (S k). split; [exact Hadd|].
    split; [by apply filled_runner_ok|]. split; [lia|]. split; [lia | done].
Qed.

(** [run_operation] on a runner that is idle or in an operation, with at
    most eleven actions: it returns, and the runner is left reset or in the
    same operation. *)
Lemma run_operation_runner_ok o (k : nat) w :
  runner_ok o k -> k < ACTION_MAX ->
  exists st o' w' k',
    run_operation call o w = Done (st, o', w') /\ runner_ok o' k' /\ k' <= k.
Proof.
  intros Hok Hk. pose proof Hok as [Hwf Hle Hadd Hfunc (j & Hrun & Hj)].
  assert (j <= k) as Hjk.
  { destruct (in_operation o); lia. }
  assert (length (queue_of o j) = k - j) as Hlen.
  { apply queue_of_length; [|done|].
    - intros i a Hi _. by apply Hfunc.
    - rewrite (wf_length o Hwf). lia. }
  destruct (decide (j = k)) as [->|Hne].
  - (* idle and empty *)
    destruct (lookup_lt_is_Some_2 (action o) k) as [a Ha].
    { rewrite (wf_length o Hwf). lia. }
    assert (func a = None) as Hfa.
    { destruct (func a) eqn:Hfa; [|done].
      assert (k < k); [|lia]. apply (Hfunc k a Ha). eauto. }
    exists STAT_NOOP, o, w, k.
    rewrite (run_operation_noop call o k a w Hrun Ha Hfa). done.
  - assert (queue_of o j <> []) as Hqne.
    { intros Hnil. rewrite Hnil in Hlen. simpl in Hlen. lia. }
    rewrite (run_operation_at o j w Hwf Hrun Hqne) by (rewrite Hlen; lia).
    destruct (run_queue call (queue_of o j) w) as [[n st] w1] eqn:Hq.
    destruct (run_queue_count call _ _ _ _ _ Hq) as [Hn1 Hn2]. rewrite Hlen in Hn1, Hn2.
    simpl.
    assert (runner_ok (reset (set_in_operation true o)) 0) as Hreset.
    { apply reset_runner_ok. by apply set_in_operation_wf. }
    destruct (decide (st = STAT_EAGAIN)) as [->|Hst].
    + eexists _, _, _, k. split; [reflexivity|]. split; [|lia].
      specialize (Hn2 ltac:(done)).
      split; simpl; try done.
      * apply set_run_wf; [by apply set_in_operation_wf | lia].
      * exists (j + n). split; [done | lia].
    + exists st, (reset (set_in_operation true o)), w1, 0.
      split; [by destruct st|]. split; [done | lia].
Qed.

End OperationRunnerMore.

(** * More on the feedhold functions *)
Section FeedholdMore.
Variable fp_NOT_ZERO : float -> bool.
Variable _to_inches : cmMachine.t -> float -> float.

Implicit Types (w : World) (s : System) (prm : list float).

Lemma op_add_action_runner_ok s (k : nat) (f : action_exec_t) :
  runner_ok (op s) k ->
  exists s' k',
    op_add_action f s = Done s' /\ world s' = world s /\ runner_ok (op s') k'
    /\ k <= k' /\ k' <= S k /\ k' <= ACTION_MAX.
Proof.
  intros Hok. destruct (decide (k < ACTION_MAX)) as [Hk|Hk].
  - destruct (add_action_runner_ok (op s) k f Hok Hk) as (st & o' & k' & Hadd & Hok' & H1 & H2 & _).
    exists (mk_System (world s) o'), k'. unfold op_add_action. rewrite Hadd.
    split; [done|]. split; [done|]. split; [done|]. split; [done|]. split; [done|].
    apply (ok_le o' k' Hok').
  - exists s, k. pose proof (ok_le _ _ Hok) as Hle.
    unfold op_add_action, add_action.
    destruct (in_operation (op s)); [destruct s; simpl; auto 10 with lia|].
    rewrite (ok_add _ _ Hok), decide_False by done.
    destruct s; simpl; auto 10 with lia.
Qed.

Lemma op_run_operation_runner_ok s (k : nat) :
  runner_ok (op s) k -> k < ACTION_MAX ->
  exists st s' k',
    op_run_operation fp_NOT_ZERO _to_inches s = Done (st, s')
    /\ runner_ok (op s') k' /\ k' <= k.
Proof.
  intros Hok Hk.
  destruct (run_operation_runner_ok (exec_action fp_NOT_ZERO _to_inches)
              (op s) k (world s) Hok Hk) as (st & o' & w' & k' & Hrun & Hok' & Hle).
  exists st, (mk_System w' o'), k'. unfold op_run_operation. rewrite Hrun. done.
Qed.

Lemma initiate_feedhold_runner_ok s (k : nat) :
  runner_ok (op s) k ->
  exists s' k',
    _initiate_feedhold s = Done s' /\ runner_ok (op s') k'
    /\ k <= k' /\ k' <= k + 2 /\ k' <= ACTION_MAX
    /\ trace (world s') = trace (world s)
    /\ cm (world s') = cm (world s) /\ mp (world s') = mp (world s)
    /\ mr (world s') = mr (world s).
Proof.
  intros Hok. pose proof (ok_le _ _ Hok) as Hle. unfold _initiate_feedhold.
  destruct (bool_decide (cmMachine.hold_state (cm1 (world s)) = FEEDHOLD_REQUESTED)
            && bool_decide (cmMachine.motion_state (cm1 (world s)) = MOTION_RUN)).
  - assert (exists s1 k1,
              match cmMachine.hold_type (cm1 (world s)) with
              | FEEDHOLD_TYPE_ACTIONS => op_add_action fn_feedhold_with_actions s
              | FEEDHOLD_TYPE_NO_ACTIONS => op_add_action fn_feedhold_with_no_actions s
              | FEEDHOLD_TYPE_SYNC => op_add_action fn_feedhold_with_sync s
              end = Done s1
              /\ world s1 = world s /\ runner_ok (op s1) k1
              /\ k <= k1 /\ k1 <= S k /\ k1 <= ACTION_MAX)
      as (s1 & k1 & -> & Hw1 & Hok1 & ? & ? & ?).
    { destruct (cmMachine.hold_type (cm1 (world s))); by apply op_add_action_runner_ok. }
    simpl.
    assert (exists s2 k2,
              match cmMachine.hold_final (cm1 (world s1)) with
              | FEEDHOLD_FINAL_STOP => op_add_action fn_program_stop s1
              | FEEDHOLD_FINAL_END => op_add_action fn_program_end s1
              | FEEDHOLD_FINAL_ALARM => op_add_action fn_alarm s1
              | FEEDHOLD_FINAL_SHUTDOWN => op_add_action fn_shutdown s1
              | FEEDHOLD_FINAL_INTERLOCK => op_add_action fn_interlock s1
              | FEEDHOLD_FINAL_CYCLE => Done s1
              end = Done s2
              /\ world s2 = world s1 /\ runner_ok (op s2) k2
              /\ k1 <= k2 /\ k2 <= S k1 /\ k2 <= ACTION_MAX)
      as (s2 & k2 & -> & Hw2 & Hok2 & ? & ? & ?).
    { destruct (cmMachine.hold_final (cm1 (world s1)));
        try by apply op_add_action_runner_ok.
      exists s1, k1. auto 10 with lia. }
    simpl. eexists _, k2. split; [done|]. simpl. rewrite Hw2, Hw1.
    split; [done|]. repeat split; lia.
  - destruct (bool_decide (cmMachine.hold_state (cm2 (world s)) = FEEDHOLD_REQUESTED)
              && bool_decide (cmMachine.motion_state (cm2 (world s)) = MOTION_RUN)).
    + destruct (op_add_action_runner_ok s k fn_feedhold_with_sync Hok)
        as (s1 & k1 & -> & Hw1 & Hok1 & ? & ? & ?).
      simpl. eexists _, k1. split; [done|]. simpl. rewrite Hw1.
      split; [done|]. repeat split; lia.
    + exists s, k. split; [done|]. split; [done|]. repeat split; lia.
Qed.

Lemma initiate_cycle_start_runner_ok s (k : nat) :
  runner_ok (op s) k -> k + 2 < ACTION_MAX ->
  exists s' k',
    _initiate_cycle_start fp_NOT_ZERO _to_inches s = Done s'
    /\ runner_ok (op s') k' /\ k' <= k + 2.
Proof.
  intros Hok Hk. unfold _initiate_cycle_start.
  destruct (bool_decide (cmMachine.hold_state (cm1 (world s)) = FEEDHOLD_OFF)).
  { eexists _, k. split; [done|]. split; [done | lia]. }
  set (inner := if bool_decide (cmMachine.hold_state (cm1 (world s)) = FEEDHOLD_HOLD)
                then _ else _).
  assert (exists s1 k1, inner = Done s1 /\ runner_ok (op s1) k1 /\ k1 <= k + 2)
    as (s1 & k1 & -> & Hok1 & Hk1).
  { unfold inner.
    destruct (bool_decide (cmMachine.hold_state (cm1 (world s)) = FEEDHOLD_HOLD));
      [|exists s, k; split; [done|]; split; [done | lia]].
    assert (exists s1 k1,
              match cmMachine.hold_type (cm1 (world s)) with
              | FEEDHOLD_TYPE_ACTIONS => op_add_action fn_feedhold_exit_with_actions s
              | FEEDHOLD_TYPE_NO_ACTIONS => op_add_action fn_feedhold_exit_with_no_actions s
              | FEEDHOLD_TYPE_SYNC => Done s
              end = Done s1 /\ runner_ok (op s1) k1 /\ k1 <= S k)
      as (s1 & k1 & -> & Hok1 & Hk1).
    { destruct (cmMachine.hold_type (cm1 (world s))).
      - destruct (op_add_action_runner_ok s k fn_feedhold_exit_with_actions Hok)
          as (s1 & k1 & H1 & _ & H3 & _ & H5 & _); eauto 10.
      - destruct (op_add_action_runner_ok s k fn_feedhold_exit_with_no_actions Hok)
          as (s1 & k1 & H1 & _ & H3 & _ & H5 & _); eauto 10.
      - exists s, k. split; [done|]. split; [done | lia]. }
    simpl.
    assert (forall f, exists s2 k2, op_add_action f s1 = Done s2
                                    /\ runner_ok (op s2) k2 /\ k2 <= k + 2) as Hadd.
    { intros f. destruct (op_add_action_runner_ok s1 k1 f Hok1)
        as (s2 & k2 & H1 & _ & H3 & _ & H5 & _).
      exists s2, k2. split; [done|]. split; [done | lia]. }
    destruct (cmMachine.hold_final (cm1 (world s1))); apply Hadd. }
  simpl.
  destruct (op_run_operation_runner_ok s1 k1 Hok1) as (st & s2 & k2 & -> & Hok2 & Hk2); [lia|].
  simpl. exists s2, k2. split; [done|]. split; [done | lia].
Qed.

(** One tick of the main loop on a well-formed runner that holds at most
    seven actions returns and leaves the runner well formed. *)
Lemma tick_total s (k : nat) :
  runner_ok (op s) k -> k + 4 < ACTION_MAX ->
  exists st s' k',
    cm_operation_sequencing_callback fp_NOT_ZERO _to_inches s = Done (st, s')
    /\ runner_ok (op s') k' /\ k' <= k + 4.
Proof.
  intros Hok Hk. unfold cm_operation_sequencing_callback.
  assert (exists s1 k1,
            (if bool_decide (cmMachine.hold_state (cm1 (world s)) = FEEDHOLD_REQUESTED)
             then _initiate_feedhold s else Done s) = Done s1
            /\ runner_ok (op s1) k1 /\ k1 <= k + 2)
    as (s1 & k1 & -> & Hok1 & Hk1).
  { case_bool_decide.
    - destruct (initiate_feedhold_runner_ok s k Hok) as (s1 & k1 & ? & ? & ? & ? & _).
      eauto 10.
    - exists s, k. split; [done|]. split; [done | lia]. }
  simpl.
  set (s2 := if bool_decide (cmMachine.flush_state (cm1 (world s1)) = FLUSH_REQUESTED)
             then upd_world _initiate_queue_flush s1 else s1).
  assert (op s2 = op s1) as Hop2.
  { unfold s2. by case_bool_decide. }
  assert (exists s3 k3,
            (if bool_decide (cmMachine.cycle_state (cm1 (world s2)) = CYCLE_START_REQUESTED)
             then _initiate_cycle_start fp_NOT_ZERO _to_inches s2 else Done s2) = Done s3
            /\ runner_ok (op s3) k3 /\ k3 <= k + 4)
    as (s3 & k3 & -> & Hok3 & Hk3).
  { case_bool_decide.
    - destruct (initiate_cycle_start_runner_ok s2 k1) as (s3 & k3 & ? & ? & ?);
        [by rewrite Hop2 | lia |].
      exists s3, k3. split; [done|]. split; [done | lia].
    - exists s2, k1. rewrite Hop2. split; [done|]. split; [done | lia]. }
  simpl.
  destruct (op_run_operation_runner_ok s3 k3 Hok3) as (st & s4 & k4 & -> & Hok4 & Hk4); [lia|].
  exists st, s4, k4. split; [done|]. split; [done | lia].
Qed.

(** X8.  A feedhold request on a well-formed runner, however full, always
    returns: it adds at most two actions, runs none, makes no collaborator
    call and leaves the three handles alone. *)
Theorem request_feedhold_returns type final s (k : nat) :
  runner_ok (op s) k ->
  exists s' k',
    cm_request_feedhold type final s = Done s'
    /\ runner_ok (op s') k' /\ k <= k' /\ k' <= k + 2
    /\ run (op s') = run (op s) /\ in_operation (op s') = in_operation (op s)
    /\ trace (world s') = trace (world s)
    /\ cm (world s') = cm (world s) /\ mp (world s') = mp (world s)
    /\ mr (world s') = mr (world s).
Proof.
  intros Hok. unfold cm_request_feedhold.
  set (s0 := upd_world _ (upd_world _ (upd_world _ s))).
  assert (op s0 = op s) as Hop by done.
  assert (trace (world s0) = trace (world s) /\ cm (world s0) = cm (world s)
          /\ mp (world s0) = mp (world s) /\ mr (world s0) = mr (world s))
    as (Htr & Hcm & Hmp & Hmr).
  { assert (forall f w, trace (upd_cm f w) = trace w /\ cm (upd_cm f w) = cm w
                        /\ mp (upd_cm f w) = mp w /\ mr (upd_cm f w) = mr w) as Hupd.
    { intros f w. unfold upd_cm. destruct (cm w) eqn:E; simpl; by rewrite E. }
    unfold s0, upd_world. simpl.
    repeat match goal with
           | |- context [upd_cm ?f ?w] =>
             destruct (Hupd f w) as (-> & -> & -> & ->)
           end.
    done. }
  destruct (initiate_feedhold_runner_ok s0 k) as (s' & k' & Hinit & Hok' & H1 & H2 & _ & H4 & H5 & H6 & H7);
    [by rewrite Hop|].
  exists s', k'. split; [done|]. split; [done|]. split; [done|]. split; [done|].
  rewrite H4, H5, H6, H7, Htr, Hcm, Hmp, Hmr.
  assert (run (op s') = run (op s0) /\ in_operation (op s') = in_operation (op s0)) as [Hr Hi].
  { clear -Hinit. unfold _initiate_feedhold in Hinit.
    assert (forall f s1 s2, op_add_action f s1 = Done s2 ->
              run (op s2) = run (op s1) /\ in_operation (op s2) = in_operation (op s1)) as Hadd.
    { intros f s1 s2. unfold op_add_action, add_action.
      destruct (in_operation (op s1)) eqn:Hin; simpl; [by intros [= <-]|].
      destruct (add (op s1)); simpl; [|by intros [= <-]].
      destruct (action (op s1) !! n); simpl; [|done]. by intros [= <-]. }
    destruct (_ && _) in Hinit.
    - destruct (cmMachine.hold_type (cm1 (world s0)));
        (match type of Hinit with
         | context [op_add_action ?f s0] =>
           destruct (op_add_action f s0) as [s1| |] eqn:H1; simpl in Hinit; try done;
           apply Hadd in H1 as [<- <-]
         end);
        (match type of Hinit with
         | context [cmMachine.hold_final ?c] => destruct (cmMachine.hold_final c)
         end);
        try (match type of Hinit with
             | context [op_add_action ?f ?x] =>
               destruct (op_add_action f x) as [s2| |] eqn:H2; simpl in Hinit; try done;
               apply Hadd in H2 as [<- <-]
             end);
        simpl in Hinit; by injection Hinit as <-.
    - destruct (_ && _) in Hinit.
      + destruct (op_add_action fn_feedhold_with_sync s0) as [s1| |] eqn:H1;
          simpl in Hinit; try done.
        injection Hinit as <-. simpl. by apply Hadd in H1.
      + by injection Hinit as <-. }
  rewrite Hr, Hi, Hop. done.
Qed.

Lemma queued_as_fst {A : Type} (q : list (A * list float)) (reqs : list (A * option (list float))) :
  Forall2 queued_as q reqs -> q.*1 = reqs.*1.
Proof.
  induction 1 as [|x y q' reqs' [Hxy _] _ IH]; simpl; [done|]. by f_equal.
Qed.

(** X9.  [_initiate_feedhold] with a hold requested on the primary machine
    in motion, and room for two more actions on the idle runner: it queues
    the entry action selected by the hold type and then, for every
    finalization but [FEEDHOLD_FINAL_CYCLE], the termination action selected
    by the hold final; it sets the primary hold state to Sync and touches
    nothing else. *)
Theorem initiate_feedhold_queues s (k : nat) :
  cmMachine.hold_state (cm1 (world s)) = FEEDHOLD_REQUESTED ->
  cmMachine.motion_state (cm1 (world s)) = MOTION_RUN ->
  filled (op s) k -> k + 2 <= ACTION_MAX ->
  let fs := entry_action (cmMachine.hold_type (cm1 (world s)))
            :: final_at_initiation (cmMachine.hold_final (cm1 (world s))) in
  exists s',
    _initiate_feedhold s = Done s'
    /\ world s' = upd_cm1 (cmMachine.set_hold_state FEEDHOLD_SYNC) (world s)
    /\ filled (op s') (k + length fs)
    /\ (queue_of (op s') k).*1 = fs
    /\ (forall i, i < k -> action (op s') !! i = action (op s) !! i).
Proof.
  intros Hs Hm Hf Hk fs.
  destruct (add_all_from ((fun f => (f, None)) <$> fs) (op s) k Hf)
    as (o' & Hall & Hf' & Hq & Hframe).
  { rewrite length_fmap. unfold fs.
    destruct (cmMachine.hold_final (cm1 (world s))); simpl; lia. }
  { intros f src Hin. apply list_elem_of_fmap in Hin as (g & Heq & _). discriminate Heq. }
  rewrite length_fmap in Hf'.
  exists (mk_System (upd_cm1 (cmMachine.set_hold_state FEEDHOLD_SYNC) (world s)) o').
  split; [|split; [done|split; [done|split; [|done]]]].
  - unfold _initiate_feedhold. rewrite Hs, Hm.
    rewrite !bool_decide_true by done. cbn [andb].
    unfold fs in Hall. clear -Hall.
    destruct s as [w o]. simpl in *.
    destruct (cmMachine.hold_type (cm1 w));
      simpl in Hall; unfold op_add_action; simpl;
      (destruct (add_action _ None o) as [[st1 o1]| |]; simpl in *; try done);
      destruct (cmMachine.hold_final (cm1 w)); simpl in *;
      try (destruct (add_action _ None o1) as [[st2 o2]| |]; simpl in *; try done);
      unfold upd_world; simpl; congruence.
  - simpl. rewrite (queued_as_fst _ _ Hq). rewrite <- list_fmap_compose.
    apply list_fmap_id.
Qed.

Lemma op_add_action_refused s (f : action_exec_t) :
  in_operation (op s) = true \/ add (op s) = None ->
  op_add_action f s = Done s.
Proof.
  intros Hbusy. destruct s as [w o]. unfold op_add_action, add_action. simpl in *.
  destruct (in_operation o); [done|].
  destruct Hbusy as [Hb|Hb]; [done|]. by rewrite Hb.
Qed.

(** X10.  [_initiate_feedhold] with a hold requested on the primary machine
    in motion while the runner is in an operation, or idle with all twelve
    slots taken: every [add_action] is refused and its status dropped, so
    nothing is queued, and the primary hold state is set to Sync all the
    same. *)
Theorem initiate_feedhold_runner_busy s :
  cmMachine.hold_state (cm1 (world s)) = FEEDHOLD_REQUESTED ->
  cmMachine.motion_state (cm1 (world s)) = MOTION_RUN ->
  in_operation (op s) = true \/ add (op s) = None ->
  _initiate_feedhold s
  = Done (mk_System (upd_cm1 (cmMachine.set_hold_state FEEDHOLD_SYNC) (world s)) (op s)).
Proof.
  intros Hs Hm Hbusy. unfold _initiate_feedhold. rewrite Hs, Hm.
  rewrite !bool_decide_true by done. cbn [andb].
  assert (forall f, op_add_action f s = Done s) as Hadd.
  { intros f. by apply op_add_action_refused. }
  destruct (cmMachine.hold_type (cm1 (world s))); rewrite Hadd; simpl;
    destruct (cmMachine.hold_final (cm1 (world s))); rewrite ?Hadd; done.
Qed.

Lemma tick_quiet s :
  cmMachine.hold_state (cm1 (world s)) <> FEEDHOLD_REQUESTED ->
  cmMachine.flush_state (cm1 (world s)) <> FLUSH_REQUESTED ->
  cmMachine.cycle_state (cm1 (world s)) <> CYCLE_START_REQUESTED ->
  cm_operation_sequencing_callback fp_NOT_ZERO _to_inches s
  = op_run_operation fp_NOT_ZERO _to_inches s.
Proof.
  intros Hs Hf Hc. unfold cm_operation_sequencing_callback.
  rewrite (bool_decide_false _ Hs). simpl.
  rewrite (bool_decide_false _ Hf). simpl.
  rewrite (bool_decide_false _ Hc). done.
Qed.

Lemma set_run_same {A : Type} (o : cmOperation A) (j : nat) :
  run o = Some j -> set_run (Some j) o = o.
Proof. intros <-. by destruct o. Qed.

Lemma blocked_run s (j : nat) (f : action_exec_t) p q :
  op_wf (op s) -> run (op s) = Some j ->
  queue_of (op s) j = (f, p) :: q ->
  exec_action fp_NOT_ZERO _to_inches f p (world s) = (STAT_EAGAIN, world s) ->
  op_run_operation fp_NOT_ZERO _to_inches s
  = Done (STAT_EAGAIN, mk_System (world s) (set_in_operation true (op s))).
Proof.
  intros Hwf Hr Hq Hex. unfold op_run_operation.
  assert (length (queue_of (op s) j) <= ACTION_MAX - j) as Hlen.
  { unfold queue_of.
    assert (forall l : list (cmAction action_exec_t), length (queue_from l) <= length l) as Hqf.
    { induction l as [|a l IH]; simpl; [lia|]. destruct (func a); simpl; lia. }
    etrans; [apply Hqf|]. rewrite length_drop, (wf_length _ Hwf). lia. }
  pose proof (wf_run _ Hwf j Hr) as Hj.
  rewrite (run_operation_at (exec_action fp_NOT_ZERO _to_inches) (op s) j (world s) Hwf Hr).
  - rewrite Hq. simpl. rewrite Hex. simpl.
    rewrite Nat.add_0_r. by rewrite (set_run_same (set_in_operation true (op s)) j).
  - by rewrite Hq.
  - lia.
  - intros _. rewrite Hq. simpl. by rewrite Hex.
Qed.

Lemma blocked_tick s (j : nat) (f : action_exec_t) p q :
  op_wf (op s) -> run (op s) = Some j ->
  queue_of (op s) j = (f, p) :: q ->
  exec_action fp_NOT_ZERO _to_inches f p (world s) = (STAT_EAGAIN, world s) ->
  cmMachine.hold_state (cm1 (world s)) <> FEEDHOLD_REQUESTED ->
  cmMachine.flush_state (cm1 (world s)) <> FLUSH_REQUESTED ->
  (cmMachine.cycle_state (cm1 (world s)) = CYCLE_START_REQUESTED ->
   cmMachine.hold_state (cm1 (world s)) <> FEEDHOLD_OFF
   /\ cmMachine.hold_state (cm1 (world s)) <> FEEDHOLD_HOLD) ->
  cm_operation_sequencing_callback fp_NOT_ZERO _to_inches s
  = Done (STAT_EAGAIN, mk_System (world s) (set_in_operation true (op s))).
Proof.
  intros Hwf Hr Hq Hex Hs Hfl Hcy.
  pose proof (blocked_run s j f p q Hwf Hr Hq Hex) as Hrun.
  unfold cm_operation_sequencing_callback.
  rewrite (bool_decide_false _ Hs). simpl.
  rewrite (bool_decide_false _ Hfl). simpl.
  case_bool_decide as Hc; simpl; [|done].
  destruct (Hcy Hc) as [H1 H2].
  unfold _initiate_cycle_start.
  rewrite (bool_decide_false _ H1), (bool_decide_false _ H2). simpl.
  rewrite Hrun. simpl.
  by rewrite (blocked_run (mk_System (world s) (set_in_operation true (op s))) j f p q);
    [| apply set_in_operation_wf | | |].
Qed.

(** X11.  While the action at the run cursor is the entry action and the
    primary hold state is anything but Requested, HoldActionStart and
    HoldDone, or it is the exit action and the state is anything but
    Requested, Hold and HoldExitDone, with no flush pending (and, if a cycle
    start is pending, the hold state neither Off nor Hold), every tick
    returns [STAT_EAGAIN] and changes nothing but the runner's in-operation
    flag: no action queued behind the waiting one runs, however many ticks
    pass. *)
Theorem waiting_action_blocks (n : nat) s (j : nat) (f : action_exec_t) p q :
  op_wf (op s) -> run (op s) = Some j ->
  queue_of (op s) j = (f, p) :: q ->
  (f = fn_feedhold_with_actions
   /\ cmMachine.hold_state (cm1 (world s)) <> FEEDHOLD_HOLD_ACTION_START
   /\ cmMachine.hold_state (cm1 (world s)) <> FEEDHOLD_HOLD_DONE)
  \/ (f = fn_feedhold_exit_with_actions
      /\ cmMachine.hold_state (cm1 (world s)) <> FEEDHOLD_HOLD
      /\ cmMachine.hold_state (cm1 (world s)) <> FEEDHOLD_HOLD_EXIT_DONE) ->
  cmMachine.hold_state (cm1 (world s)) <> FEEDHOLD_REQUESTED ->
  cmMachine.flush_state (cm1 (world s)) <> FLUSH_REQUESTED ->
  (cmMachine.cycle_state (cm1 (world s)) = CYCLE_START_REQUESTED ->
   cmMachine.hold_state (cm1 (world s)) <> FEEDHOLD_OFF
   /\ cmMachine.hold_state (cm1 (world s)) <> FEEDHOLD_HOLD) ->
  cm_operation_sequencing_callback fp_NOT_ZERO _to_inches s
  = Done (STAT_EAGAIN, mk_System (world s) (set_in_operation true (op s)))
  /\ ticks fp_NOT_ZERO _to_inches (S n) s
     = Done (mk_System (world s) (set_in_operation true (op s))).
Proof.
  intros Hwf Hr Hq Hwait Hs Hfl Hcy.
  assert (exec_action fp_NOT_ZERO _to_inches f p (world s) = (STAT_EAGAIN, world s)) as Hex.
  { destruct Hwait as [(-> & H1 & H2)|(-> & H1 & H2)]; simpl.
    - unfold _feedhold_with_actions.
      rewrite (bool_decide_false _ H1), (bool_decide_false _ H2).
      by case_bool_decide.
    - unfold _feedhold_exit_with_actions.
      rewrite (bool_decide_false _ H1), (bool_decide_false _ H2).
      by case_bool_decide. }
  split; [by apply (blocked_tick s j f p q)|].
  clear Hwait. revert s Hwf Hr Hq Hs Hfl Hcy Hex.
  induction n as [|n IH]; intros s Hwf Hr Hq Hs Hfl Hcy Hex.
  - rewrite ticks_S, (blocked_tick s j f p q); done.
  - rewrite ticks_S, (blocked_tick s j f p q) by done. unfold rbind. cbn [snd].
    rewrite (IH (mk_System (world s) (set_in_operation true (op s)))); try done.
    by apply set_in_operation_wf.
Qed.

Lemma run_queue_stubs (q : list (action_exec_t * list float)) w :
  Forall (fun x => is_stub x.1 = true) q ->
  run_queue (exec_action fp_NOT_ZERO _to_inches) q w = (length q, STAT_OK, w).
Proof.
  induction 1 as [|[f p] q Hf _ IH]; [done|].
  simpl in *. destruct f; try done; simpl; by rewrite IH.
Qed.

(** X12.  With the entry action at the run cursor, the primary hold state
    HoldDone, only stub actions queued behind it and no request pending, one
    tick completes the operation: the primary hold state becomes Hold, the
    runner is reset, the callback returns [STAT_OK], and nothing else
    changes. *)
Theorem entry_action_completes s (j : nat) p q :
  op_wf (op s) -> run (op s) = Some j ->
  queue_of (op s) j = (fn_feedhold_with_actions, p) :: q ->
  Forall (fun x => is_stub x.1 = true) q ->
  j + S (length q) < ACTION_MAX ->
  cmMachine.hold_state (cm1 (world s)) = FEEDHOLD_HOLD_DONE ->
  cmMachine.flush_state (cm1 (world s)) <> FLUSH_REQUESTED ->
  cmMachine.cycle_state (cm1 (world s)) <> CYCLE_START_REQUESTED ->
  cm_operation_sequencing_callback fp_NOT_ZERO _to_inches s
  = Done (STAT_OK,
          mk_System (upd_cm1 (cmMachine.set_hold_state FEEDHOLD_HOLD) (world s))
                    (reset (op s))).
Proof.
  intros Hwf Hr Hq Hstub Hlen Hs Hfl Hcy.
  rewrite (tick_quiet s) by (done || by rewrite Hs).
  unfold op_run_operation.
  rewrite (run_operation_at (exec_action fp_NOT_ZERO _to_inches) (op s) j (world s) Hwf Hr).
  - rewrite Hq. simpl. unfold _feedhold_with_actions. rewrite Hs. simpl.
    rewrite (run_queue_stubs q _ Hstub). done.
  - by rewrite Hq.
  - rewrite Hq. simpl. lia.
  - rewrite Hq. simpl. lia.
Qed.

(** X13.  The exit action, step by step.  At Hold it requests coolant and
    spindle resume, clears the Z return flag of the secondary machine, issues
    the return move to the secondary machine's G30 position with those
    flags, queues [_feedhold_exit_sync_to_planner], sets the primary hold
    state HoldExitPending and returns [STAT_EAGAIN], leaving the handles on
    the context they were on.  The queued callback sets HoldExitDone and
    requests an immediate status report.  At HoldExitPending the action
    returns [STAT_EAGAIN] and changes nothing.  At HoldExitDone it returns
    [STAT_OK] with [cm] on the primary machine and the flush state cleared if
    a flush was run; the hold state is still HoldExitDone. *)
Theorem feedhold_exit_with_actions_steps prm w :
  (cmMachine.hold_state (cm1 w) = FEEDHOLD_HOLD ->
   let r := _feedhold_exit_with_actions prm w in
   let flags := <[AXIS_Z := false]> (cmMachine.return_flags (cm2 w)) in
   r.1 = STAT_EAGAIN
   /\ cmMachine.hold_state (cm1 r.2) = FEEDHOLD_HOLD_EXIT_PENDING
   /\ cmMachine.return_flags (cm2 r.2) = flags
   /\ trace r.2
      = trace w ++ [call_coolant_control_sync COOLANT_RESUME COOLANT_BOTH;
                    call_spindle_control_sync SPINDLE_RESUME;
                    call_cm_goto_g30_position
                      (GCodeStateX.g30_position (cmMachine.gmx (cm2 w))) flags;
                    call_mp_queue_command fn_feedhold_exit_sync_to_planner]
   /\ cm r.2 = cm w /\ mp r.2 = mp w /\ mr r.2 = mr w)
  /\ (let w' := run_callback fn_feedhold_exit_sync_to_planner w in
      cm1 w' = cmMachine.set_hold_state FEEDHOLD_HOLD_EXIT_DONE (cm1 w)
      /\ trace w' = trace w ++ [call_sr_request_status_report SR_REQUEST_IMMEDIATE]
      /\ cm2 w' = cm2 w /\ cm w' = cm w /\ mp w' = mp w /\ mr w' = mr w)
  /\ (cmMachine.hold_state (cm1 w) = FEEDHOLD_HOLD_EXIT_PENDING ->
      _feedhold_exit_with_actions prm w = (STAT_EAGAIN, w))
  /\ (cmMachine.hold_state (cm1 w) = FEEDHOLD_HOLD_EXIT_DONE ->
      let r := _feedhold_exit_with_actions prm w in
      r.1 = STAT_OK
      /\ cm r.2 = addr_cm1
      /\ cmMachine.hold_state (cm1 r.2) = FEEDHOLD_HOLD_EXIT_DONE
      /\ cmMachine.flush_state (cm1 r.2)
         = (if bool_decide (cmMachine.flush_state (cm1 w) = FLUSH_WAS_RUN)
            then FLUSH_OFF else cmMachine.flush_state (cm1 w))
      /\ cm2 r.2 = cm2 w).
Proof.
  split; [|split; [|split]].
  - intros Hs. unfold _feedhold_exit_with_actions. rewrite Hs. simpl.
    repeat split. by rewrite <- !app_assoc.
  - repeat split.
  - intros Hs. unfold _feedhold_exit_with_actions. by rewrite Hs.
  - intros Hs. unfold _feedhold_exit_with_actions. rewrite Hs. simpl.
    case_bool_decide as Hfl; simpl.
    + unfold cm_reset_position_to_absolute_position. simpl.
      destruct (cmMachine.mp (cm1 w)); simpl; repeat split; by rewrite ?Hs.
    + repeat split; by rewrite ?Hs.
Qed.

Lemma two_adds s a (f g : action_exec_t) :
  filled (op s) 0 -> action (op s) !! 0 = Some a ->
  exists b s2,
    action (op s) !! 1 = Some b
    /\ op_add_action f s = Done (mk_System (world s)
         (mk_cmOperation
            (<[0 := mk_cmAction (number a) (nx a) (Some f) (param a)]> (action (op s)))
            (link_of 0) (Some 0) false))
    /\ op_add_action g (mk_System (world s)
         (mk_cmOperation
            (<[0 := mk_cmAction (number a) (nx a) (Some f) (param a)]> (action (op s)))
            (link_of 0) (Some 0) false)) = Done s2
    /\ world s2 = world s /\ filled (op s2) 2
    /\ queue_of (op s2) 0 = [(f, param a); (g, param b)].
Proof.
  intros Hf Ha.
  pose (o1 := mk_cmOperation
                (<[0 := mk_cmAction (number a) (nx a) (Some f) (param a)]> (action (op s)))
                (link_of 0) (Some 0) false).
  pose (s1 := mk_System (world s) o1).
  destruct (op_add_action_filled s 0 a f Hf) as [Hadd1 Hf1]; [unfold ACTION_MAX; lia | done |].
  fold o1 in Hadd1, Hf1. fold s1 in Hadd1.
  assert (length (action (op s)) = ACTION_MAX) as Hlen.
  { apply (wf_length _ (filled_wf _ _ Hf)). }
  destruct (lookup_lt_is_Some_2 (action (op s)) 1) as [b Hb].
  { rewrite Hlen. unfold ACTION_MAX. lia. }
  assert (action (op s1) !! 1 = Some b) as Hb1.
  { simpl. by rewrite list_lookup_insert_ne. }
  pose (o2 := mk_cmOperation
                (<[1 := mk_cmAction (number b) (nx b) (Some g) (param b)]> (action o1))
                (link_of 1) (Some 0) false).
  destruct (op_add_action_filled s1 1 b g Hf1) as [Hadd2 Hf2]; [unfold ACTION_MAX; lia | done |].
  change (op s1) with o1 in Hadd2, Hf2. change (world s1) with (world s) in Hadd2.
  fold o2 in Hadd2, Hf2.
  exists b, (mk_System (world s) o2).
  split; [done|]. split; [done|]. split; [done|]. split; [done|]. split; [done|].
  simpl.
  assert (action o2 !! 0 = Some (mk_cmAction (number a) (nx a) (Some f) (param a))) as H0.
  { unfold o2, o1. simpl. rewrite list_lookup_insert_ne by done.
    apply list_lookup_insert_eq. rewrite Hlen. unfold ACTION_MAX. lia. }
  assert (action o2 !! 1 = Some (mk_cmAction (number b) (nx b) (Some g) (param b))) as H1.
  { unfold o2, o1. simpl. apply list_lookup_insert_eq.
    rewrite length_insert, Hlen. unfold ACTION_MAX. lia. }
  rewrite (queue_of_cons o2 0 _ f H0 eq_refl).
  rewrite (queue_of_cons o2 1 _ g H1 eq_refl).
  by rewrite (filled_queue_end o2 2 Hf2).
Qed.

(** X14.  A cycle start in a hold with actions.  With the primary hold
    state Hold, hold type with-actions and the runner idle and empty,
    [_initiate_cycle_start] queues the exit action and then the termination
    action selected by the hold final, and runs the operation at once: the
    exit action takes its first step (primary hold state HoldExitPending)
    and the runner is left in the operation with the run cursor on it; the
    termination action has not run. *)
Theorem cycle_start_in_hold s :
  cmMachine.hold_state (cm1 (world s)) = FEEDHOLD_HOLD ->
  cmMachine.hold_type (cm1 (world s)) = FEEDHOLD_TYPE_ACTIONS ->
  filled (op s) 0 ->
  exists a b s',
    action (op s) !! 0 = Some a /\ action (op s) !! 1 = Some b
    /\ _initiate_cycle_start fp_NOT_ZERO _to_inches s = Done s'
    /\ world s' = (_feedhold_exit_with_actions (param a) (world s)).2
    /\ cmMachine.hold_state (cm1 (world s')) = FEEDHOLD_HOLD_EXIT_PENDING
    /\ in_operation (op s') = true /\ run (op s') = Some 0
    /\ queue_of (op s') 0
       = [(fn_feedhold_exit_with_actions, param a);
          (final_at_exit (cmMachine.hold_final (cm1 (world s))), param b)].
Proof.
  intros Hs Ht Hf.
  destruct (filled_slot (op s) 0 Hf) as [a Ha]; [unfold ACTION_MAX; lia|].
  destruct (two_adds s a fn_feedhold_exit_with_actions
              (final_at_exit (cmMachine.hold_final (cm1 (world s)))) Hf Ha)
    as (b & s2 & Hb & Hadd1 & Hadd2 & Hw2 & Hf2 & Hq2).
  assert (op_run_operation fp_NOT_ZERO _to_inches s2
          = Done (STAT_EAGAIN,
                  mk_System (_feedhold_exit_with_actions (param a) (world s)).2
                            (set_run (Some 0) (set_in_operation true (op s2))))) as Hrun.
  { unfold op_run_operation.
    rewrite (run_operation_filled _ (op s2) 2 _ Hf2) by (unfold ACTION_MAX; lia).
    rewrite Hq2, Hw2. simpl.
    unfold _feedhold_exit_with_actions. rewrite Hs. simpl. done. }
  exists a, b, (mk_System (_feedhold_exit_with_actions (param a) (world s)).2
                          (set_run (Some 0) (set_in_operation true (op s2)))).
  split; [done|]. split; [done|]. split.
  - unfold _initiate_cycle_start. rewrite Hs, Ht. simpl.
    rewrite Hadd1. simpl.
    assert (forall r, op_add_action
                        (final_at_exit (cmMachine.hold_final (cm1 (world s))))
                        (mk_System (world s) r) = Done s2 ->
              match cmMachine.hold_final (cm1 (world s)) with
              | FEEDHOLD_FINAL_CYCLE => op_add_action fn_cycle_exit (mk_System (world s) r)
              | FEEDHOLD_FINAL_STOP => op_add_action fn_program_stop (mk_System (world s) r)
              | FEEDHOLD_FINAL_END => op_add_action fn_program_end (mk_System (world s) r)
              | FEEDHOLD_FINAL_ALARM => op_add_action fn_alarm (mk_System (world s) r)
              | FEEDHOLD_FINAL_SHUTDOWN => op_add_action fn_shutdown (mk_System (world s) r)
              | FEEDHOLD_FINAL_INTERLOCK => op_add_action fn_interlock (mk_System (world s) r)
              end = Done s2) as Hsel.
    { intros r. by destruct (cmMachine.hold_final (cm1 (world s))). }
    rewrite (Hsel _ Hadd2). simpl. rewrite Hrun. done.
  - split; [done|]. split.
    + simpl. unfold _feedhold_exit_with_actions. rewrite Hs. done.
    + split; [done|]. split; [done|]. exact Hq2.
Qed.

Lemma final_at_exit_select (final : cmFeedholdFinal) s :
  match final with
  | FEEDHOLD_FINAL_CYCLE => op_add_action fn_cycle_exit s
  | FEEDHOLD_FINAL_STOP => op_add_action fn_program_stop s
  | FEEDHOLD_FINAL_END => op_add_action fn_program_end s
  | FEEDHOLD_FINAL_ALARM => op_add_action fn_alarm s
  | FEEDHOLD_FINAL_SHUTDOWN => op_add_action fn_shutdown s
  | FEEDHOLD_FINAL_INTERLOCK => op_add_action fn_interlock s
  end = op_add_action (final_at_exit final) s.
Proof. by destruct final. Qed.

Lemma final_at_exit_run (final : cmFeedholdFinal) p w :
  exec_action fp_NOT_ZERO _to_inches (final_at_exit final) p w
  = (STAT_OK, match final with
              | FEEDHOLD_FINAL_CYCLE => (_cycle_exit [] w).2
              | _ => w
              end).
Proof. by destruct final. Qed.

(** X15.  A cycle start in a hold without actions.  With the primary hold
    state Hold, a hold type other than with-actions and the runner idle and
    empty, [_initiate_cycle_start] queues the no-actions exit action (for
    the no-actions type; nothing for the sync type) and the termination
    action selected by the hold final, and the operation runs to completion
    in the same call: the runner is left reset; with final cycle the cycle
    is resumed or ended and the primary hold state is Off, with any other
    final nothing changes and the hold state is still Hold. *)
Theorem cycle_start_in_hold_without_actions s :
  cmMachine.hold_state (cm1 (world s)) = FEEDHOLD_HOLD ->
  cmMachine.hold_type (cm1 (world s)) <> FEEDHOLD_TYPE_ACTIONS ->
  filled (op s) 0 ->
  exists s',
    _initiate_cycle_start fp_NOT_ZERO _to_inches s = Done s'
    /\ filled (op s') 0
    /\ world s' = match cmMachine.hold_final (cm1 (world s)) with
                  | FEEDHOLD_FINAL_CYCLE => (_cycle_exit [] (world s)).2
                  | _ => world s
                  end
    /\ cmMachine.hold_state (cm1 (world s'))
       = match cmMachine.hold_final (cm1 (world s)) with
         | FEEDHOLD_FINAL_CYCLE => FEEDHOLD_OFF
         | _ => FEEDHOLD_HOLD
         end
    /\ cm (world s') = cm (world s).
Proof.
  intros Hs Ht Hf.
  set (final := cmMachine.hold_final (cm1 (world s))).
  set (w' := match final with
             | FEEDHOLD_FINAL_CYCLE => (_cycle_exit [] (world s)).2
             | _ => world s
             end).
  destruct (filled_slot (op s) 0 Hf) as [a Ha]; [unfold ACTION_MAX; lia|].
  assert (exists o2, _initiate_cycle_start fp_NOT_ZERO _to_inches s
                     = Done (mk_System w' (reset o2)) /\ op_wf o2) as (o2 & Hinit & Hwf2).
  { unfold _initiate_cycle_start. rewrite Hs. simpl.
    destruct (cmMachine.hold_type (cm1 (world s))) eqn:Hty; [done| |].
    - destruct (two_adds s a fn_feedhold_exit_with_no_actions (final_at_exit final) Hf Ha)
        as (b & s2 & Hb & Hadd1 & Hadd2 & Hw2 & Hf2 & Hq2).
      rewrite Hadd1. simpl. rewrite final_at_exit_select. fold final. rewrite Hadd2. simpl.
      unfold op_run_operation.
      rewrite (run_operation_filled _ (op s2) 2 _ Hf2) by (unfold ACTION_MAX; lia).
      rewrite Hq2, Hw2. simpl. rewrite final_at_exit_run. simpl.
      exists (op s2). split; [done|]. apply (filled_wf _ _ Hf2).
    - simpl. rewrite final_at_exit_select. fold final.
      pose (o1 := mk_cmOperation
                    (<[0 := mk_cmAction (number a) (nx a) (Some (final_at_exit final))
                             (param a)]> (action (op s)))
                    (link_of 0) (Some 0) false).
      destruct (op_add_action_filled s 0 a (final_at_exit final) Hf) as [Hadd1 Hf1];
        [unfold ACTION_MAX; lia | done |].
      fold o1 in Hadd1, Hf1.
      rewrite Hadd1. simpl. unfold op_run_operation. simpl.
      rewrite (run_operation_filled _ o1 1 _ Hf1) by (unfold ACTION_MAX; lia).
      assert (0 < length (action (op s))) as Hlen by (by eapply lookup_lt_Some).
      rewrite (queue_of_cons o1 0 _ (final_at_exit final)
                 (list_lookup_insert_eq _ _ _ Hlen) eq_refl).
      rewrite (filled_queue_end o1 1 Hf1). simpl.
      rewrite final_at_exit_run. simpl.
      exists o1. split; [done|]. apply (filled_wf _ _ Hf1). }
  eexists. split; [exact Hinit|]. simpl.
  split; [apply reset_filled; [apply (wf_length _ Hwf2) | apply (wf_params _ Hwf2)]|].
  split; [done|].
  unfold w'. destruct final; simpl; try done;
    unfold _cycle_exit; by destruct (mp_has_runnable_buffer addr_mp1 (world s)).
Qed.

(** X16.  Completion of a hold exit.  With the exit action at the run
    cursor followed by the termination action, the primary hold state
    HoldExitDone and no flush pending, one tick runs both and resets the
    runner: the three handles are back on the primary objects; with final
    cycle the primary hold state is Off, with any other final it is still
    HoldExitDone.  The callback returns [STAT_OK], or [STAT_NOOP] when a
    cycle start is still pending on the primary machine, because the
    operation then completes inside [_initiate_cycle_start] and the
    callback's own [run_operation] finds an empty runner. *)
Theorem exit_action_completes s (j : nat) (final : cmFeedholdFinal) p p' :
  op_wf (op s) -> run (op s) = Some j ->
  queue_of (op s) j = [(fn_feedhold_exit_with_actions, p); (final_at_exit final, p')] ->
  j + 2 < ACTION_MAX ->
  cmMachine.hold_state (cm1 (world s)) = FEEDHOLD_HOLD_EXIT_DONE ->
  cmMachine.flush_state (cm1 (world s)) <> FLUSH_REQUESTED ->
  cmMachine.mp (cm1 (world s)) = addr_mp1 ->
  mpPlanner.mr (mp1 (world s)) = addr_mr1 ->
  exists s',
    cm_operation_sequencing_callback fp_NOT_ZERO _to_inches s
    = Done (if bool_decide (cmMachine.cycle_state (cm1 (world s)) = CYCLE_START_REQUESTED)
            then STAT_NOOP else STAT_OK, s')
    /\ op s' = reset (op s)
    /\ world s' = (exec_action fp_NOT_ZERO _to_inches (final_at_exit final) p'
                     (_feedhold_exit_with_actions p (world s)).2).2
    /\ cm (world s') = addr_cm1 /\ mp (world s') = addr_mp1 /\ mr (world s') = addr_mr1
    /\ cmMachine.hold_state (cm1 (world s'))
       = match final with
         | FEEDHOLD_FINAL_CYCLE => FEEDHOLD_OFF
         | _ => FEEDHOLD_HOLD_EXIT_DONE
         end.
Proof.
  intros Hwf Hr Hq Hlen Hs Hfl Hmp Hmr.
  set (w1 := (_feedhold_exit_with_actions p (world s)).2).
  set (w2 := (exec_action fp_NOT_ZERO _to_inches (final_at_exit final) p' w1).2).
  assert (op_run_operation fp_NOT_ZERO _to_inches s
          = Done (STAT_OK, mk_System w2 (reset (op s)))) as Hrun.
  { unfold op_run_operation.
    rewrite (run_operation_at (exec_action fp_NOT_ZERO _to_inches) (op s) j (world s) Hwf Hr).
    - rewrite Hq. simpl.
      assert (_feedhold_exit_with_actions p (world s) = (STAT_OK, w1)) as ->.
      { unfold w1, _feedhold_exit_with_actions. rewrite Hs. done. }
      unfold w2. rewrite !final_at_exit_run. done.
    - by rewrite Hq.
    - rewrite Hq. simpl. lia.
    - rewrite Hq. simpl. lia. }
  assert (op_run_operation fp_NOT_ZERO _to_inches (mk_System w2 (reset (op s)))
          = Done (STAT_NOOP, mk_System w2 (reset (op s)))) as Hnoop.
  { unfold op_run_operation. simpl.
    destruct (lookup_lt_is_Some_2 (action (op s)) 0) as [a Ha].
    { rewrite (wf_length _ Hwf). unfold ACTION_MAX. lia. }
    rewrite (run_operation_noop _ (reset (op s)) 0 _ w2 eq_refl
               (reset_lookup (op s) 0 a (wf_length _ Hwf) Ha) eq_refl).
    done. }
  exists (mk_System w2 (reset (op s))). split.
  - unfold cm_operation_sequencing_callback.
    rewrite bool_decide_false by (by rewrite Hs). simpl.
    rewrite (bool_decide_false _ Hfl). simpl.
    case_bool_decide as Hc; simpl.
    + unfold _initiate_cycle_start. rewrite Hs. simpl. rewrite Hrun. simpl. exact Hnoop.
    + exact Hrun.
  - split; [done|]. split; [done|]. simpl.
    unfold w2. rewrite final_at_exit_run. simpl.
    assert (cm w1 = addr_cm1 /\ mp w1 = addr_mp1 /\ mr w1 = addr_mr1
            /\ cmMachine.hold_state (cm1 w1) = FEEDHOLD_HOLD_EXIT_DONE) as (H1 & H2 & H3 & H4).
    { unfold w1, _feedhold_exit_with_actions. rewrite Hs. simpl.
      unfold cm_reset_position_to_absolute_position.
      case_bool_decide; simpl; do 3 (rewrite ?Hmp, ?Hmr, ?Hs; simpl); done. }
    destruct final; simpl; try done.
    unfold _cycle_exit. by destruct (mp_has_runnable_buffer addr_mp1 w1).
Qed.

Lemma exec_action_trace (f : action_exec_t) p w :
  exists tr, trace (exec_action fp_NOT_ZERO _to_inches f p w).2 = trace w ++ tr.
Proof.
  assert (exists tr, trace w = trace w ++ tr) as Hnil.
  { exists []. by rewrite app_nil_r. }
  destruct f; simpl; try done.
  - unfold _feedhold_with_actions. repeat case_bool_decide; simpl; try done.
    unfold z_lift, upd_cm.
    destruct (cm w); simpl; destruct (fp_NOT_ZERO _); simpl;
      eexists; rewrite <- ?app_assoc; simpl; reflexivity.
  - unfold _feedhold_exit_with_actions. repeat case_bool_decide; simpl; try done.
    + eexists. rewrite <- ?app_assoc. simpl. reflexivity.
    + unfold cm_reset_position_to_absolute_position. simpl.
      destruct (cmMachine.mp (cm1 w)); simpl; eexists; reflexivity.
  - unfold _cycle_exit. destruct (mp_has_runnable_buffer addr_mp1 w); simpl;
      eexists; rewrite <- ?app_assoc; simpl; reflexivity.
Qed.

Lemma exec_action_flush (f : action_exec_t) p w :
  cmMachine.flush_state (cm1 w) <> FLUSH_REQUESTED ->
  cmMachine.flush_state (cm1 (exec_action fp_NOT_ZERO _to_inches f p w).2) <> FLUSH_REQUESTED.
Proof.
  intros Hfl. destruct f; simpl; try done.
  - unfold _feedhold_with_actions. repeat case_bool_decide; simpl; try done.
    unfold z_lift, upd_cm.
    destruct (cm w); simpl; destruct (fp_NOT_ZERO _); simpl; done.
  - unfold _feedhold_exit_with_actions. repeat case_bool_decide; simpl; try done.
  - unfold _cycle_exit. destruct (mp_has_runnable_buffer addr_mp1 w); simpl; done.
Qed.

Lemma initiate_cycle_start_invariant (P : World -> Prop) s s' :
  (forall f p w, P w -> P (exec_action fp_NOT_ZERO _to_inches f p w).2) ->
  (forall w, P w -> P (st_request_exec_move (cm_cycle_start w))) ->
  P (world s) -> op_wf (op s) ->
  _initiate_cycle_start fp_NOT_ZERO _to_inches s = Done s' ->
  P (world s') /\ op_wf (op s').
Proof.
  intros Hact Hstart HP Hwf. unfold _initiate_cycle_start.
  destruct (bool_decide (cmMachine.hold_state (cm1 (world s)) = FEEDHOLD_OFF)).
  { intros [= <-]. simpl. split; [by apply Hstart | done]. }
  assert (forall f s0, op_wf (op s0) ->
            exists s', op_add_action f s0 = Done s' /\ world s' = world s0 /\ op_wf (op s'))
    as Hadd.
  { intros f s0 Hwf0.
    destruct (op_add_action_total (fun _ => True) f s0) as (s2 & ? & ? & ? & _); eauto. }
  set (inner := if bool_decide (cmMachine.hold_state (cm1 (world s)) = FEEDHOLD_HOLD)
                then _ else _).
  assert (exists s1, inner = Done s1 /\ world s1 = world s /\ op_wf (op s1))
    as (s1 & -> & Hw1 & Hwf1).
  { unfold inner.
    destruct (bool_decide (cmMachine.hold_state (cm1 (world s)) = FEEDHOLD_HOLD));
      [|by eauto].
    assert (exists s1, match cmMachine.hold_type (cm1 (world s)) with
                       | FEEDHOLD_TYPE_ACTIONS => op_add_action fn_feedhold_exit_with_actions s
                       | FEEDHOLD_TYPE_NO_ACTIONS => op_add_action fn_feedhold_exit_with_no_actions s
                       | FEEDHOLD_TYPE_SYNC => Done s
                       end = Done s1 /\ world s1 = world s /\ op_wf (op s1))
      as (s1 & -> & Hw1 & Hwf1).
    { destruct (cmMachine.hold_type (cm1 (world s))); try by apply Hadd. eauto. }
    simpl. rewrite final_at_exit_select.
    destruct (Hadd (final_at_exit (cmMachine.hold_final (cm1 (world s1)))) s1 Hwf1)
      as (s3 & H3 & H4 & H5).
    exists s3. rewrite H3, H4, Hw1. done. }
  simpl.
  destruct (op_run_operation fp_NOT_ZERO _to_inches s1) as [[st s2]| |] eqn:Hrun;
    simpl; try done.
  intros [= <-].
  destruct (op_run_operation_invariant fp_NOT_ZERO _to_inches P (fun _ => True) s1 st s2)
    as (H1 & H2 & _); try done.
  - intros f p w0 _ Hw0. by apply Hact.
  - by rewrite Hw1.
Qed.

Lemma initiate_feedhold_frame s s' :
  op_wf (op s) -> _initiate_feedhold s = Done s' ->
  op_wf (op s') /\ trace (world s') = trace (world s) /\ cm (world s') = cm (world s)
  /\ cmMachine.flush_state (cm1 (world s')) = cmMachine.flush_state (cm1 (world s))
  /\ cmMachine.mp (cm1 (world s')) = cmMachine.mp (cm1 (world s)).
Proof.
  intros Hwf. unfold _initiate_feedhold.
  assert (forall f s0, op_wf (op s0) ->
            exists s', op_add_action f s0 = Done s' /\ world s' = world s0 /\ op_wf (op s'))
    as Hadd.
  { intros f s0 Hwf0.
    destruct (op_add_action_total (fun _ => True) f s0) as (s2 & ? & ? & ? & _); eauto. }
  destruct (_ && _).
  - assert (exists s1, match cmMachine.hold_type (cm1 (world s)) with
                       | FEEDHOLD_TYPE_ACTIONS => op_add_action fn_feedhold_with_actions s
                       | FEEDHOLD_TYPE_NO_ACTIONS => op_add_action fn_feedhold_with_no_actions s
                       | FEEDHOLD_TYPE_SYNC => op_add_action fn_feedhold_with_sync s
                       end = Done s1 /\ world s1 = world s /\ op_wf (op s1))
      as (s1 & -> & Hw1 & Hwf1).
    { destruct (cmMachine.hold_type (cm1 (world s))); by apply Hadd. }
    simpl.
    assert (exists s2, match cmMachine.hold_final (cm1 (world s1)) with
                       | FEEDHOLD_FINAL_STOP => op_add_action fn_program_stop s1
                       | FEEDHOLD_FINAL_END => op_add_action fn_program_end s1
                       | FEEDHOLD_FINAL_ALARM => op_add_action fn_alarm s1
                       | FEEDHOLD_FINAL_SHUTDOWN => op_add_action fn_shutdown s1
                       | FEEDHOLD_FINAL_INTERLOCK => op_add_action fn_interlock s1
                       | FEEDHOLD_FINAL_CYCLE => Done s1
                       end = Done s2 /\ world s2 = world s1 /\ op_wf (op s2))
      as (s2 & -> & Hw2 & Hwf2).
    { destruct (cmMachine.hold_final (cm1 (world s1))); try by apply Hadd. eauto. }
    simpl. intros [= <-]. simpl. rewrite Hw2, Hw1. done.
  - destruct (_ && _).
    + destruct (Hadd fn_feedhold_with_sync s Hwf) as (s1 & -> & Hw1 & Hwf1).
      simpl. intros [= <-]. simpl. rewrite Hw1. done.
    + by intros [= <-].
Qed.

(** What a tick establishes about the world: a property that holds once the
    hold and flush requests have been served and that the actions and the
    cycle start keep. *)
Lemma tick_phases (P : World -> Prop) s st s' :
  (forall f p w, P w -> P (exec_action fp_NOT_ZERO _to_inches f p w).2) ->
  (forall w, P w -> P (st_request_exec_move (cm_cycle_start w))) ->
  (forall w1, trace w1 = trace (world s) -> cm w1 = cm (world s) ->
     cmMachine.flush_state (cm1 w1) = cmMachine.flush_state (cm1 (world s)) ->
     cmMachine.mp (cm1 w1) = cmMachine.mp (cm1 (world s)) ->
     P (if bool_decide (cmMachine.flush_state (cm1 w1) = FLUSH_REQUESTED)
        then _initiate_queue_flush w1 else w1)) ->
  op_wf (op s) ->
  cm_operation_sequencing_callback fp_NOT_ZERO _to_inches s = Done (st, s') ->
  P (world s').
Proof.
  intros Hact Hstart Hserved Hwf. unfold cm_operation_sequencing_callback.
  destruct (if bool_decide (cmMachine.hold_state (cm1 (world s)) = FEEDHOLD_REQUESTED)
            then _initiate_feedhold s else Done s) as [s1| |] eqn:Hinit; simpl; try done.
  assert (op_wf (op s1) /\ trace (world s1) = trace (world s)
          /\ cm (world s1) = cm (world s)
          /\ cmMachine.flush_state (cm1 (world s1)) = cmMachine.flush_state (cm1 (world s))
          /\ cmMachine.mp (cm1 (world s1)) = cmMachine.mp (cm1 (world s)))
    as (Hwf1 & Htr1 & Hcm1 & Hfl1 & Hmp1).
  { destruct (bool_decide (cmMachine.hold_state (cm1 (world s)) = FEEDHOLD_REQUESTED)).
    - by apply initiate_feedhold_frame.
    - injection Hinit as <-. done. }
  set (s2 := if bool_decide (cmMachine.flush_state (cm1 (world s1)) = FLUSH_REQUESTED)
             then upd_world _initiate_queue_flush s1 else s1).
  assert (P (world s2) /\ op_wf (op s2)) as [HP2 Hwf2].
  { specialize (Hserved (world s1) Htr1 Hcm1 Hfl1 Hmp1). unfold s2.
    destruct (bool_decide (cmMachine.flush_state (cm1 (world s1)) = FLUSH_REQUESTED)); done. }
  assert (forall s3, P (world s3) -> op_wf (op s3) ->
            op_run_operation fp_NOT_ZERO _to_inches s3 = Done (st, s') ->
            P (world s')) as Hrun.
  { intros s3 HP3 Hwf3 Hr.
    destruct (op_run_operation_invariant fp_NOT_ZERO _to_inches P (fun _ => True) s3 st s')
      as (H1 & _); try done.
    intros f p w0 _ Hw0. by apply Hact. }
  destruct (bool_decide (cmMachine.cycle_state (cm1 (world s2)) = CYCLE_START_REQUESTED));
    simpl.
  - destruct (_initiate_cycle_start fp_NOT_ZERO _to_inches s2) as [s3| |] eqn:Hcs;
      simpl; try done.
    destruct (initiate_cycle_start_invariant P s2 s3 Hact) as [HP3 Hwf3]; try done.
    intros Hr. by apply (Hrun s3).
  - intros Hr. by apply (Hrun s2).
Qed.

(** X7.  One tick of the main loop on a well-formed runner that holds at
    most seven actions, idle or in an operation: the sequencing callback
    returns - no null dereference - and leaves the runner well formed with
    at most four actions more; the collaborator calls made before the tick
    stay in place, the tick only makes further ones. *)
Theorem tick_returns s (k : nat) :
  runner_ok (op s) k -> k + 4 < ACTION_MAX ->
  exists st s' k',
    cm_operation_sequencing_callback fp_NOT_ZERO _to_inches s = Done (st, s')
    /\ runner_ok (op s') k' /\ k' <= k + 4
    /\ exists tr, trace (world s') = trace (world s) ++ tr.
Proof.
  intros Hok Hk.
  destruct (tick_total s k Hok Hk) as (st & s' & k' & Htick & Hok' & Hk').
  exists st, s', k'. split; [done|]. split; [done|]. split; [done|].
  apply (tick_phases (fun w => exists tr, trace w = trace (world s) ++ tr) s st s');
    try done.
  - intros f p w (tr & H2). destruct (exec_action_trace f p w) as (tr' & ->).
    rewrite H2. exists (tr ++ tr'). by rewrite app_assoc.
  - intros w (tr & H2). simpl. rewrite H2. eexists. rewrite <- !app_assoc. reflexivity.
  - intros w1 Htr1 _ _ _. case_bool_decide.
    + rewrite <- Htr1. unfold _initiate_queue_flush, cm_queue_flush.
      destruct (cm w1); simpl.
      * destruct (cmMachine.mp (cm1 w1)); simpl; eexists; rewrite <- ?app_assoc;
          reflexivity.
      * destruct (cmMachine.mp (cm2 w1)); simpl; eexists; rewrite <- ?app_assoc;
          reflexivity.
    + exists []. by rewrite app_nil_r.
  - by destruct Hok.
Qed.

(** X17.  A flush requested on the primary machine while it is the active
    one is run by the next tick whatever the hold state is: on a well-formed
    runner with at most seven actions the tick returns, the arc is aborted
    and the primary machine's planner reset as the first collaborator calls
    of the tick, and when the callback returns the primary flush state is no
    longer Requested. *)
Theorem requested_flush_runs s (k : nat) :
  runner_ok (op s) k -> k + 4 < ACTION_MAX ->
  cm (world s) = addr_cm1 ->
  cmMachine.flush_state (cm1 (world s)) = FLUSH_REQUESTED ->
  exists st s',
    cm_operation_sequencing_callback fp_NOT_ZERO _to_inches s = Done (st, s')
    /\ cmMachine.flush_state (cm1 (world s')) <> FLUSH_REQUESTED
    /\ exists tr,
         trace (world s')
         = trace (world s)
           ++ [call_cm_abort_arc addr_cm1;
               call_planner_reset (cmMachine.mp (cm1 (world s)))]
           ++ tr.
Proof.
  intros Hok Hk Hcm Hfl.
  destruct (tick_total s k Hok Hk) as (st & s' & k' & Htick & _).
  exists st, s'. split; [done|].
  set (base := trace (world s)
               ++ [call_cm_abort_arc addr_cm1;
                   call_planner_reset (cmMachine.mp (cm1 (world s)))]).
  assert (cmMachine.flush_state (cm1 (world s')) <> FLUSH_REQUESTED
          /\ exists tr, trace (world s') = base ++ tr) as [H1 (tr & H2)].
  { apply (tick_phases (fun w => cmMachine.flush_state (cm1 w) <> FLUSH_REQUESTED
                                 /\ exists tr, trace w = base ++ tr) s st s'); try done.
    - intros f p w [H1 (tr & H2)]. split; [by apply exec_action_flush|].
      destruct (exec_action_trace f p w) as (tr' & ->). rewrite H2.
      exists (tr ++ tr'). by rewrite app_assoc.
    - intros w [H1 (tr & H2)]. split; [done|]. simpl. rewrite H2.
      eexists. rewrite <- !app_assoc. reflexivity.
    - intros w1 Htr1 Hcm1 Hfl1 Hmp1.
      rewrite bool_decide_true by congruence.
      unfold _initiate_queue_flush, cm_queue_flush. rewrite Hcm1, Hcm. simpl.
      rewrite Hmp1.
      destruct (cmMachine.mp (cm1 (world s))); simpl; (split; [done|]);
        exists []; rewrite app_nil_r; unfold base; rewrite Htr1;
        by rewrite <- app_assoc.
    - by destruct Hok. }
  split; [done|]. exists tr. rewrite H2. unfold base. by rewrite <- app_assoc.
Qed.

End FeedholdMore.

(** * The further theorems at the worked states *)

Ltac slot_by_slot :=
  let i := fresh "i" in
  let a := fresh "a" in
  let H := fresh "H" in
  intros i a H;
  do 12 (destruct i as [|i];
         [cbn in H; injection H as <-; simpl;
          first [ reflexivity
                | split;
                  [ first [ intros _; unfold ACTION_MAX; lia | intros [? ?]; discriminate ]
                  | first [ solve [eauto] | intros ?; unfold ACTION_MAX in *; lia ] ] ]
         |]);
  cbn in H; discriminate H.

Ltac concrete_wf :=
  split;
  [ reflexivity | slot_by_slot | slot_by_slot
  | intros ? [= <-]; unfold ACTION_MAX; lia
  | intros ? [= <-]; unfold ACTION_MAX; lia ].

Ltac concrete_filled :=
  split;
  [ concrete_wf | unfold ACTION_MAX; lia | reflexivity | reflexivity | reflexivity
  | slot_by_slot ].

Lemma s_requested_filled : filled (op s_requested) 1.
Proof. concrete_filled. Qed.

Lemma s_hold_done_wf : op_wf (op s_hold_done).
Proof. concrete_wf. Qed.

Lemma s_exit_done_wf : op_wf (op s_exit_done).
Proof. concrete_wf. Qed.

Lemma reset_state_witness :
  length (action op_zero) = ACTION_MAX
  /\ queue_of (reset op_zero) 0 = []
  /\ reset (reset op_zero) = reset op_zero.
Proof.
  split; [reflexivity|].
  destruct (reset_state op_zero eq_refl) as (_ & _ & _ & _ & _ & H6 & H7).
  split; [exact H6 | exact H7].
Defined.

Lemma add_all_fifo_witness :
  length two_requests <= ACTION_MAX
  /\ exists o',
       add_all two_requests (op s_boot) = Done ([STAT_OK; STAT_OK], o')
       /\ filled o' 2
       /\ Forall2 queued_as (queue_of o' 0) two_requests.
Proof.
  assert (length two_requests <= ACTION_MAX) as Hlen.
  { unfold ACTION_MAX. simpl. lia. }
  split; [exact Hlen|].
  destruct (add_all_fifo two_requests (op s_boot) s_boot_filled Hlen)
    as (o' & H1 & H2 & H3 & _).
  { intros f src Hin. unfold two_requests in Hin.
    apply elem_of_cons in Hin as [Hin|Hin]; [discriminate Hin|].
    apply list_elem_of_singleton in Hin. injection Hin as _ ->. reflexivity. }
  exists o'. split; [exact H1|]. split; [exact H2 | exact H3].
Defined.

Lemma run_operation_fifo_witness :
  exists o',
    run_operation (exec_action fp_NOT_ZERO_exact _to_inches_mm)
      (op s_requested) w_hold_point
    = Done (STAT_EAGAIN, o',
            (_feedhold_with_actions fp_NOT_ZERO_exact _to_inches_mm
               (replicate PARAM_MAX fzero) w_hold_point).2)
    /\ in_operation o' = true /\ run o' = Some 0
    /\ action o' = action (op s_requested).
Proof.
  destruct (run_operation_fifo (exec_action fp_NOT_ZERO_exact _to_inches_mm)
              (op s_requested) 1 0 w_hold_point STAT_EAGAIN
              (_feedhold_with_actions fp_NOT_ZERO_exact _to_inches_mm
                 (replicate PARAM_MAX fzero) w_hold_point).2
              s_requested_filled)
    as (o' & H1 & _ & _ & _ & H5).
  - lia.
  - unfold ACTION_MAX. lia.
  - reflexivity.
  - destruct (H5 eq_refl) as (_ & H6 & H7 & H8 & _).
    exists o'. split; [exact H1|]. split; [exact H6|]. split; [exact H7 | exact H8].
Defined.

Lemma op_three_filled : filled op_three 3.
Proof. concrete_filled. Qed.

Lemma run_operation_resume_witness :
  exists o',
    run_operation (exec_action fp_NOT_ZERO_exact _to_inches_mm)
      op_three (world s_requested)
    = Done (STAT_EAGAIN, o', world s_requested)
    /\ add_action fn_program_end None o' = Done (STAT_COMMAND_NOT_ACCEPTED, o')
    /\ queue_of o' 1
       = [(fn_feedhold_with_actions, replicate PARAM_MAX fzero);
          (fn_program_stop, params_1234)]
    /\ run_operation (exec_action fp_NOT_ZERO_exact _to_inches_mm)
         o' (world s_hold_done)
       = Done (STAT_OK, reset o',
               upd_cm1 (cmMachine.set_hold_state FEEDHOLD_HOLD) (world s_hold_done)).
Proof.
  destruct (run_operation_resume (exec_action fp_NOT_ZERO_exact _to_inches_mm)
              op_three 3 1 (world s_requested) (world s_requested)
              (world s_hold_done) fn_program_end None op_three_filled)
    as (o' & H1 & H2 & H3 & _ & H5).
  - lia.
  - unfold ACTION_MAX. lia.
  - reflexivity.
  - exists o'. split; [exact H1|]. split; [exact H2|]. split; [exact H3|].
    rewrite H5. reflexivity.
Defined.

Lemma run_operation_fuel_enough_witness :
  ACTION_MAX <= 20
  /\ run_operation_fuel (exec_action fp_NOT_ZERO_exact _to_inches_mm) 20
       (op s_requested) w_hold_point
     = run_operation (exec_action fp_NOT_ZERO_exact _to_inches_mm)
         (op s_requested) w_hold_point.
Proof.
  assert (ACTION_MAX <= 20) as Hfuel by (unfold ACTION_MAX; lia).
  split; [exact Hfuel|].
  apply (run_operation_fuel_enough (exec_action fp_NOT_ZERO_exact _to_inches_mm) 20
           (op s_requested) w_hold_point (filled_wf _ _ s_requested_filled) Hfuel).
Defined.

Lemma s_twelve_filled : filled (op s_twelve_val) 12.
Proof. concrete_filled. Qed.

Lemma run_operation_fault_iff_witness :
  length (queue_of (op s_twelve_val) 0) = ACTION_MAX
  /\ run_operation (exec_action fp_NOT_ZERO_exact _to_inches_mm)
       (op s_twelve_val) (world s_twelve_val) = Fault
  /\ run_operation (exec_action fp_NOT_ZERO_exact _to_inches_mm)
       op_three (world s_requested) <> Fault
  /\ run_operation (exec_action fp_NOT_ZERO_exact _to_inches_mm)
       op_three (world s_requested)
     = Done (STAT_EAGAIN, set_run (Some 1) (set_in_operation true op_three),
             world s_requested).
Proof.
  split; [reflexivity|].
  split.
  - destruct (run_operation_fault_iff (exec_action fp_NOT_ZERO_exact _to_inches_mm)
                (op s_twelve_val) 12 (world s_twelve_val) s_twelve_filled)
      as [[_ H] _]; [lia|].
    apply H. split; reflexivity.
  - destruct (run_operation_fault_iff (exec_action fp_NOT_ZERO_exact _to_inches_mm)
                op_three 3 (world s_requested) op_three_filled)
      as [[Hf _] H]; [lia|].
    assert (run_operation (exec_action fp_NOT_ZERO_exact _to_inches_mm)
              op_three (world s_requested) <> Fault) as Hnf.
    { intros Hfault. destruct (Hf Hfault) as [Hk _]. discriminate Hk. }
    split; [exact Hnf|]. rewrite (H Hnf). reflexivity.
Defined.

Lemma tick_returns_witness :
  exists st s' k',
    tick s_requested = Done (st, s') /\ runner_ok (op s') k' /\ k' <= 5.
Proof.
  destruct (tick_returns fp_NOT_ZERO_exact _to_inches_mm s_requested 1
              (filled_runner_ok _ _ s_requested_filled))
    as (st & s' & k' & H1 & H2 & H3 & _).
  - unfold ACTION_MAX. lia.
  - exists st, s', k'. split; [exact H1|]. split; [exact H2 | exact H3].
Defined.

Lemma request_feedhold_returns_witness :
  exists s' k',
    cm_request_feedhold FEEDHOLD_TYPE_ACTIONS FEEDHOLD_FINAL_STOP s_running = Done s'
    /\ runner_ok (op s') k' /\ k' <= 2
    /\ trace (world s') = trace (world s_running).
Proof.
  destruct (request_feedhold_returns FEEDHOLD_TYPE_ACTIONS FEEDHOLD_FINAL_STOP s_running 0
              (filled_runner_ok _ _ s_boot_filled))
    as (s' & k' & H1 & H2 & _ & H4 & _ & _ & H7 & _).
  exists s', k'. split; [exact H1|]. split; [exact H2|]. split; [exact H4 | exact H7].
Defined.

Lemma initiate_feedhold_queues_witness :
  exists s',
    _initiate_feedhold s_hold_requested = Done s'
    /\ filled (op s') 1
    /\ (queue_of (op s') 0).*1 = [fn_feedhold_with_actions].
Proof.
  destruct (initiate_feedhold_queues s_hold_requested 0 eq_refl eq_refl s_boot_filled)
    as (s' & H1 & _ & H3 & H4 & _).
  - unfold ACTION_MAX. lia.
  - exists s'. split; [exact H1|]. split; [exact H3 | exact H4].
Defined.

Lemma initiate_feedhold_runner_busy_witness :
  _initiate_feedhold
    (mk_System (world s_hold_requested) (set_in_operation true (op s_requested)))
  = Done (mk_System (upd_cm1 (cmMachine.set_hold_state FEEDHOLD_SYNC)
                       (world s_hold_requested))
                    (set_in_operation true (op s_requested))).
Proof.
  apply (initiate_feedhold_runner_busy
           (mk_System (world s_hold_requested) (set_in_operation true (op s_requested)))
           eq_refl eq_refl).
  left. reflexivity.
Defined.

Lemma waiting_action_blocks_witness :
  ticks fp_NOT_ZERO_exact _to_inches_mm 3 s_requested
  = Done (mk_System (world s_requested) (set_in_operation true (op s_requested))).
Proof.
  apply (waiting_action_blocks fp_NOT_ZERO_exact _to_inches_mm 2 s_requested 0
           fn_feedhold_with_actions (replicate PARAM_MAX fzero) []
           (filled_wf _ _ s_requested_filled) eq_refl eq_refl).
  - left. split; [reflexivity|]. split; discriminate.
  - discriminate.
  - discriminate.
  - intros H. discriminate H.
Defined.

Lemma entry_action_completes_witness :
  tick s_hold_done
  = Done (STAT_OK,
          mk_System (upd_cm1 (cmMachine.set_hold_state FEEDHOLD_HOLD) (world s_hold_done))
                    (reset (op s_hold_done))).
Proof.
  apply (entry_action_completes fp_NOT_ZERO_exact _to_inches_mm s_hold_done 0
           (replicate PARAM_MAX fzero) [] s_hold_done_wf eq_refl eq_refl).
  - constructor.
  - unfold ACTION_MAX. simpl. lia.
  - reflexivity.
  - discriminate.
  - discriminate.
Defined.

Lemma feedhold_exit_with_actions_steps_witness :
  cmMachine.hold_state (cm1 (world s_in_hold_val)) = FEEDHOLD_HOLD
  /\ (_feedhold_exit_with_actions [] (world s_in_hold_val)).1 = STAT_EAGAIN
  /\ cmMachine.hold_state (cm1 (_feedhold_exit_with_actions [] (world s_in_hold_val)).2)
     = FEEDHOLD_HOLD_EXIT_PENDING.
Proof.
  split; [reflexivity|].
  destruct (feedhold_exit_with_actions_steps [] (world s_in_hold_val)) as (H & _).
  destruct (H eq_refl) as (H1 & H2 & _).
  split; [exact H1 | exact H2].
Defined.

Lemma cycle_start_in_hold_witness :
  exists s',
    _initiate_cycle_start fp_NOT_ZERO_exact _to_inches_mm s_in_hold_val = Done s'
    /\ cmMachine.hold_state (cm1 (world s')) = FEEDHOLD_HOLD_EXIT_PENDING
    /\ in_operation (op s') = true
    /\ (queue_of (op s') 0).*1 = [fn_feedhold_exit_with_actions; fn_cycle_exit].
Proof.
  destruct (cycle_start_in_hold fp_NOT_ZERO_exact _to_inches_mm s_in_hold_val
              eq_refl eq_refl s_boot_filled)
    as (a & b & s' & _ & _ & H3 & _ & H5 & H6 & _ & H8).
  exists s'. split; [exact H3|]. split; [exact H5|]. split; [exact H6|].
  rewrite H8. reflexivity.
Defined.

Lemma cycle_start_in_hold_without_actions_witness :
  exists s',
    _initiate_cycle_start fp_NOT_ZERO_exact _to_inches_mm s_hold_no_actions = Done s'
    /\ filled (op s') 0
    /\ cmMachine.hold_state (cm1 (world s')) = FEEDHOLD_OFF.
Proof.
  destruct (cycle_start_in_hold_without_actions fp_NOT_ZERO_exact _to_inches_mm
              s_hold_no_actions eq_refl)
    as (s' & H1 & H2 & _ & H4 & _).
  - discriminate.
  - exact s_boot_filled.
  - exists s'. split; [exact H1|]. split; [exact H2 | exact H4].
Defined.

Lemma exit_action_completes_witness :
  exists s',
    tick s_exit_done = Done (STAT_OK, s')
    /\ op s' = reset (op s_exit_done)
    /\ cm (world s') = addr_cm1
    /\ cmMachine.hold_state (cm1 (world s')) = FEEDHOLD_OFF.
Proof.
  destruct (exit_action_completes fp_NOT_ZERO_exact _to_inches_mm s_exit_done 0
              FEEDHOLD_FINAL_CYCLE (replicate PARAM_MAX fzero) (replicate PARAM_MAX fzero)
              s_exit_done_wf eq_refl eq_refl)
    as (s' & H1 & H2 & _ & H4 & _ & _ & H7).
  - unfold ACTION_MAX. lia.
  - reflexivity.
  - discriminate.
  - reflexivity.
  - reflexivity.
  - exists s'. split; [exact H1|]. split; [exact H2|]. split; [exact H4 | exact H7].
Defined.

Lemma requested_flush_runs_witness :
  exists st s' tr,
    tick s_flush_no_hold = Done (st, s')
    /\ cmMachine.flush_state (cm1 (world s')) <> FLUSH_REQUESTED
    /\ trace (world s')
       = [call_cm_abort_arc addr_cm1; call_planner_reset addr_mp1] ++ tr.
Proof.
  destruct (requested_flush_runs fp_NOT_ZERO_exact _to_inches_mm s_flush_no_hold 0
              (filled_runner_ok _ _ s_boot_filled))
    as (st & s' & H1 & H2 & tr & H3).
  - unfold ACTION_MAX. lia.
  - reflexivity.
  - reflexivity.
  - exists st, s', tr. split; [exact H1|]. split; [exact H2 | exact H3].
Defined.
